(** * PiFinder user-interface core

    A shallow embedding of the two Python sources of the repository,

    - [python/PiFinder/ui/locate.py]   (class [UILocate]: target lists,
      list switching, scrolling, save / load, pointing deltas), and
    - [python/PiFinder/uimodules.py]   (class [UICatalog]: the designator
      shift register and the neighbour query),

    followed by the properties of the specification stated over it.

    Conventions.  Python objects with mutable attributes become records that
    are threaded through a state-and-exception monad; a Python exception
    leaves the attributes as they were at the raise, exactly as in Python.
    A Python [float] is the rational it denotes ([Q]), and every float
    operation rounds its exact result to binary64 (53 significant bits,
    ties to even), as IEEE 754 addition and subtraction do; the exponent
    range is not bounded, so overflow to infinity is outside the model, and
    so are NaN and the sign of zero.  Python [int]s are [Z]; Python [str]s
    are [string]. *)

From Stdlib Require Import ZArith QArith Qround Qpower Lia Lqa Ascii String DecimalString.
From stdpp Require Import base list strings.
From Stdlib Require Import DecimalPos.

(** ** The fragment of the Python runtime the sources rely on *)
Module Py.

(** Exceptions that the modelled statements can raise. *)
Inductive exn : Type :=
| IndexError          (* sequence index out of range *)
| TypeError           (* unpacking / subscripting / arithmetic on [None] *)
| OperationalError.   (* sqlite3: malformed statement *)

(** The result of running a statement.  [OutOfFuel] is the only outcome
    that is not a Python one: it marks a [while] loop that was cut off by
    the fuel of the model. *)
Inductive outcome (A : Type) : Type :=
| Ok (a : A)
| Raise (e : exn)
| OutOfFuel.
Arguments Ok {A} a.
Arguments Raise {A} e.
Arguments OutOfFuel {A}.

(** Methods of an object whose attributes are [S]. *)
Definition M (S A : Type) : Type := S -> outcome A * S.

Definition ret {S A} (a : A) : M S A := fun s => (Ok a, s).

Definition bind {S A B} (m : M S A) (k : A -> M S B) : M S B :=
  fun s =>
    match m s with
    | (Ok a, s') => k a s'
    | (Raise e, s') => (Raise e, s')
    | (OutOfFuel, s') => (OutOfFuel, s')
    end.

Definition raise {S A} (e : exn) : M S A := fun s => (Raise e, s).
Definition get {S} : M S S := fun s => (Ok s, s).
Definition modify {S} (f : S -> S) : M S unit := fun s => (Ok tt, f s).
Definition lift {S A} (o : outcome A) : M S A := fun s => (o, s).

(** Attributes after running a method, and what it returned. *)
Definition exec {S A} (m : M S A) (s : S) : S := snd (m s).
Definition eval {S A} (m : M S A) (s : S) : outcome A := fst (m s).

(** [seq[i]]: negative indices count from the end, anything outside
    [-len, len) raises [IndexError]. *)
Definition getitem {A} (l : list A) (i : Z) : outcome A :=
  let n := Z.of_nat (length l) in
  let j := if (i <? 0)%Z then (i + n)%Z else i in
  if ((0 <=? j) && (j <? n))%Z then
    match l !! Z.to_nat j with
    | Some x => Ok x
    | None => Raise IndexError
    end
  else Raise IndexError.

(** [seq[i] = x] with the same index rule. *)
Definition setitem {A} (l : list A) (i : Z) (x : A) : outcome (list A) :=
  let n := Z.of_nat (length l) in
  let j := if (i <? 0)%Z then (i + n)%Z else i in
  if ((0 <=? j) && (j <? n))%Z then Ok (<[Z.to_nat j := x]> l)
  else Raise IndexError.

(** [seq.index(x)]: position of the first element equal to [x]; [None]
    stands for the [ValueError] of an absent element. *)
Fixpoint index {A} `{EqDecision A} (l : list A) (x : A) : option Z :=
  match l with
  | [] => None
  | y :: l' => if decide (y = x) then Some 0%Z else Z.succ <$> index l' x
  end.

(** [len(seq)] *)
Definition len {A} (l : list A) : Z := Z.of_nat (length l).

(** [str(n)] for an int. *)
Definition str (n : Z) : string := NilZero.string_of_int (Z.to_int n).

(** [f"{n:02d}"]: at least two characters, padded with a zero. *)
Definition fmt_02d (n : Z) : string :=
  if ((0 <=? n) && (n <? 10))%Z then "0" +:+ str n else str n.

(** [sep.join(l)] for the empty separator. *)
Definition join (l : list string) : string := String.concat EmptyString l.

(** [s.replace(c, empty)] for a one-character [c]. *)
Fixpoint remove_char (c : ascii) (s : string) : string :=
  match s with
  | EmptyString => EmptyString
  | String a s' =>
      if Ascii.eqb a c then remove_char c s' else String a (remove_char c s')
  end.

(** [list(s)]: the one-character strings of [s]. *)
Fixpoint chars (s : string) : list string :=
  match s with
  | EmptyString => []
  | String a s' => String a EmptyString :: chars s'
  end.

(** [s.strip()[0]] when only blanks surround the text: the first
    character that is not a blank. *)
Fixpoint strip_first (s : string) : outcome string :=
  match s with
  | EmptyString => Raise IndexError
  | String a s' =>
      if Ascii.eqb a " "%char then strip_first s'
      else Ok (String a EmptyString)
  end.

(** *** Floats

    [floor(log2(q))] of a positive rational: the exponent of its leading
    bit. *)
Definition floor_log2 (q : Q) : Z :=
  let c := (Z.log2 (Qnum q) - Z.log2 (Zpos (Qden q)))%Z in
  if Qle_bool (2 ^ c) q then c else (c - 1)%Z.

(** The nearest integer, a tie going to the even one. *)
Definition round_half_even (t : Q) : Z :=
  let f := Qfloor t in
  match (t - inject_Z f ?= 1 # 2)%Q with
  | Lt => f
  | Gt => (f + 1)%Z
  | Eq => if Z.even f then f else (f + 1)%Z
  end.

(** A positive rational rounded to 53 significant bits: a multiple of
    [2 ^ e] for [e] the exponent of its last kept bit. *)
Definition round_positive (q : Q) : Q :=
  let e := (floor_log2 q - 52)%Z in
  (inject_Z (round_half_even (q / 2 ^ e)) * 2 ^ e)%Q.

(** The binary64 value nearest to [q], ties to even. *)
Definition round64 (q : Q) : Q :=
  match (q ?= 0)%Q with
  | Gt => round_positive q
  | Lt => (- round_positive (- q))%Q
  | Eq => 0%Q
  end.

(** [x + y] and [x - y] on floats. *)
Definition fadd (x y : Q) : Q := round64 (x + y).
Definition fsub (x y : Q) : Q := round64 (x - y).

(** The integer part of a quotient, rounded towards zero. *)
Definition trunc (t : Q) : Z := if Qle_bool 0 t then Qfloor t else Qceiling t.

(** C's [fmod(x, m)], which is exact: [x - m * trunc(x / m)], a remainder
    with the sign of [x]. *)
Definition fmod (x m : Q) : Q := (x - m * inject_Z (trunc (x / m)))%Q.

(** [x % m] on floats, for [m] other than zero: CPython takes [fmod(x, m)]
    and, when that remainder is not zero and its sign differs from the
    sign of [m], adds [m] to it; this addition is a float addition, and
    rounds. *)
Definition mod_ (x m : Q) : Q :=
  let r := fmod x m in
  if Qeq_bool r 0 then 0%Q
  else if xorb (negb (Qle_bool 0 m)) (negb (Qle_bool 0 r)) then fadd r m
  else r.

(** Truth value of a float-or-[None]: [None] and zero are false. *)
Definition truthy (v : option Q) : bool :=
  match v with
  | None => false
  | Some q => negb (Qeq_bool q 0)
  end.

(** The float operations are unfolded last when terms are compared. *)
Strategy 100 [floor_log2 round_half_even round_positive round64 fadd fsub
              trunc fmod mod_].

Arguments round64 : simpl never.
Arguments fadd : simpl never.
Arguments fsub : simpl never.
Arguments mod_ : simpl never.
Arguments getitem : simpl never.
Arguments setitem : simpl never.
Arguments str : simpl never.
Arguments fmt_02d : simpl never.

End Py.

Import Py.

Declare Scope py_scope.
Delimit Scope py_scope with py.
Notation "x <- m ;; k" := (bind m (fun x => k))
  (at level 100, m at next level, right associativity) : py_scope.
Notation "m ;;; k" := (bind m (fun _ => k))
  (at level 100, right associativity) : py_scope.

Local Open Scope py_scope.

(** ** [python/PiFinder/ui/locate.py]: class [UILocate] *)
Module Locate.

(** The dicts published by the positioning process
    ([shared_state.location()], [shared_state.solution()]). *)
Record Location : Type := { lat : Q; lon : Q; altitude : Q }.
Record Solution : Type := { Az : option Q; Alt : option Q }.

(** What is read from a catalog object (a dict): equality ([==]), the
    coordinates ["ra"], ["dec"], the title [catalog + str(sequence)] and
    the type line [f"{object_type: <14} {const}"] (which goes through the
    imported table [OBJ_TYPES]). *)
Class CatalogObject (Obj : Type) : Type := {
  obj_eq_dec :: EqDecision Obj;
  ra : Obj -> Q;
  dec : Obj -> Q;
  title : Obj -> string;
  type_line : Obj -> string
}.

(** The astrometry collaborator, [integrator.Skyfield_utils]:
    [set_location(lat, lon, altitude)] followed by
    [radec_to_altaz(ra, dec, dt)], which returns [(alt, az)]. *)
Class Astrometry (DateTime : Type) : Type := {
  radec_to_altaz : Location -> Q -> Q -> DateTime -> Q * Q
}.

(** What the screen shows under the title and id lines. *)
Inductive Pointing : Type :=
| NoFix                                     (* " ---.-" over "  --.-" *)
| Numbers (az_rotation : Z) (az : Q) (alt_rotation : Z) (alt : Q).

Inductive Frame : Type :=
| NoTargetSet
| TargetFrame (name : string) (index_line : option (Z * Z * string))
              (id_line : string) (pointing : Pointing).

(** The normalisation of a difference of angles, as the specification
    names it: the expression [(x + 180) % 360 - 180] of lines 172 and 175
    of locate.py, on floats. *)
Definition normalize_signed_180 (x : Q) : Q :=
  fsub (mod_ (fadd x 180) 360) 180.

(** A snapshot of [self.shared_state]; [None] stands for any false value
    ([None], an empty dict). *)
Record SharedState (DateTime : Type) : Type := {
  solution : option Solution;
  location : option Location;
  datetime : option DateTime
}.
Arguments Build_SharedState {DateTime}.
Arguments solution {DateTime}.
Arguments location {DateTime}.
Arguments datetime {DateTime}.

(** The dict returned by [obslist.read_list]. *)
Record ReadResult (Obj : Type) : Type := {
  result : string;
  message_ : string;
  catalog : list Obj;
  objects_parsed : Z
}.
Arguments Build_ReadResult {Obj}.
Arguments result {Obj}.
Arguments message_ {Obj}.
Arguments catalog {Obj}.
Arguments objects_parsed {Obj}.

(** [self.ui_state].  No method of this class mutates a list in place
    (lists are only rebound), so the lists are held by value. *)
Record UIState (Obj : Type) : Type := {
  active_list : list Obj;
  history_list : list Obj;
  observing_list : list Obj;
  target : option Obj
}.
Arguments Build_UIState {Obj}.
Arguments active_list {Obj}.
Arguments history_list {Obj}.
Arguments observing_list {Obj}.
Arguments target {Obj}.

(** The attributes of a [UILocate], together with the traffic to its
    collaborators: [messages] logs [self.message], [written] logs
    [obslist.write_list], [display] is the last frame handed to
    [self.display.display]. *)
Record UILocate (Obj : Type) : Type := {
  ui_state : UIState Obj;
  target_index : option Z;
  object_text : list string;
  self_target : option Obj;
  load_value : string;             (* _config_options["Load"]["value"] *)
  obs_list_write_index : Z;
  switch_to : option string;
  uuid : string;                   (* self.__uuid__ *)
  ss_count : Z;                    (* self.ss_count *)
  messages : list string;
  written : list (list Obj * string);
  display : option Frame
}.
Arguments Build_UILocate {Obj}.
Arguments ui_state {Obj}.
Arguments target_index {Obj}.
Arguments object_text {Obj}.
Arguments self_target {Obj}.
Arguments load_value {Obj}.
Arguments obs_list_write_index {Obj}.
Arguments switch_to {Obj}.
Arguments uuid {Obj}.
Arguments ss_count {Obj}.
Arguments messages {Obj}.
Arguments written {Obj}.
Arguments display {Obj}.

(** The calls the host makes on a [UILocate]: the key handlers, the two
    menu callbacks and [active] on (re-)entering the screen. *)
Inductive Op (Obj DateTime : Type) : Type :=
| OpKeyB
| OpKeyUp (shared_state : SharedState DateTime)
| OpKeyDown (shared_state : SharedState DateTime)
| OpKeyEnter
| OpActive (shared_state : SharedState DateTime)
| OpLoad (read_list : string -> ReadResult Obj) (option : string)
| OpSave (option : string).
Arguments OpKeyB {Obj DateTime}.
Arguments OpKeyUp {Obj DateTime}.
Arguments OpKeyDown {Obj DateTime}.
Arguments OpKeyEnter {Obj DateTime}.
Arguments OpActive {Obj DateTime}.
Arguments OpLoad {Obj DateTime}.
Arguments OpSave {Obj DateTime}.

Section UILocate.
Context {Obj DateTime : Type}.
Context `{!CatalogObject Obj} `{!Astrometry DateTime}.

Abbreviation UILocate := (UILocate Obj).
Abbreviation UIState := (UIState Obj).
Abbreviation SharedState := (SharedState DateTime).
Abbreviation ReadResult := (ReadResult Obj).

Definition set_ui_state (f : UIState -> UIState) (self : UILocate) : UILocate :=
  {| ui_state := f (ui_state self); target_index := target_index self;
     object_text := object_text self; self_target := self_target self;
     load_value := load_value self;
     obs_list_write_index := obs_list_write_index self;
     switch_to := switch_to self; uuid := uuid self; ss_count := ss_count self;
     messages := messages self; written := written self;
     display := display self |}.

Definition set_active_list (l : list Obj) : UILocate -> UILocate :=
  set_ui_state (fun u =>
    {| active_list := l; history_list := history_list u;
       observing_list := observing_list u; target := target u |}).

Definition set_observing_list (l : list Obj) : UILocate -> UILocate :=
  set_ui_state (fun u =>
    {| active_list := active_list u; history_list := history_list u;
       observing_list := l; target := target u |}).

Definition set_target (t : option Obj) : UILocate -> UILocate :=
  set_ui_state (fun u =>
    {| active_list := active_list u; history_list := history_list u;
       observing_list := observing_list u; target := t |}).

Definition set_target_index (i : option Z) (self : UILocate) : UILocate :=
  {| ui_state := ui_state self; target_index := i;
     object_text := object_text self; self_target := self_target self;
     load_value := load_value self;
     obs_list_write_index := obs_list_write_index self;
     switch_to := switch_to self; uuid := uuid self; ss_count := ss_count self;
     messages := messages self; written := written self;
     display := display self |}.

Definition set_object_text (t : list string) (self : UILocate) : UILocate :=
  {| ui_state := ui_state self; target_index := target_index self;
     object_text := t; self_target := self_target self;
     load_value := load_value self;
     obs_list_write_index := obs_list_write_index self;
     switch_to := switch_to self; uuid := uuid self; ss_count := ss_count self;
     messages := messages self; written := written self;
     display := display self |}.

Definition set_self_target (t : option Obj) (self : UILocate) : UILocate :=
  {| ui_state := ui_state self; target_index := target_index self;
     object_text := object_text self; self_target := t;
     load_value := load_value self;
     obs_list_write_index := obs_list_write_index self;
     switch_to := switch_to self; uuid := uuid self; ss_count := ss_count self;
     messages := messages self; written := written self;
     display := display self |}.

Definition set_load_value (v : string) (self : UILocate) : UILocate :=
  {| ui_state := ui_state self; target_index := target_index self;
     object_text := object_text self; self_target := self_target self;
     load_value := v;
     obs_list_write_index := obs_list_write_index self;
     switch_to := switch_to self; uuid := uuid self; ss_count := ss_count self;
     messages := messages self; written := written self;
     display := display self |}.

Definition set_obs_list_write_index (n : Z) (self : UILocate) : UILocate :=
  {| ui_state := ui_state self; target_index := target_index self;
     object_text := object_text self; self_target := self_target self;
     load_value := load_value self;
     obs_list_write_index := n;
     switch_to := switch_to self; uuid := uuid self; ss_count := ss_count self;
     messages := messages self; written := written self;
     display := display self |}.

Definition set_switch_to (v : option string) (self : UILocate) : UILocate :=
  {| ui_state := ui_state self; target_index := target_index self;
     object_text := object_text self; self_target := self_target self;
     load_value := load_value self;
     obs_list_write_index := obs_list_write_index self;
     switch_to := v; uuid := uuid self; ss_count := ss_count self;
     messages := messages self; written := written self;
     display := display self |}.

(** [self.message(text)]: the text is queued for the user. *)
Definition message (text : string) : M UILocate unit :=
  modify (fun self =>
    {| ui_state := ui_state self; target_index := target_index self;
       object_text := object_text self; self_target := self_target self;
       load_value := load_value self;
       obs_list_write_index := obs_list_write_index self;
       switch_to := switch_to self; uuid := uuid self; ss_count := ss_count self;
       messages := messages self ++ [text]; written := written self;
       display := display self |}).

(** [obslist.write_list(l, filename)] *)
Definition write_list (l : list Obj) (filename : string) : M UILocate unit :=
  modify (fun self =>
    {| ui_state := ui_state self; target_index := target_index self;
       object_text := object_text self; self_target := self_target self;
       load_value := load_value self;
       obs_list_write_index := obs_list_write_index self;
       switch_to := switch_to self; uuid := uuid self; ss_count := ss_count self;
       messages := messages self; written := written self ++ [(l, filename)];
       display := display self |}).

(** Modelled from the spec: [screen_update] is inherited from the class
    [UIModule] of [PiFinder.ui.base], which is not among the sources.  The
    specification has every update hand a rendered frame to the display
    and return an optional signal to switch to another screen; the model
    does that and nothing more: the frame goes to [display], the pending
    [switch_to] is returned, and no attribute is changed besides. *)
Definition screen_update (f : Frame) : M UILocate (option string) :=
  self <- get ;;
  modify (fun self =>
    {| ui_state := ui_state self; target_index := target_index self;
       object_text := object_text self; self_target := self_target self;
       load_value := load_value self;
       obs_list_write_index := obs_list_write_index self;
       switch_to := switch_to self; uuid := uuid self; ss_count := ss_count self;
       messages := messages self; written := written self;
       display := Some f |}) ;;;
  ret (switch_to self).

(** [d[key]] where [d] may be [None]. *)
Definition subscript {A} (d : option A) : M UILocate A :=
  match d with
  | Some a => ret a
  | None => raise TypeError
  end.

(** locate.py, lines 55-71 *)
Definition save_list (option : string) : M UILocate bool :=
  modify (set_load_value EmptyString) ;;;
  if decide (option = "CANCEL") then ret false else
  self <- get ;;
  if (len (active_list (ui_state self)) =? 0)%Z then
    message "No objects" ;;; ret false
  else
    let filename :=
      uuid self +:+ "_" +:+ option +:+ "_" +:+ fmt_02d (ss_count self) in
    (if decide (option = "History") then
       write_list (history_list (ui_state self)) filename
     else
       write_list (observing_list (ui_state self)) filename) ;;;
    modify (fun self =>
      set_obs_list_write_index (obs_list_write_index self + 1) self) ;;;
    message ("Saved list - " +:+ fmt_02d (ss_count self)) ;;;
    ret true.

(** locate.py, lines 131-147 *)
Definition update_object_text : M UILocate unit :=
  self <- get ;;
  match target (ui_state self) with
  | None => modify (set_object_text ["No Object Found"])
  | Some t => modify (set_object_text [type_line t])
  end.

(** locate.py, lines 73-94; [read_list] is [obslist.read_list] at the
    time of the call. *)
Definition load_list (read_list : string -> ReadResult) (option : string)
  : M UILocate bool :=
  modify (set_load_value EmptyString) ;;;
  if decide (option = "CANCEL") then ret false else
  let _load_results := read_list option in
  if decide (result _load_results = "error") then
    message ("Err! " +:+ message_ _load_results) ;;; ret false
  else
    let object_count := len (catalog _load_results) in
    if (object_count =? 0)%Z then
      message "No matches" ;;; ret false
    else
      modify (set_observing_list (catalog _load_results)) ;;;
      modify (fun self =>
        set_active_list (observing_list (ui_state self)) self) ;;;
      modify (set_target_index (Some 0%Z)) ;;;
      self <- get ;;
      t <- lift (getitem (active_list (ui_state self)) 0) ;;
      modify (set_target (Some t)) ;;;
      update_object_text ;;;
      message ("Loaded " +:+ str object_count +:+ " of "
               +:+ str (objects_parsed _load_results)) ;;;
      ret true.

(** locate.py, lines 96-116 *)
Definition key_b : M UILocate unit :=
  modify (set_target_index None) ;;;
  self <- get ;;
  (if decide (active_list (ui_state self) = history_list (ui_state self)) then
     if (0 <? len (observing_list (ui_state self)))%Z then
       modify (set_active_list (observing_list (ui_state self))) ;;;
       modify (set_target_index (Some 0%Z))
     else
       message "No Obs List"
   else
     if (0 <? len (history_list (ui_state self)))%Z then
       modify (set_active_list (history_list (ui_state self))) ;;;
       modify (fun self =>
         set_target_index
           (Some (len (active_list (ui_state self)) - 1)%Z) self)
     else
       message "No History") ;;;
  self <- get ;;
  match target_index self with
  | Some i =>
      t <- lift (getitem (active_list (ui_state self)) i) ;;
      modify (set_target (Some t)) ;;;
      update_object_text
  | None => ret tt
  end.

(** locate.py, lines 118-123 *)
Definition key_enter : M UILocate unit :=
  modify (set_switch_to (Some "UICatalog")).

(** A float operand that may be [None]. *)
Definition number (v : option Q) : M UILocate Q :=
  match v with
  | Some q => ret q
  | None => raise TypeError
  end.

(** locate.py, lines 149-179.  The value is [None] (the function falls
    off its end), or a pair whose components are floats or [None]. *)
Definition aim_degrees (shared_state : SharedState)
  : M UILocate (option (option Q * option Q)) :=
  let solution := solution shared_state in
  let location := location shared_state in
  let dt := datetime shared_state in
  match location, dt, solution with
  | Some location, Some dt, Some solution =>
      if truthy (Alt solution) then
        self <- get ;;
        tgt <- subscript (target (ui_state self)) ;;
        let '(target_alt, target_az) :=
          radec_to_altaz location (ra tgt) (dec tgt) dt in
        obs_az <- number (Az solution) ;;
        let az_diff := fsub target_az obs_az in
        let az_diff := fsub (mod_ (fadd az_diff 180) 360) 180 in
        obs_alt <- number (Alt solution) ;;
        let alt_diff := fsub target_alt obs_alt in
        let alt_diff := fsub (mod_ (fadd alt_diff 180) 360) 180 in
        ret (Some (Some az_diff, Some alt_diff))
      else ret None
  | _, _, _ => ret (Some (None, None))
  end.

(** [a, b = v]: unpacking [None] raises. *)
Definition unpack2 {A B} (v : option (A * B)) : M UILocate (A * B) :=
  match v with
  | Some p => ret p
  | None => raise TypeError
  end.

(** locate.py, lines 191-250.  Only what is drawn is kept, not where and
    in which font. *)
Definition update (shared_state : SharedState) : M UILocate (option string) :=
  self <- get ;;
  match target (ui_state self) with
  | None => screen_update NoTargetSet
  | Some tgt =>
      let line := title tgt in
      let index_line :=
        match target_index self with
        | Some i =>
            let list_name :=
              if decide (active_list (ui_state self)
                         = history_list (ui_state self))
              then "Hist" else "Obsv" in
            Some ((i + 1)%Z, len (active_list (ui_state self)), list_name)
        | None => None
        end in
      id_line <- lift (getitem (object_text self) 0) ;;
      aim <- aim_degrees shared_state ;;
      pair <- unpack2 aim ;;
      let '(point_az, point_alt) := pair in
      (if negb (truthy point_az) then
         screen_update (TargetFrame line index_line id_line NoFix)
       else
         az <- number point_az ;;
         let '(az_rotation, az) :=
           if Qle_bool 0 az then (90%Z, az) else (270%Z, (az * -1)%Q) in
         alt <- number point_alt ;;
         let '(alt_rotation, alt) :=
           if Qle_bool 0 alt then (0%Z, alt) else (180%Z, (alt * -1)%Q) in
         screen_update
           (TargetFrame line index_line id_line
              (Numbers az_rotation az alt_rotation alt)))
  end.

(** locate.py, lines 181-189 *)
Definition active (shared_state : SharedState) : M UILocate unit :=
  self <- get ;;
  modify (set_target_index
            (match target (ui_state self) with
             | Some t => index (active_list (ui_state self)) t
             | None => None
             end)) ;;;
  update_object_text ;;;
  _ <- update shared_state ;;
  ret tt.

(** locate.py, lines 252-264 *)
Definition scroll_target_history (shared_state : SharedState)
    (direction : Z) : M UILocate unit :=
  self <- get ;;
  match target_index self with
  | Some i =>
      let n := len (active_list (ui_state self)) in
      let i := (i + direction)%Z in
      let i := if (n <=? i)%Z then (n - 1)%Z else i in
      let i := if (i <? 0)%Z then 0%Z else i in
      modify (set_target_index (Some i)) ;;;
      t <- lift (getitem (active_list (ui_state self)) i) ;;
      modify (set_self_target (Some t)) ;;;
      modify (set_target (Some t)) ;;;
      update_object_text ;;;
      _ <- update shared_state ;;
      ret tt
  | None => ret tt
  end.

(** locate.py, lines 125-129 *)
Definition key_up (shared_state : SharedState) : M UILocate unit :=
  scroll_target_history shared_state (-1).

Definition key_down (shared_state : SharedState) : M UILocate unit :=
  scroll_target_history shared_state 1.

(** *** The screen as a transition system *)

Definition run (op : Op Obj DateTime) : M UILocate unit :=
  match op with
  | OpKeyB => key_b
  | OpKeyUp sh => key_up sh
  | OpKeyDown sh => key_down sh
  | OpKeyEnter => key_enter
  | OpActive sh => active sh
  | OpLoad read_list option => load_list read_list option ;;; ret tt
  | OpSave option => save_list option ;;; ret tt
  end.

(** The states a screen can be in after any number of calls, whether a
    call returned or raised.  While another screen is in front it can
    rebind anything in the shared [ui_state] (the catalog screen sets the
    target); the host then calls [active] on coming back. *)
Inductive reachable (init : UILocate) : UILocate -> Prop :=
| reachable_init : reachable init init
| reachable_step self op :
    reachable init self -> reachable init (exec (run op) self)
| reachable_reenter self (elsewhere : UIState -> UIState) shared_state :
    reachable init self ->
    reachable init (exec (active shared_state) (set_ui_state elsewhere self)).

(** The invariant of the specification's ActiveTargetState: a cursor
    that is set points at the shared target. *)
Definition cursor_invariant (self : UILocate) : Prop :=
  forall i, target_index self = Some i ->
    (0 <= i)%Z /\
    exists t, active_list (ui_state self) !! Z.to_nat i = Some t
              /\ target (ui_state self) = Some t.

(** The list that [key_b] tries to switch to. *)
Definition destination (self : UILocate) : list Obj :=
  if decide (active_list (ui_state self) = history_list (ui_state self))
  then observing_list (ui_state self)
  else history_list (ui_state self).

(** What the drawing methods leave alone. *)
Definition same_lists (self self' : UILocate) : Prop :=
  ui_state self' = ui_state self
  /\ target_index self' = target_index self
  /\ messages self' = messages self
  /\ written self' = written self.

(** The two tests of [scroll_target_history] (lines 255-259) on an
    index [i] of a list of length [n]. *)
Definition clamp (n i : Z) : Z :=
  let i := if (n <=? i)%Z then (n - 1)%Z else i in
  if (i <? 0)%Z then 0%Z else i.

(** The message [key_b] shows when that list is empty. *)
Definition no_such_list (self : UILocate) : string :=
  if decide (active_list (ui_state self) = history_list (ui_state self))
  then "No Obs List" else "No History".

End UILocate.

End Locate.

(** ** [python/PiFinder/uimodules.py]: class [UICatalog] *)
Module Catalog.

(** A row of the table [objects] of [pifinder_objects.db]. *)
Record Row : Type := {
  catalog : string;
  designation : Z;
  obj_type : string;
  const : string;
  ra : Q;
  dec : Q
}.

(** *** The fragment of SQL the two statements use *)

(** Modelled from the spec: the schema of the table [objects] is not part
    of the sources; the specification orders a catalog numerically by
    designation, so [designation] is an INTEGER column.  A quoted literal
    compared with such a column is converted to a number when it reads as
    one ([Some]); otherwise it stays TEXT ([None]). *)
Definition sql_numeric (text : string) : option Z :=
  if decide (text = EmptyString) then None
  else Z.of_uint <$> NilEmpty.uint_of_string text.

(** Modelled from the spec: [designation = "{text}"] on the INTEGER column;
    an INTEGER never equals a TEXT. *)
Definition sql_eq (column : Z) (text : string) : bool :=
  match sql_numeric text with
  | Some k => (column =? k)%Z
  | None => false
  end.

(** Modelled from the spec: [designation < "{text}"] on the INTEGER column;
    every INTEGER sorts before every TEXT. *)
Definition sql_lt (column : Z) (text : string) : bool :=
  match sql_numeric text with
  | Some k => (column <? k)%Z
  | None => true
  end.

(** Modelled from the spec: [designation > "{text}"] on the INTEGER
    column. *)
Definition sql_gt (column : Z) (text : string) : bool :=
  match sql_numeric text with
  | Some k => (column >? k)%Z
  | None => false
  end.

(** The comparison operator spliced into the statement of [scroll_obj];
    only ["<"] and [">"] are ever passed, and only they are given a
    meaning here. *)
Definition sql_operator (op : string) : outcome (Z -> string -> bool) :=
  if decide (op = "<") then Ok sql_lt
  else if decide (op = ">") then Ok sql_gt
  else Raise OperationalError.

(** [order by designation] / [order by designation desc] *)
Fixpoint insert_by (le : Row -> Row -> bool) (x : Row) (l : list Row)
  : list Row :=
  match l with
  | [] => [x]
  | y :: l' => if le x y then x :: l else y :: insert_by le x l'
  end.

Definition sort_by (le : Row -> Row -> bool) (l : list Row) : list Row :=
  foldr (insert_by le) [] l.

Definition order_by_designation (sort_order : string) : list Row -> list Row :=
  if decide (sort_order = "desc")
  then sort_by (fun x y => (designation y <=? designation x)%Z)
  else sort_by (fun x y => (designation x <=? designation y)%Z).

(** [cursor.fetchone()] *)
Definition fetchone (rows : list Row) : option Row := head rows.

(** [SELECT * from objects where catalog = "{catalog}" and
     designation = "{designator}"] *)
Definition select_exact (objects : list Row) (catalog_ designator_ : string)
  : list Row :=
  filter (fun r => catalog r = catalog_
                   /\ sql_eq (designation r) designator_ = true) objects.

(** [SELECT * from objects where catalog = "{catalog}" and
     designation {direction} "{designator}"
     order by designation {sort_order}] *)
Definition select_neighbor (objects : list Row)
    (catalog_ direction designator_ sort_order : string)
  : outcome (list Row) :=
  match sql_operator direction with
  | Ok cmp =>
      Ok (order_by_designation sort_order
            (filter (fun r => catalog r = catalog_
                              /\ cmp (designation r) designator_ = true)
                    objects))
  | Raise e => Raise e
  | OutOfFuel => OutOfFuel
  end.

(** [" " * n] *)
Definition spaces (n : Z) : string :=
  String.concat EmptyString (replicate (Z.to_nat n) " ").

(** [x in ["0", "-"]] *)
Definition zero_or_dash (x : string) : bool := bool_decide (x ∈ ["0"; "-"]).

Section UICatalog.
(** The imported table [obj_types.OBJ_TYPES]. *)
Variable OBJ_TYPES : string -> option string.

(** The attributes of a [UICatalog]; [conn] is the content of the table
    behind the database connection. *)
Record UICatalog : Type := {
  catalog_index : Z;
  designator : list string;
  cat_object : option Row;
  object_text : list string;
  conn : list Row
}.

Definition __catalogs : list string := ["NGC"; " IC"; "Mes"].

Definition set_catalog_index (i : Z) (self : UICatalog) : UICatalog :=
  {| catalog_index := i; designator := designator self;
     cat_object := cat_object self; object_text := object_text self;
     conn := conn self |}.

Definition set_designator (d : list string) (self : UICatalog) : UICatalog :=
  {| catalog_index := catalog_index self; designator := d;
     cat_object := cat_object self; object_text := object_text self;
     conn := conn self |}.

Definition set_cat_object (o : option Row) (self : UICatalog) : UICatalog :=
  {| catalog_index := catalog_index self; designator := designator self;
     cat_object := o; object_text := object_text self;
     conn := conn self |}.

Definition set_object_text (t : list string) (self : UICatalog) : UICatalog :=
  {| catalog_index := catalog_index self; designator := designator self;
     cat_object := cat_object self; object_text := t;
     conn := conn self |}.

(** uimodules.py, lines 228-243 *)
Definition update_object_text : M UICatalog unit :=
  self <- get ;;
  match cat_object self with
  | None => modify (set_object_text ["No Object Found"])
  | Some o =>
      let object_type := default (obj_type o) (OBJ_TYPES (obj_type o)) in
      modify (set_object_text
        [object_type
           +:+ spaces (18 - Z.of_nat (String.length object_type))
           +:+ const o;
         "This is line Two"])
  end.

(** uimodules.py, lines 262-272 *)
Definition key_d : M UICatalog unit :=
  modify (fun self => set_catalog_index (catalog_index self + 1) self) ;;;
  self <- get ;;
  (if (len __catalogs <=? catalog_index self)%Z
   then modify (set_catalog_index 0) else ret tt) ;;;
  self <- get ;;
  (if (catalog_index self =? 2)%Z
   then modify (set_designator (replicate 3 "-"))
   else modify (set_designator (replicate 4 "-"))) ;;;
  modify (set_cat_object None) ;;;
  update_object_text.

(** The [while go:] loop of [key_number] (lines 280-287), entered with
    the local [index]; one unit of fuel per iteration. *)
Fixpoint collapse_loop (fuel : nat) (index : Z) : M UICatalog unit :=
  match fuel with
  | O => lift OutOfFuel
  | S fuel =>
      self <- get ;;
      d <- lift (setitem (designator self) index "-") ;;
      modify (set_designator d) ;;;
      let index := (index + 1)%Z in
      self <- get ;;
      if (len (designator self) <=? index)%Z then ret tt
      else
        x <- lift (getitem (designator self) index) ;;
        if negb (zero_or_dash x) then ret tt
        else collapse_loop fuel index
  end.

(** The catalog letter of the statement:
    [self.__catalogs[self.catalog_index].strip()[0]] *)
Definition catalog_letter : M UICatalog string :=
  self <- get ;;
  name <- lift (getitem __catalogs (catalog_index self)) ;;
  lift (strip_first name).

(** uimodules.py, lines 274-298 *)
Definition key_number (number : Z) : M UICatalog unit :=
  modify (fun self => set_designator (drop 1 (designator self)) self) ;;;
  modify (fun self => set_designator (designator self ++ [str number]) self) ;;;
  self <- get ;;
  d0 <- lift (getitem (designator self) 0) ;;
  (if zero_or_dash d0
   then collapse_loop (length (designator self)) 0
   else ret tt) ;;;
  self <- get ;;
  let designator_ := remove_char "-" (join (designator self)) in
  catalog_ <- catalog_letter ;;
  modify (set_cat_object
            (fetchone (select_exact (conn self) catalog_ designator_))) ;;;
  update_object_text.

(** uimodules.py, lines 309-341 *)
Definition scroll_obj (direction : string) : M UICatalog unit :=
  let sort_order := if decide (direction = "<") then "desc" else EmptyString in
  self <- get ;;
  let designator_ := remove_char "-" (join (designator self)) in
  catalog_ <- catalog_letter ;;
  rows <- lift (select_neighbor (conn self) catalog_ direction
                  designator_ sort_order) ;;
  match fetchone rows with
  | Some tmp_obj =>
      modify (set_cat_object (Some tmp_obj)) ;;;
      let desig := chars (str (designation tmp_obj)) in
      let desig :=
        if (catalog_index self =? 2)%Z
        then replicate (Z.to_nat (3 - len desig)) "-" ++ desig
        else replicate (Z.to_nat (4 - len desig)) "-" ++ desig in
      modify (set_designator desig) ;;;
      update_object_text
  | None => ret tt
  end.

(** uimodules.py, lines 343-347 *)
Definition key_up : M UICatalog unit := scroll_obj "<".
Definition key_down : M UICatalog unit := scroll_obj ">".

End UICatalog.

(** The catalog letter as a function of [catalog_index]. *)
Definition letter_of (i : Z) : outcome string :=
  match getitem __catalogs i with
  | Ok name => strip_first name
  | Raise e => Raise e
  | OutOfFuel => OutOfFuel
  end.

(** Where [scroll_obj] leaves the screen when a row was fetched, before
    the object text is refreshed. *)
Definition adopted (r : Row) (self : UICatalog) : UICatalog :=
  let desig := chars (str (designation r)) in
  set_designator
    (if (catalog_index self =? 2)%Z
     then replicate (Z.to_nat (3 - len desig)) "-" ++ desig
     else replicate (Z.to_nat (4 - len desig)) "-" ++ desig)
    (set_cat_object (Some r) self).

(** *** The designator as the specification words it (section 4.1) *)

(** Shift all slots left by one, dropping the oldest, and append the
    digit at the rightmost slot. *)
Definition shift_append (buffer : list string) (d : Z) : list string :=
  drop 1 buffer ++ [str d].

(** Replace the maximal leading run of slots holding ["0"] or ["-"] by the
    placeholder, stopping at the first slot that holds anything else. *)
Fixpoint collapse_leading (buffer : list string) : list string :=
  match buffer with
  | [] => []
  | x :: rest =>
      if zero_or_dash x then "-" :: collapse_leading rest else x :: rest
  end.

Definition push_digit (buffer : list string) (d : Z) : list string :=
  collapse_leading (shift_append buffer d).

(** The buffer with its placeholders stripped. *)
Definition current_key (buffer : list string) : string :=
  remove_char "-" (join buffer).

(** The specification's neighbour: among the rows of one catalog, a row
    whose designation is the least of those above [k] ... *)
Definition smallest_above (objects : list Row) (code : string) (k : Z)
    (r : Row) : Prop :=
  r ∈ objects /\ catalog r = code /\ (k < designation r)%Z /\
  forall r', r' ∈ objects -> catalog r' = code -> (k < designation r')%Z ->
             (designation r <= designation r')%Z.

(** ... or the greatest of those below [k]. *)
Definition largest_below (objects : list Row) (code : string) (k : Z)
    (r : Row) : Prop :=
  r ∈ objects /\ catalog r = code /\ (designation r < k)%Z /\
  forall r', r' ∈ objects -> catalog r' = code -> (designation r' < k)%Z ->
             (designation r' <= designation r)%Z.

End Catalog.


(** ** Concrete collaborators, to run the methods on actual values *)
Module Sample.

(** A catalog object with the keys that locate.py reads. *)
Record Object : Type := {
  catalog : string;
  sequence : Z;
  obj_type : string;
  const : string;
  ra : Q;
  dec : Q
}.

#[global] Instance Q_eq_dec : EqDecision Q.
Proof. solve_decision. Defined.

#[global] Instance Object_eq_dec : EqDecision Object.
Proof. solve_decision. Defined.

(** [f"{s: <14}"] *)
Definition ljust14 (s : string) : string :=
  s +:+ Catalog.spaces (14 - Z.of_nat (String.length s)).

(** An empty [OBJ_TYPES] table: every type code is shown as it is. *)
#[global] Instance Object_catalog_object : Locate.CatalogObject Object := {|
  Locate.ra := ra;
  Locate.dec := dec;
  Locate.title := fun o => catalog o +:+ str (sequence o);
  Locate.type_line := fun o => ljust14 (obj_type o) +:+ " " +:+ const o
|}.

(** A stand-in for Skyfield: a sky in which the altitude of an object is
    its declination and its azimuth is its right ascension, at every
    place and time (timestamps are integers). *)
#[global] Instance flat_sky : Locate.Astrometry Z := {|
  Locate.radec_to_altaz := fun _ ra dec _ => (dec, ra)
|}.

Definition object (n : Z) (ra dec : Q) : Object :=
  {| catalog := "NGC"; sequence := n; obj_type := "Gx"; const := "And";
     ra := ra; dec := dec |}.

Definition m31 : Object := object 224 (1 # 1) (15 # 1).
Definition m33 : Object := object 598 (2 # 1) (30 # 1).
Definition m42 : Object := object 1976 (359 # 1) (-5 # 1).

(** A screen as [__init__] leaves it, over the given lists. *)
Definition screen (active history observing : list Object)
    (target : option Object) : Locate.UILocate Object :=
  {| Locate.ui_state :=
       {| Locate.active_list := active; Locate.history_list := history;
          Locate.observing_list := observing; Locate.target := target |};
     Locate.target_index := None;
     Locate.object_text := ["No Object Found"];
     Locate.self_target := None;
     Locate.load_value := EmptyString;
     Locate.obs_list_write_index := 0;
     Locate.switch_to := None;
     Locate.uuid := "LOC";
     Locate.ss_count := 3;
     Locate.messages := [];
     Locate.written := [];
     Locate.display := None |}.

Definition here : Locate.Location :=
  {| Locate.lat := 34 # 1; Locate.lon := -118 # 1; Locate.altitude := 100 # 1 |}.

Definition fix_ (az alt : option Q) : Locate.SharedState Z :=
  {| Locate.solution := Some {| Locate.Az := az; Locate.Alt := alt |};
     Locate.location := Some here;
     Locate.datetime := Some 1668477600%Z |}.

Definition no_fix : Locate.SharedState Z :=
  {| Locate.solution := None; Locate.location := None;
     Locate.datetime := None |}.

(** The catalog of the specification's end-to-end example: designations
    1, 5 and 9 under code N. *)
Definition ngc (n : Z) : Catalog.Row :=
  {| Catalog.catalog := "N"; Catalog.designation := n;
     Catalog.obj_type := "Gx"; Catalog.const := "And";
     Catalog.ra := 0; Catalog.dec := 0 |}.

Definition search (buffer : list string) (objects : list Catalog.Row)
  : Catalog.UICatalog :=
  {| Catalog.catalog_index := 0; Catalog.designator := buffer;
     Catalog.cat_object := None;
     Catalog.object_text := ["No Object Found"];
     Catalog.conn := objects |}.

Definition no_types : string -> option string := fun _ => None.

End Sample.

(** ** Notions used by the further properties of the catalog screen *)
Module Buffer.

(** A designator that reads as a right-aligned number: placeholders only
    in a leading block, and the first slot after the block holds neither a
    zero nor a placeholder. *)
Definition right_aligned (buffer : list string) : Prop :=
  exists (k : nat) (rest : list string),
    buffer = replicate k "-" ++ rest
    /\ Forall (fun x => x <> "-") rest
    /\ forall x, head rest = Some x -> Catalog.zero_or_dash x = false.

(** The number of slots [key_d] and [scroll_obj] give the designator of
    the catalog at [catalog_index]: three for the third catalog (Messier),
    four otherwise. *)
Definition width (catalog_index : Z) : nat :=
  if (catalog_index =? 2)%Z then 3%nat else 4%nat.

End Buffer.

(** ** [python/PiFinder/uimodules.py]: class [UIConsole] *)
Module Console.

(** [seq[start:]]: a negative start counts from the end, and a start
    outside the sequence is clipped to it. *)
Definition slice_from {A} (l : list A) (start : Z) : list A :=
  let n := len l in
  let start := if (start <? 0)%Z then Z.max 0 (start + n) else Z.min start n in
  drop (Z.to_nat start) l.

(** [seq[:stop]] with the same rule. *)
Definition slice_to {A} (l : list A) (stop : Z) : list A :=
  let n := len l in
  let stop := if (stop <? 0)%Z then Z.max 0 (stop + n) else Z.min stop n in
  take (Z.to_nat stop) l.

(** [str(b)] for a bool. *)
Definition str_bool (b : bool) : string := if b then "True" else "False".

(** [datetime.datetime(year, month, day, hour, minute, second)] *)
Record DateTime : Type := {
  year : Z; month : Z; day : Z; hour : Z; minute : Z; second : Z
}.

(** The attributes of a [UIConsole], with the traffic to its
    collaborators: the two command queues, the datetime it last set on
    the shared state, what it printed, and the last frame handed to the
    display (title bar and text rows). *)
Record UIConsole : Type := {
  title : string;
  switch_to : option string;
  dirty : bool;
  lines : list string;
  scroll_offset : Z;
  debug_mode : bool;
  camera_queue : list string;       (* command_queues["camera"].put *)
  console_queue : list string;      (* command_queues["console"].put *)
  shared_datetime : option DateTime; (* shared_state.set_datetime *)
  stdout : list string;             (* print *)
  display : option (string * list string)
}.

(** uimodules.py, lines 417-422 *)
Definition init : UIConsole :=
  {| title := "CONSOLE"; switch_to := None; dirty := true;
     lines := ["---- TOP ---"]; scroll_offset := 0; debug_mode := false;
     camera_queue := []; console_queue := []; shared_datetime := None;
     stdout := []; display := None |}.

Definition set_dirty (b : bool) (self : UIConsole) : UIConsole :=
  {| title := title self; switch_to := switch_to self; dirty := b;
     lines := lines self; scroll_offset := scroll_offset self;
     debug_mode := debug_mode self; camera_queue := camera_queue self;
     console_queue := console_queue self;
     shared_datetime := shared_datetime self; stdout := stdout self;
     display := display self |}.

Definition set_lines (l : list string) (self : UIConsole) : UIConsole :=
  {| title := title self; switch_to := switch_to self; dirty := dirty self;
     lines := l; scroll_offset := scroll_offset self;
     debug_mode := debug_mode self; camera_queue := camera_queue self;
     console_queue := console_queue self;
     shared_datetime := shared_datetime self; stdout := stdout self;
     display := display self |}.

Definition set_scroll_offset (n : Z) (self : UIConsole) : UIConsole :=
  {| title := title self; switch_to := switch_to self; dirty := dirty self;
     lines := lines self; scroll_offset := n;
     debug_mode := debug_mode self; camera_queue := camera_queue self;
     console_queue := console_queue self;
     shared_datetime := shared_datetime self; stdout := stdout self;
     display := display self |}.

Definition set_debug_mode (b : bool) (self : UIConsole) : UIConsole :=
  {| title := title self; switch_to := switch_to self; dirty := dirty self;
     lines := lines self; scroll_offset := scroll_offset self;
     debug_mode := b; camera_queue := camera_queue self;
     console_queue := console_queue self;
     shared_datetime := shared_datetime self; stdout := stdout self;
     display := display self |}.

(** [self.command_queues["camera"].put(command)] *)
Definition camera_put (command : string) : M UIConsole unit :=
  modify (fun self =>
    {| title := title self; switch_to := switch_to self; dirty := dirty self;
       lines := lines self; scroll_offset := scroll_offset self;
       debug_mode := debug_mode self;
       camera_queue := camera_queue self ++ [command];
       console_queue := console_queue self;
       shared_datetime := shared_datetime self; stdout := stdout self;
       display := display self |}).

(** [self.command_queues["console"].put(text)] *)
Definition console_put (text : string) : M UIConsole unit :=
  modify (fun self =>
    {| title := title self; switch_to := switch_to self; dirty := dirty self;
       lines := lines self; scroll_offset := scroll_offset self;
       debug_mode := debug_mode self; camera_queue := camera_queue self;
       console_queue := console_queue self ++ [text];
       shared_datetime := shared_datetime self; stdout := stdout self;
       display := display self |}).

(** [self.shared_state.set_datetime(dt)] *)
Definition set_datetime (dt : DateTime) : M UIConsole unit :=
  modify (fun self =>
    {| title := title self; switch_to := switch_to self; dirty := dirty self;
       lines := lines self; scroll_offset := scroll_offset self;
       debug_mode := debug_mode self; camera_queue := camera_queue self;
       console_queue := console_queue self;
       shared_datetime := Some dt; stdout := stdout self;
       display := display self |}).

(** [print(text)] *)
Definition print (text : string) : M UIConsole unit :=
  modify (fun self =>
    {| title := title self; switch_to := switch_to self; dirty := dirty self;
       lines := lines self; scroll_offset := scroll_offset self;
       debug_mode := debug_mode self; camera_queue := camera_queue self;
       console_queue := console_queue self;
       shared_datetime := shared_datetime self;
       stdout := stdout self ++ [text];
       display := display self |}).

(** [UIModule.screen_update] (lines 60-75): draw the title bar, hand the
    screen to the display, return and clear [switch_to]. *)
Definition screen_update (rows : list string) : M UIConsole (option string) :=
  self <- get ;;
  modify (fun self =>
    {| title := title self; switch_to := None; dirty := dirty self;
       lines := lines self; scroll_offset := scroll_offset self;
       debug_mode := debug_mode self; camera_queue := camera_queue self;
       console_queue := console_queue self;
       shared_datetime := shared_datetime self; stdout := stdout self;
       display := Some (title self, rows) |}) ;;;
  ret (switch_to self).

(** uimodules.py, lines 427-436 *)
Definition key_number (number : Z) : M UIConsole unit :=
  (if (number =? 0)%Z then
     camera_put "debug" ;;;
     self <- get ;;
     (if debug_mode self
      then modify (set_debug_mode false)
      else modify (set_debug_mode true)) ;;;
     self <- get ;;
     console_put ("Debug: " +:+ str_bool (debug_mode self))
   else ret tt) ;;;
  let dt := {| year := 2022; month := 11; day := 15;
               hour := 2; minute := 0; second := 0 |} in
  set_datetime dt.

(** uimodules.py, lines 438-441 *)
Definition key_enter : M UIConsole unit :=
  modify (set_scroll_offset 0) ;;;
  modify (set_dirty true).

(** uimodules.py, lines 443-445 *)
Definition key_up : M UIConsole unit :=
  modify (fun self => set_scroll_offset (scroll_offset self + 1) self) ;;;
  modify (set_dirty true).

(** uimodules.py, lines 447-451 *)
Definition key_down : M UIConsole unit :=
  modify (fun self => set_scroll_offset (scroll_offset self - 1) self) ;;;
  self <- get ;;
  (if (scroll_offset self <? 0)%Z
   then modify (set_scroll_offset 0) else ret tt) ;;;
  modify (set_dirty true).

(** uimodules.py, lines 453-461 *)
Definition write (line : string) : M UIConsole unit :=
  print ("Write: " +:+ line) ;;;
  modify (fun self => set_lines (lines self ++ [line]) self) ;;;
  modify (set_scroll_offset 0) ;;;
  modify (set_dirty true).

(** The rows [update] draws: [self.lines[-10 - self.scroll_offset:][:10]]
    (line 472). *)
Definition visible_rows (self : UIConsole) : list string :=
  slice_to (slice_from (lines self) (-10 - scroll_offset self)) 10.

(** uimodules.py, lines 467-475; a screen that is not dirty draws nothing
    and returns [None]. *)
Definition update : M UIConsole (option string) :=
  self <- get ;;
  if dirty self then
    let rows := visible_rows self in
    modify (set_dirty false) ;;;
    screen_update rows
  else ret None.

(** uimodules.py, lines 463-465 *)
Definition active : M UIConsole unit :=
  modify (set_dirty true) ;;;
  _ <- update ;;
  ret tt.

(** The calls the host makes on the console. *)
Inductive Op : Type :=
| OpKeyNumber (number : Z)
| OpKeyEnter
| OpKeyUp
| OpKeyDown
| OpWrite (line : string)
| OpActive
| OpUpdate.

Definition run (op : Op) : M UIConsole unit :=
  match op with
  | OpKeyNumber number => key_number number
  | OpKeyEnter => key_enter
  | OpKeyUp => key_up
  | OpKeyDown => key_down
  | OpWrite line => write line
  | OpActive => active
  | OpUpdate => _ <- update ;; ret tt
  end.

(** The state after a sequence of calls, oldest first. *)
Definition run_all (ops : list Op) (self : UIConsole) : UIConsole :=
  foldl (fun s op => exec (run op) s) self ops.

End Console.

(** ** [python/PiFinder/uimodules.py]: [UICatalog.key_enter] and the older
    [UILocate] it hands the target to *)
Module Legacy.

#[global] Instance Row_eq_dec : EqDecision Catalog.Row.
Proof. solve_decision. Defined.

(** A [UICatalog] together with what [key_enter] and [screen_update]
    touch besides the attributes of [Catalog.UICatalog]: [switch_to] and
    the target held by the shared state. *)
Record CatalogScreen : Type := {
  screen : Catalog.UICatalog;
  switch_to : option string;
  shared_target : option Catalog.Row;   (* shared_state.set_target *)
  display : option (string * list string)
}.

(** uimodules.py, lines 300-307 *)
Definition key_enter : M CatalogScreen unit :=
  self <- get ;;
  match Catalog.cat_object (screen self) with
  | Some row =>
      modify (fun self =>
        {| screen := screen self; switch_to := switch_to self;
           shared_target := Some row; display := display self |}) ;;;
      modify (fun self =>
        {| screen := screen self; switch_to := Some "UILocate";
           shared_target := shared_target self; display := display self |})
  | None => ret tt
  end.

(** uimodules.py, lines 245-260 with [screen_update] (lines 60-75): the
    entry line is the catalog name and the designator; then the object
    text.  Only what is drawn is kept. *)
Definition update : M CatalogScreen (option string) :=
  self <- get ;;
  name <- lift (getitem Catalog.__catalogs
                  (Catalog.catalog_index (screen self))) ;;
  let line := name +:+ " " +:+ join (Catalog.designator (screen self)) in
  id_line <- lift (getitem (Catalog.object_text (screen self)) 0) ;;
  let rest := Console.slice_from (Catalog.object_text (screen self)) 1 in
  modify (fun self =>
    {| screen := screen self; switch_to := None;
       shared_target := shared_target self;
       display := Some (line, id_line :: rest) |}) ;;;
  ret (switch_to self).

(** Run a method of the inner [UICatalog] (a key handler). *)
Definition on_screen {A} (m : M Catalog.UICatalog A) : M CatalogScreen A :=
  fun self =>
    let '(o, s) := m (screen self) in
    (o, {| screen := s; switch_to := switch_to self;
           shared_target := shared_target self; display := display self |}).

(** What the older locate screen draws. *)
Inductive Pointing : Type :=
| NoFix                                     (* " ---.-" over "  --.-" *)
| Numbers (az_sign : string) (az : Q) (alt_sign : string) (alt : Q).

Inductive Frame : Type :=
| NoTargetSet
| TargetFrame (name : string) (id_line : string) (pointing : Pointing).

(** The attributes of the [UILocate] of uimodules.py (lines 99-205). *)
Record UILocate : Type := {
  target : option Catalog.Row;
  object_text : list string;
  locate_switch_to : option string;
  locate_display : option Frame
}.

Section UILocate.
Variable OBJ_TYPES : string -> option string.
Context {DateTime : Type} `{!Locate.Astrometry DateTime}.

(** [self.__catalogs.get(code, "UNK")] of line 108 *)
Definition catalog_name (code : string) : string :=
  if decide (code = "N") then "NGC"
  else if decide (code = "I") then " IC"
  else if decide (code = "M") then "Mes"
  else "UNK".

Definition set_target (t : option Catalog.Row) (self : UILocate) : UILocate :=
  {| target := t; object_text := object_text self;
     locate_switch_to := locate_switch_to self;
     locate_display := locate_display self |}.

Definition set_object_text (t : list string) (self : UILocate) : UILocate :=
  {| target := target self; object_text := t;
     locate_switch_to := locate_switch_to self;
     locate_display := locate_display self |}.


(** uimodules.py, lines 122-134 *)
Definition update_object_text : M UILocate unit :=
  self <- get ;;
  match target self with
  | None => modify (set_object_text ["No Object Found"])
  | Some t =>
      let object_type :=
        default (Catalog.obj_type t) (OBJ_TYPES (Catalog.obj_type t)) in
      modify (set_object_text
        [object_type
           +:+ Catalog.spaces (18 - Z.of_nat (String.length object_type))
           +:+ Catalog.const t])
  end.

Definition number (v : option Q) : M UILocate Q :=
  match v with
  | Some q => ret q
  | None => raise TypeError
  end.

(** uimodules.py, lines 136-161: the differences are returned as they
    are. *)
Definition aim_degrees (shared_state : Locate.SharedState DateTime)
  : M UILocate (option (option Q * option Q)) :=
  let solution := Locate.solution shared_state in
  let location := Locate.location shared_state in
  let dt := Locate.datetime shared_state in
  match location, dt, solution with
  | Some location, Some dt, Some solution =>
      if truthy (Locate.Alt solution) then
        self <- get ;;
        tgt <- match target self with
               | Some t => ret t
               | None => raise TypeError
               end ;;
        let '(target_alt, target_az) :=
          Locate.radec_to_altaz location (Catalog.ra tgt) (Catalog.dec tgt) dt in
        obs_az <- number (Locate.Az solution) ;;
        obs_alt <- number (Locate.Alt solution) ;;
        ret (Some (Some (fsub target_az obs_az), Some (fsub target_alt obs_alt)))
      else ret None
  | _, _, _ => ret (Some (None, None))
  end.

(** [UIModule.screen_update] for this screen. *)
Definition screen_update (f : Frame) : M UILocate (option string) :=
  self <- get ;;
  modify (fun self =>
    {| target := target self; object_text := object_text self;
       locate_switch_to := None; locate_display := Some f |}) ;;;
  ret (locate_switch_to self).

(** uimodules.py, lines 163-205; [shared_target] is
    [self.shared_state.target()] at the time of the call. *)
Definition locate_update (shared_state : Locate.SharedState DateTime)
    (shared_target : option Catalog.Row) : M UILocate (option string) :=
  modify (set_target shared_target) ;;;
  self <- get ;;
  match target self with
  | None => screen_update NoTargetSet
  | Some tgt =>
      update_object_text ;;;
      let line :=
        catalog_name (Catalog.catalog tgt) +:+ " "
          +:+ str (Catalog.designation tgt) in
      self <- get ;;
      id_line <- lift (getitem (object_text self) 0) ;;
      aim <- aim_degrees shared_state ;;
      pair <- match aim with
              | Some p => ret p
              | None => raise TypeError
              end ;;
      let '(point_az, point_alt) := pair in
      (if negb (truthy point_az) then
         screen_update (TargetFrame line id_line NoFix)
       else
         az <- number point_az ;;
         let '(az_sign, az) :=
           if Qle_bool 0 az then ("+", az) else ("-", (az * -1)%Q) in
         alt <- number point_alt ;;
         let '(alt_sign, alt) :=
           if Qle_bool 0 alt then ("+", alt) else ("-", (alt * -1)%Q) in
         screen_update
           (TargetFrame line id_line (Numbers az_sign az alt_sign alt)))
  end.

End UILocate.

(** Catalog rows as the objects of the newer locate screen, to compare the
    two [aim_degrees]. *)
#[global] Instance Row_catalog_object : Locate.CatalogObject Catalog.Row := {|
  Locate.ra := Catalog.ra;
  Locate.dec := Catalog.dec;
  Locate.title := fun r => Catalog.catalog r +:+ str (Catalog.designation r);
  Locate.type_line := fun r =>
    Sample.ljust14 (Catalog.obj_type r) +:+ " " +:+ Catalog.const r
|}.

(** Concrete screens over catalog rows, to run both versions. *)
Definition andromeda : Catalog.Row :=
  {| Catalog.catalog := "N"; Catalog.designation := 224;
     Catalog.obj_type := "Gx"; Catalog.const := "And";
     Catalog.ra := 1 # 1; Catalog.dec := 15 # 1 |}.

Definition newer_screen (target : option Catalog.Row)
  : Locate.UILocate Catalog.Row :=
  {| Locate.ui_state :=
       {| Locate.active_list := []; Locate.history_list := [];
          Locate.observing_list := []; Locate.target := target |};
     Locate.target_index := None;
     Locate.object_text := ["No Object Found"];
     Locate.self_target := None;
     Locate.load_value := EmptyString;
     Locate.obs_list_write_index := 0;
     Locate.switch_to := None;
     Locate.uuid := "LOC";
     Locate.ss_count := 0;
     Locate.messages := [];
     Locate.written := [];
     Locate.display := None |}.

Definition older_screen (target : option Catalog.Row) : UILocate :=
  {| target := target; object_text := ["No Object Found"];
     locate_switch_to := None; locate_display := None |}.

End Legacy.

(** ** [python/PiFinder/uimodules.py]: the rows drawn by [UIStatus.update] *)
Module Status.

(** uimodules.py, lines 403-406, for one item of [self.status_dict]. *)
Definition status_line (k v : string) : string :=
  let line := Catalog.spaces (7 - Z.of_nat (String.length k)) +:+ k in
  let line := line +:+ ":" in
  let line := line +:+ Catalog.spaces (10 - Z.of_nat (String.length v)) in
  line +:+ v.

(** uimodules.py, lines 401-407: one row per item, in the dict's order. *)
Definition status_lines (status_dict : list (string * string)) : list string :=
  map (fun '(k, v) => status_line k v) status_dict.

(** uimodules.py, lines 358-367 *)
Definition status_dict_init : list (string * string) :=
  [("LST SLV", "--"); ("RA", "--"); ("DEC", "--"); ("AZ", "--");
   ("ALT", "--"); ("GPS", "--"); ("UTC DT", "--"); ("UTC TM", "--")].

End Status.

(** * Properties *)

(** ** Arithmetic of the float operations *)
Section Arithmetic.
Local Open Scope Q_scope.

(** Powers of two. *)
Lemma two_power_pos (e : Z) : 0 < 2 ^ e.
Proof. apply Qpower_0_lt. reflexivity. Qed.

Lemma two_power_le (a b : Z) : (a <= b)%Z -> 2 ^ a <= 2 ^ b.
Proof. intros H. apply Qpower_le_compat_l; [exact H | discriminate]. Qed.

Lemma two_power_lt_inv (a b : Z) : 2 ^ a < 2 ^ b -> (a < b)%Z.
Proof. intros H. eapply Qpower_lt_compat_l_inv; [exact H | reflexivity]. Qed.

Lemma two_power_plus (a b : Z) : 2 ^ (a + b) == 2 ^ a * 2 ^ b.
Proof. apply Qpower_plus. discriminate. Qed.

Lemma two_power_Z (a : Z) : (0 <= a)%Z -> 2 ^ a == inject_Z (2 ^ a).
Proof. intros H. rewrite Zpower_Qpower by exact H. reflexivity. Qed.

Lemma log2_bounds (n : Z) :
  (0 < n)%Z -> 2 ^ Z.log2 n <= inject_Z n /\ inject_Z n < 2 ^ (Z.log2 n + 1).
Proof.
  intros Hn. destruct (Z.log2_spec n Hn) as [Hlo Hhi].
  pose proof (Z.log2_nonneg n) as H0.
  rewrite !two_power_Z by lia. split.
  - rewrite <- Zle_Qle. exact Hlo.
  - rewrite <- Zlt_Qlt. exact Hhi.
Qed.

Lemma floor_log2_spec (q : Q) :
  0 < q -> 2 ^ floor_log2 q <= q /\ q < 2 ^ (floor_log2 q + 1).
Proof.
  intros Hq. unfold floor_log2.
  destruct q as [n d]. assert (Hn : (0 < n)%Z).
  { unfold Qlt in Hq. simpl in Hq. lia. }
  cbn [Qnum Qden].
  set (a := Z.log2 n). set (b := Z.log2 (Z.pos d)).
  destruct (log2_bounds n Hn) as [Hna Hna'].
  destruct (log2_bounds (Z.pos d) eq_refl) as [Hdb Hdb']. fold a in Hna, Hna'. fold b in Hdb, Hdb'.
  assert (HD : 0 < inject_Z (Z.pos d)) by reflexivity.
  assert (E : (n # d) * inject_Z (Z.pos d) == inject_Z n).
  { unfold Qeq, inject_Z. simpl. lia. }
  destruct (Qle_bool (2 ^ (a - b)) (n # d)) eqn:T.
  - apply Qle_bool_iff in T. split; [exact T|].
    apply (Qmult_lt_r _ _ (inject_Z (Z.pos d))); [exact HD|].
    rewrite E. eapply Qlt_le_trans; [exact Hna'|].
    replace (a + 1)%Z with ((a - b + 1) + b)%Z by lia.
    rewrite two_power_plus. apply Qmult_le_l; [apply two_power_pos | exact Hdb].
  - assert (T' : n # d < 2 ^ (a - b)).
    { apply Qnot_le_lt. intros C. apply Qle_bool_iff in C. congruence. }
    split.
    + apply Qlt_le_weak.
      apply (Qmult_lt_r _ _ (inject_Z (Z.pos d))); [exact HD|].
      rewrite E. eapply Qlt_le_trans; [|exact Hna].
      replace a with ((a - b - 1) + (b + 1))%Z at 2 by lia.
      rewrite two_power_plus. apply Qmult_lt_l; [apply two_power_pos | exact Hdb'].
    + replace (a - b - 1 + 1)%Z with (a - b)%Z by lia. exact T'.
Qed.

Lemma floor_log2_unique (q : Q) (k : Z) :
  2 ^ k <= q -> q < 2 ^ (k + 1) -> floor_log2 q = k.
Proof.
  intros Hlo Hhi.
  assert (Hq : 0 < q) by (eapply Qlt_le_trans; [apply (two_power_pos k) | exact Hlo]).
  destruct (floor_log2_spec q Hq) as [Hlo' Hhi'].
  assert (H1 : (k < floor_log2 q + 1)%Z)
    by (apply two_power_lt_inv; eapply Qle_lt_trans; eauto).
  assert (H2 : (floor_log2 q < k + 1)%Z)
    by (apply two_power_lt_inv; eapply Qle_lt_trans; eauto).
  lia.
Qed.

Lemma floor_log2_mono (x y : Q) :
  0 < x -> x <= y -> (floor_log2 x <= floor_log2 y)%Z.
Proof.
  intros Hx Hxy.
  assert (Hy : 0 < y) by (eapply Qlt_le_trans; eauto).
  destruct (floor_log2_spec x Hx) as [Hlo _].
  destruct (floor_log2_spec y Hy) as [_ Hhi].
  assert (H : (floor_log2 x < floor_log2 y + 1)%Z).
  { apply two_power_lt_inv. eapply Qle_lt_trans; [exact Hlo|].
    eapply Qle_lt_trans; eauto. }
  lia.
Qed.

Lemma floor_log2_comp (x y : Q) :
  0 < x -> x == y -> floor_log2 x = floor_log2 y.
Proof.
  intros Hx E. symmetry.
  destruct (floor_log2_spec x Hx) as [Hlo Hhi].
  apply floor_log2_unique.
  - eapply Qle_trans; [exact Hlo|]. rewrite E. apply Qle_refl.
  - eapply Qle_lt_trans; [|exact Hhi]. rewrite E. apply Qle_refl.
Qed.

(** Rounding to the nearest integer, ties to even. *)
Lemma round_half_even_comp (t u : Q) :
  t == u -> round_half_even t = round_half_even u.
Proof.
  intros E. unfold round_half_even.
  rewrite (Qfloor_comp _ _ E).
  assert (C : (t - inject_Z (Qfloor u) ?= 1 # 2) = (u - inject_Z (Qfloor u) ?= 1 # 2)).
  { apply Qcompare_comp; [rewrite E|]; reflexivity. }
  rewrite C. reflexivity.
Qed.

Lemma round_half_even_bounds (t : Q) :
  (Qfloor t <= round_half_even t <= Qfloor t + 1)%Z.
Proof.
  unfold round_half_even.
  destruct (t - inject_Z (Qfloor t) ?= 1 # 2); [destruct (Z.even (Qfloor t))|..]; lia.
Qed.

Lemma round_half_even_Z (z : Z) : round_half_even (inject_Z z) = z.
Proof.
  unfold round_half_even. rewrite Qfloor_Z.
  assert (C : (inject_Z z - inject_Z z ?= 1 # 2) = Lt).
  { rewrite <- Qlt_alt. lra. }
  rewrite C. reflexivity.
Qed.

Lemma round_half_even_mono (t u : Q) :
  t <= u -> (round_half_even t <= round_half_even u)%Z.
Proof.
  intros H.
  pose proof (Qfloor_resp_le _ _ H) as Hf.
  pose proof (round_half_even_bounds t) as Bt.
  pose proof (round_half_even_bounds u) as Bu.
  destruct (Z.eq_dec (Qfloor t) (Qfloor u)) as [E | N]; [|lia].
  unfold round_half_even in *. rewrite E in *.
  destruct (Qcompare_spec (t - inject_Z (Qfloor u)) (1 # 2));
    destruct (Qcompare_spec (u - inject_Z (Qfloor u)) (1 # 2));
    try (destruct (Z.even (Qfloor u))); try lia; exfalso; lra.
Qed.

(** Rounding a positive number to 53 significant bits. *)
Lemma scaled_bounds (q : Q) :
  0 < q ->
  inject_Z (2 ^ 52) <= q / 2 ^ (floor_log2 q - 52)
  /\ q / 2 ^ (floor_log2 q - 52) <= inject_Z (2 ^ 53).
Proof.
  intros Hq. destruct (floor_log2_spec q Hq) as [Hlo Hhi].
  set (e := (floor_log2 q - 52)%Z).
  pose proof (two_power_pos e) as He.
  assert (E1 : 2 ^ floor_log2 q == inject_Z (2 ^ 52) * 2 ^ e).
  { replace (floor_log2 q) with (52 + e)%Z by (unfold e; lia).
    rewrite two_power_plus. reflexivity. }
  assert (E2 : 2 ^ (floor_log2 q + 1) == inject_Z (2 ^ 53) * 2 ^ e).
  { replace (floor_log2 q + 1)%Z with (53 + e)%Z by (unfold e; lia).
    rewrite two_power_plus. reflexivity. }
  rewrite E1 in Hlo. rewrite E2 in Hhi.
  split.
  - apply Qle_shift_div_l; assumption.
  - apply Qle_shift_div_r; [assumption | apply Qlt_le_weak; assumption].
Qed.

Lemma round_positive_bounds (q : Q) :
  0 < q ->
  2 ^ floor_log2 q <= round_positive q
  /\ round_positive q <= 2 ^ (floor_log2 q + 1).
Proof.
  intros Hq. destruct (scaled_bounds q Hq) as [Hlo Hhi].
  unfold round_positive.
  set (e := (floor_log2 q - 52)%Z) in *.
  pose proof (two_power_pos e) as He.
  apply round_half_even_mono in Hlo, Hhi.
  rewrite round_half_even_Z in Hlo, Hhi.
  replace (floor_log2 q) with (52 + e)%Z at 1 by (unfold e; lia).
  replace (floor_log2 q + 1)%Z with (53 + e)%Z by (unfold e; lia).
  rewrite !two_power_plus. split.
  - apply Qmult_le_r; [exact He|].
    change (2 ^ 52) with (inject_Z (2 ^ 52)). rewrite <- Zle_Qle. exact Hlo.
  - apply Qmult_le_r; [exact He|].
    change (2 ^ 53) with (inject_Z (2 ^ 53)). rewrite <- Zle_Qle. exact Hhi.
Qed.

Lemma round_positive_pos (q : Q) : 0 < q -> 0 < round_positive q.
Proof.
  intros Hq. destruct (round_positive_bounds q Hq) as [Hlo _].
  eapply Qlt_le_trans; [apply two_power_pos | exact Hlo].
Qed.

Lemma round_positive_mono (x y : Q) :
  0 < x -> x <= y -> round_positive x <= round_positive y.
Proof.
  intros Hx Hxy.
  assert (Hy : 0 < y) by (eapply Qlt_le_trans; eauto).
  pose proof (floor_log2_mono x y Hx Hxy) as Hf.
  destruct (Z.eq_dec (floor_log2 x) (floor_log2 y)) as [E | N].
  - unfold round_positive. rewrite E.
    set (e := (floor_log2 y - 52)%Z).
    pose proof (two_power_pos e) as He.
    apply Qmult_le_r; [exact He|].
    rewrite <- Zle_Qle. apply round_half_even_mono.
    apply Qmult_le_r; [apply Qinv_lt_0_compat; exact He | exact Hxy].
  - destruct (round_positive_bounds x Hx) as [_ Hhi].
    destruct (round_positive_bounds y Hy) as [Hlo _].
    eapply Qle_trans; [exact Hhi|].
    eapply Qle_trans; [|exact Hlo].
    apply two_power_le. lia.
Qed.

Lemma round_positive_comp (x y : Q) :
  0 < x -> x == y -> round_positive x == round_positive y.
Proof.
  intros Hx E. unfold round_positive.
  rewrite (floor_log2_comp x y Hx E).
  rewrite (round_half_even_comp (x / 2 ^ (floor_log2 y - 52)) (y / 2 ^ (floor_log2 y - 52)))
    by (rewrite E; reflexivity).
  reflexivity.
Qed.

Lemma round_positive_Z (z : Z) :
  (0 < z < 2 ^ 53)%Z -> round_positive (inject_Z z) == inject_Z z.
Proof.
  intros [Hz Hz'].
  assert (Hq : 0 < inject_Z z) by (rewrite Zlt_Qlt in Hz; exact Hz).
  destruct (floor_log2_spec _ Hq) as [Hlo _].
  assert (Hf : (floor_log2 (inject_Z z) < 53)%Z).
  { apply two_power_lt_inv. eapply Qle_lt_trans; [exact Hlo|].
    change (2 ^ 53) with (inject_Z (2 ^ 53)). rewrite <- Zlt_Qlt. exact Hz'. }
  unfold round_positive.
  set (e := (floor_log2 (inject_Z z) - 52)%Z).
  assert (He : (e <= 0)%Z) by (unfold e; lia).
  pose proof (two_power_pos e) as Hpe.
  assert (E : inject_Z z / 2 ^ e == inject_Z (z * 2 ^ (- e))).
  { rewrite inject_Z_mult, <- two_power_Z by lia.
    rewrite Qpower_opp. reflexivity. }
  rewrite (round_half_even_comp _ _ E), round_half_even_Z.
  rewrite inject_Z_mult, <- two_power_Z by lia.
  rewrite Qpower_opp. field. lra.
Qed.

(** Rounding to binary64. *)
#[export] Instance round64_proper : Proper (Qeq ==> Qeq) round64.
Proof.
  intros x y E. unfold round64.
  rewrite <- (Qcompare_comp x y E 0 0 (Qeq_refl 0)).
  destruct (x ?= 0) eqn:C.
  - reflexivity.
  - apply Qlt_alt in C.
    rewrite (round_positive_comp (- x) (- y)); [reflexivity | lra | rewrite E; reflexivity].
  - apply Qgt_alt in C. apply round_positive_comp; assumption.
Qed.

Lemma round64_mono (x y : Q) : x <= y -> round64 x <= round64 y.
Proof.
  intros H. unfold round64.
  destruct (Qcompare_spec x 0) as [Cx | Cx | Cx];
    destruct (Qcompare_spec y 0) as [Cy | Cy | Cy];
    try (exfalso; lra).
  - apply Qle_refl.
  - apply Qlt_le_weak, round_positive_pos. exact Cy.
  - pose proof (round_positive_pos (- x)). lra.
  - pose proof (round_positive_mono (- y) (- x)). lra.
  - pose proof (round_positive_pos (- x)). pose proof (round_positive_pos y). lra.
  - apply round_positive_mono; assumption.
Qed.

Lemma round64_Z (z : Z) :
  (- 2 ^ 53 < z < 2 ^ 53)%Z -> round64 (inject_Z z) == inject_Z z.
Proof.
  intros Hz. unfold round64.
  destruct (inject_Z z ?= 0) eqn:C.
  - apply Qeq_alt in C. rewrite C. reflexivity.
  - apply Qlt_alt in C. change 0 with (inject_Z 0) in C. rewrite <- Zlt_Qlt in C.
    rewrite <- inject_Z_opp, round_positive_Z by lia.
    rewrite inject_Z_opp. lra.
  - apply Qgt_alt in C. change 0 with (inject_Z 0) in C. rewrite <- Zlt_Qlt in C.
    apply round_positive_Z. lia.
Qed.

Lemma round64_0 : round64 0 = 0.
Proof. reflexivity. Qed.

Lemma trunc_comp (t u : Q) : t == u -> trunc t = trunc u.
Proof.
  intros E. unfold trunc.
  rewrite (Qfloor_comp _ _ E), (Qceiling_comp _ _ E).
  assert (B : Qle_bool 0 t = Qle_bool 0 u) by (rewrite E; reflexivity).
  rewrite B. reflexivity.
Qed.

Lemma trunc_bounds (t : Q) :
  (0 <= t -> inject_Z (trunc t) <= t /\ t < inject_Z (trunc t) + 1)
  /\ (t < 0 -> t <= inject_Z (trunc t) /\ inject_Z (trunc t) < t + 1).
Proof.
  unfold trunc. split; intros H.
  - assert (B : Qle_bool 0 t = true) by (apply Qle_bool_iff; exact H).
    rewrite B. pose proof (Qfloor_le t). pose proof (Qlt_floor t) as L.
    rewrite inject_Z_plus in L. change (inject_Z 1) with 1 in L. lra.
  - assert (B : Qle_bool 0 t = false).
    { destruct (Qle_bool 0 t) eqn:B; [|reflexivity].
      apply Qle_bool_iff in B. lra. }
    rewrite B. pose proof (Qle_ceiling t). pose proof (Qceiling_lt t) as L.
    unfold Z.sub in L. rewrite inject_Z_plus, inject_Z_opp in L.
    change (inject_Z 1) with 1 in L. lra.
Qed.

#[export] Instance fmod_proper : Proper (Qeq ==> Qeq ==> Qeq) fmod.
Proof.
  intros x x' Ex m m' Em. unfold fmod.
  rewrite (trunc_comp (x / m) (x' / m')) by (rewrite Ex, Em; reflexivity).
  rewrite Ex, Em. reflexivity.
Qed.

(** [fmod] keeps the sign of its first operand and is smaller than the
    second one. *)
Lemma fmod_range (x m : Q) :
  0 < m ->
  (0 <= x -> 0 <= fmod x m /\ fmod x m < m)
  /\ (x < 0 -> - m < fmod x m /\ fmod x m <= 0).
Proof.
  intros Hm. unfold fmod.
  destruct (trunc_bounds (x / m)) as [Hpos Hneg].
  set (k := inject_Z (trunc (x / m))) in *.
  assert (E : x == x / m * m) by (field; lra).
  set (t := x / m) in *.
  split; intros Hx.
  - assert (Ht : 0 <= t).
    { unfold t. apply Qle_shift_div_l; lra. }
    destruct (Hpos Ht) as [H1 H2]. nra.
  - assert (Ht : t < 0).
    { unfold t. apply Qlt_shift_div_r; lra. }
    destruct (Hneg Ht) as [H1 H2]. nra.
Qed.

#[export] Instance mod_proper : Proper (Qeq ==> Qeq ==> Qeq) mod_.
Proof.
  intros x x' Ex m m' Em. unfold mod_, fadd.
  pose proof (fmod_proper x x' Ex m m' Em) as Er.
  set (r := fmod x m) in *. set (r' := fmod x' m') in *.
  assert (B1 : Qeq_bool r 0 = Qeq_bool r' 0) by (rewrite Er; reflexivity).
  assert (B2 : Qle_bool 0 m = Qle_bool 0 m') by (rewrite Em; reflexivity).
  assert (B3 : Qle_bool 0 r = Qle_bool 0 r') by (rewrite Er; reflexivity).
  rewrite B1, B2, B3.
  destruct (Qeq_bool r' 0); [reflexivity|].
  destruct (xorb _ _); [rewrite Er, Em; reflexivity | exact Er].
Qed.

(** The remainder of a float by a positive float lies between zero and
    the divisor; the divisor itself is reached when the addition that
    brings a negative remainder back rounds up. *)
Lemma mod_range (x m : Q) :
  0 < m -> round64 m == m -> 0 <= mod_ x m /\ mod_ x m <= m.
Proof.
  intros Hm Rm. unfold mod_, fadd.
  destruct (fmod_range x m Hm) as [Hpos Hneg].
  set (r := fmod x m) in *.
  destruct (Qeq_bool r 0) eqn:Z0; [lra|].
  assert (Bm : Qle_bool 0 m = true) by (apply Qle_bool_iff; lra).
  rewrite Bm. cbn [negb xorb].
  destruct (Qle_bool 0 r) eqn:Br; cbn [negb].
  - apply Qle_bool_iff in Br.
    destruct (Qlt_le_dec x 0) as [Hx | Hx].
    + destruct (Hneg Hx). lra.
    + destruct (Hpos Hx). lra.
  - assert (Hr : r < 0).
    { apply Qnot_le_lt. intros C. apply Qle_bool_iff in C. congruence. }
    destruct (Qlt_le_dec x 0) as [Hx | Hx].
    + destruct (Hneg Hx) as [H1 H2]. split.
      * rewrite <- round64_0. apply round64_mono. lra.
      * rewrite <- Rm at 2. apply round64_mono. lra.
    + destruct (Hpos Hx). lra.
Qed.

Lemma inject_Z_eq (a b : Z) : inject_Z a == inject_Z b -> a = b.
Proof. apply inject_Z_injective. Qed.

(** On integers of moderate size every operation is exact. *)
Lemma mod_Z (s m : Z) :
  (0 < m < 2 ^ 53)%Z ->
  mod_ (inject_Z s) (inject_Z m) == inject_Z (s mod m).
Proof.
  intros Hm.
  assert (HmQ : 0 < inject_Z m).
  { change 0 with (inject_Z 0). rewrite <- Zlt_Qlt. lia. }
  unfold mod_, fadd.
  destruct (fmod_range (inject_Z s) (inject_Z m) HmQ) as [Hpos Hneg].
  assert (Er : fmod (inject_Z s) (inject_Z m)
               == inject_Z (s - m * trunc (inject_Z s / inject_Z m))).
  { unfold fmod, Z.sub. rewrite inject_Z_plus, inject_Z_opp, inject_Z_mult. ring. }
  set (k := trunc (inject_Z s / inject_Z m)) in *.
  set (r := fmod (inject_Z s) (inject_Z m)) in *.
  assert (Bm : Qle_bool 0 (inject_Z m) = true) by (apply Qle_bool_iff; lra).
  rewrite Bm. cbn [negb xorb].
  assert (Hs : (0 <= s)%Z \/ (s < 0)%Z) by lia.
  assert (Hrange : (0 <= s -> 0 <= s - m * k < m)%Z /\ (s < 0 -> - m < s - m * k <= 0)%Z).
  { split; intros H.
    - destruct Hpos as [H1 H2].
      { change 0 with (inject_Z 0). rewrite <- Zle_Qle. exact H. }
      rewrite Er in H1, H2. change 0 with (inject_Z 0) in H1.
      rewrite <- Zle_Qle in H1. rewrite <- Zlt_Qlt in H2. lia.
    - destruct Hneg as [H1 H2].
      { change 0 with (inject_Z 0). rewrite <- Zlt_Qlt. exact H. }
      rewrite Er in H1, H2. change 0 with (inject_Z 0) in H2.
      rewrite <- inject_Z_opp, <- Zlt_Qlt in H1. rewrite <- Zle_Qle in H2. lia. }
  destruct Hrange as [Rpos Rneg].
  destruct (Qeq_bool r 0) eqn:Z0.
  - apply Qeq_bool_iff in Z0. rewrite Er in Z0.
    change 0 with (inject_Z 0) in Z0. apply inject_Z_eq in Z0.
    assert (E0 : (s mod m = 0)%Z)
      by (symmetry; apply (Z.mod_unique_pos _ _ k); lia).
    rewrite E0. reflexivity.
  - assert (Nz : (s - m * k <> 0)%Z).
    { intros C. apply Qeq_bool_neq in Z0. apply Z0. rewrite Er, C. reflexivity. }
    destruct (Qle_bool 0 r) eqn:Br; cbn [negb].
    + apply Qle_bool_iff in Br. rewrite Er in Br.
      change 0 with (inject_Z 0) in Br. rewrite <- Zle_Qle in Br.
      assert (E0 : (s mod m = s - m * k)%Z)
        by (symmetry; apply (Z.mod_unique_pos _ _ k); lia).
      rewrite E0. exact Er.
    + assert (Hr : (s - m * k < 0)%Z).
      { destruct (Z.lt_ge_cases (s - m * k) 0) as [L | G]; [exact L|].
        exfalso. assert (C : Qle_bool 0 r = true); [|congruence].
        apply Qle_bool_iff. rewrite Er. change 0 with (inject_Z 0).
        rewrite <- Zle_Qle. exact G. }
      assert (E0 : (s mod m = s - m * k + m)%Z)
        by (symmetry; apply (Z.mod_unique_pos _ _ (k - 1)); lia).
      rewrite E0, Er, <- inject_Z_plus. apply round64_Z. lia.
Qed.

End Arithmetic.

(** ** Sequences *)
Section Sequences.
Context {A : Type}.

Lemma getitem_in_range (l : list A) (i : Z) :
  (0 <= i < len l)%Z ->
  exists x, getitem l i = Ok x /\ l !! Z.to_nat i = Some x.
Proof.
  intros Hi. unfold getitem, len in *.
  destruct (Z.ltb_spec i 0); [lia|].
  destruct (Z.leb_spec 0 i); [|lia].
  destruct (Z.ltb_spec i (Z.of_nat (length l))); [|lia].
  simpl. destruct (l !! Z.to_nat i) as [x|] eqn:E.
  - eauto.
  - apply lookup_ge_None in E. lia.
Qed.

Lemma getitem_Ok (l : list A) (i : Z) (x : A) :
  (0 <= i)%Z -> getitem l i = Ok x -> l !! Z.to_nat i = Some x.
Proof.
  intros Hi. unfold getitem.
  destruct (Z.ltb_spec i 0); [lia|].
  destruct (_ && _); [|discriminate].
  destruct (l !! Z.to_nat i); congruence.
Qed.

Lemma getitem_first (x : A) (l : list A) : getitem (x :: l) 0 = Ok x.
Proof.
  destruct (getitem_in_range (x :: l) 0) as (y & -> & Hy).
  - unfold len. cbn [length]. lia.
  - simpl in Hy. congruence.
Qed.

Context `{EqDecision A}.

Lemma index_Some (l : list A) (x : A) (i : Z) :
  index l x = Some i -> (0 <= i)%Z /\ l !! Z.to_nat i = Some x.
Proof.
  revert i. induction l as [|y l IH]; intros i; simpl; [discriminate|].
  destruct (decide (y = x)) as [->|_].
  - intros [= <-]. split; [lia|reflexivity].
  - destruct (index l x) as [j|]; simpl; [|discriminate].
    intros [= <-]. destruct (IH j eq_refl) as [Hj Hl].
    split; [lia|]. rewrite Z2Nat.inj_succ by lia. exact Hl.
Qed.

Lemma index_None (l : list A) (x : A) : index l x = None <-> x ∉ l.
Proof.
  induction l as [|y l IH]; simpl.
  - split; [intros _; apply not_elem_of_nil|reflexivity].
  - rewrite not_elem_of_cons. destruct (decide (y = x)) as [->|Hne].
    + split; [discriminate|intros [? _]; congruence].
    + destruct (index l x); simpl.
      * split; [discriminate|]. intros [_ Hx]. apply IH in Hx. discriminate.
      * split; [|reflexivity]. intros _. split; [congruence|]. by apply IH.
Qed.

End Sequences.

Import Locate.

(** ** The pointing vector ([UILocate.aim_degrees], [UILocate.update]) *)
Section Pointing.
Context {Obj DateTime : Type}.
Context `{!CatalogObject Obj} `{!Astrometry DateTime}.
Implicit Types (self : UILocate Obj) (shared_state : SharedState DateTime).

Local Open Scope Q_scope.

#[export] Instance normalize_signed_180_proper :
  Proper (Qeq ==> Qeq) normalize_signed_180.
Proof.
  intros x y E. unfold normalize_signed_180, fsub, fadd.
  rewrite E. reflexivity.
Qed.

(** Every result of the normalisation lies between -180 and 180, both
    ends included: the remainder lies in [[0, 360]] and the subtraction
    rounds monotonically. *)
Lemma normalize_signed_180_range (x : Q) :
  -180 <= normalize_signed_180 x /\ normalize_signed_180 x <= 180.
Proof.
  unfold normalize_signed_180, fsub.
  destruct (mod_range (fadd x 180) 360) as [Hlo Hhi];
    [reflexivity | apply (round64_Z 360); lia |].
  assert (Rlo : round64 (-180) == -180) by (apply (round64_Z (-180)); lia).
  assert (Rhi : round64 180 == 180) by (apply (round64_Z 180); lia).
  split.
  - apply (Qle_trans _ (round64 (-180)));
      [rewrite Rlo; apply Qle_refl | apply round64_mono; lra].
  - apply (Qle_trans _ (round64 180));
      [apply round64_mono; lra | rewrite Rhi; apply Qle_refl].
Qed.

(** On whole degrees every operation of the normalisation is exact, and
    its value is the integer [(z + 180) mod 360 - 180]. *)
Lemma normalize_signed_180_Z (z : Z) :
  (- 2 ^ 52 <= z <= 2 ^ 52)%Z ->
  normalize_signed_180 (inject_Z z) == inject_Z ((z + 180) mod 360 - 180).
Proof.
  intros Hz. unfold normalize_signed_180, fsub, fadd.
  assert (E1 : round64 (inject_Z z + 180) == inject_Z (z + 180)).
  { change 180 with (inject_Z 180). rewrite <- inject_Z_plus.
    apply round64_Z. lia. }
  rewrite E1. change 360 with (inject_Z 360).
  rewrite mod_Z by lia.
  pose proof (Z.mod_pos_bound (z + 180) 360 ltac:(lia)) as Hm.
  assert (E2 : inject_Z ((z + 180) mod 360) - 180
               == inject_Z ((z + 180) mod 360 - 180)).
  { unfold Z.sub. rewrite inject_Z_plus. reflexivity. }
  rewrite E2. apply round64_Z. lia.
Qed.

Lemma truthy_nonzero (q : Q) : truthy (Some q) = true <-> ~ q == 0.
Proof.
  unfold truthy. rewrite negb_true_iff. split.
  - intros H E. apply Qeq_bool_iff in E. congruence.
  - intros H. destruct (Qeq_bool q 0) eqn:E; [|reflexivity].
    apply Qeq_bool_iff in E. contradiction.
Qed.

Lemma truthy_zero (q : Q) : q == 0 -> truthy (Some q) = false.
Proof.
  intros E. unfold truthy. apply Qeq_bool_iff in E. rewrite E. reflexivity.
Qed.

(** [aim_degrees] only reads. *)
Lemma aim_degrees_pure shared_state self :
  exec (aim_degrees shared_state) self = self.
Proof.
  unfold exec, aim_degrees, bind, get, subscript, number, ret, raise.
  repeat (case_match; simpl in *; simplify_eq); reflexivity.
Qed.

Lemma aim_degrees_eq shared_state self :
  aim_degrees shared_state self = (eval (aim_degrees shared_state) self, self).
Proof.
  pose proof (aim_degrees_pure shared_state self) as Hp.
  unfold exec, eval in *.
  destruct (aim_degrees shared_state self). simpl in *. congruence.
Qed.

(** Without a location, a time or a solution the value is the pair
    [(None, None)]. *)
Lemma aim_degrees_no_fix shared_state self :
  location shared_state = None \/ datetime shared_state = None
    \/ solution shared_state = None ->
  aim_degrees shared_state self = (Ok (Some (None, None)), self).
Proof.
  unfold aim_degrees, ret.
  intros [H | [H | H]]; rewrite H; repeat case_match; reflexivity.
Qed.

(** With all three and both horizontal coordinates of the solution (the
    altitude not zero), the value is the pair of normalised differences
    between the target's horizontal coordinates and the solution. *)
Lemma aim_degrees_fix shared_state self loc dt sol tgt obs_az obs_alt :
  location shared_state = Some loc ->
  datetime shared_state = Some dt ->
  solution shared_state = Some sol ->
  Az sol = Some obs_az -> Alt sol = Some obs_alt -> ~ obs_alt == 0 ->
  target (ui_state self) = Some tgt ->
  let horizontal := radec_to_altaz loc (ra tgt) (dec tgt) dt in
  aim_degrees shared_state self =
    (Ok (Some (Some (normalize_signed_180 (fsub (snd horizontal) obs_az)),
               Some (normalize_signed_180 (fsub (fst horizontal) obs_alt)))),
     self).
Proof.
  intros Hl Hd Hs Haz Halt Hnz Ht horizontal. subst horizontal.
  unfold aim_degrees. rewrite Hl, Hd, Hs, Halt.
  apply truthy_nonzero in Hnz. rewrite Hnz.
  unfold bind, get, subscript, ret, number. rewrite Ht, Haz.
  destruct (radec_to_altaz loc (ra tgt) (dec tgt) dt) as [alt az].
  unfold normalize_signed_180. reflexivity.
Qed.


(** Whatever the shared state, a screen without a fix component draws the
    placeholder. *)
Lemma update_no_fix shared_state self tgt id_line rest :
  location shared_state = None \/ datetime shared_state = None
    \/ solution shared_state = None ->
  target (ui_state self) = Some tgt ->
  object_text self = id_line :: rest ->
  exists index_line,
    display (exec (update shared_state) self)
    = Some (TargetFrame (title tgt) index_line id_line NoFix)
    /\ eval (update shared_state) self = Ok (switch_to self).
Proof.
  intros Hmiss Ht Hx. unfold exec, eval, update, bind, get.
  rewrite Ht, Hx, getitem_first. unfold lift.
  rewrite (aim_degrees_no_fix _ _ Hmiss). simpl. eauto.
Qed.

End Pointing.

(** C1 (as stated).  The normalisation does not map into the interval
    (-180, 180]: an input of 180 degrees is sent to -180, the end that the
    claim excludes.  Nor is it periodic on every float: for the float
    nearest to 0.1, adding 360 before normalising changes the result in
    its last bits. *)
Lemma normalize_signed_180_at_180 :
  (normalize_signed_180 180 == -180)%Q /\
  ~ (-180 < normalize_signed_180 180 /\ normalize_signed_180 180 <= 180)%Q /\
  ~ (normalize_signed_180 (fadd (round64 (1 # 10)) 360)
     == normalize_signed_180 (round64 (1 # 10)))%Q.
Proof.
  assert (E : (normalize_signed_180 180 == -180)%Q) by (vm_compute; reflexivity).
  split; [exact E|]. split.
  - intros [H _]. rewrite E in H. exact (Qlt_irrefl _ H).
  - intros H. apply Qeq_bool_iff in H. vm_compute in H. discriminate H.
Qed.

(** C1 (amended).  The normalisation x |-> ((x + 180) mod 360) - 180 applied
    to both deltas maps every input into the closed interval [-180, 180],
    whose upper end is reached as well (at the float just below -180); on
    whole degrees it has period 360; it sends 361 to 1, -181 to 179, and
    the difference of a target azimuth of 1 and an observer azimuth of 359
    to +2. *)
Theorem normalize_signed_180_spec :
  (forall x, -180 <= normalize_signed_180 x /\ normalize_signed_180 x <= 180)%Q /\
  (normalize_signed_180 (-180 - (1 # 2 ^ 45)) == 180)%Q /\
  (forall z : Z, (- 2 ^ 51 <= z <= 2 ^ 51)%Z ->
     normalize_signed_180 (inject_Z z + 360) == normalize_signed_180 (inject_Z z))%Q /\
  (normalize_signed_180 361 == 1)%Q /\
  (normalize_signed_180 (-181) == 179)%Q /\
  (normalize_signed_180 (fsub 1 359) == 2)%Q.
Proof.
  split; [exact normalize_signed_180_range|].
  split; [vm_compute; reflexivity|].
  split; [|repeat split; vm_compute; reflexivity].
  intros z Hz.
  assert (E : (inject_Z z + 360 == inject_Z (z + 360))%Q).
  { rewrite inject_Z_plus. reflexivity. }
  rewrite E, !normalize_signed_180_Z by lia.
  replace (z + 360 + 180)%Z with (z + 180 + 1 * 360)%Z by lia.
  rewrite Z.mod_add by lia. reflexivity.
Qed.

Lemma normalize_signed_180_spec_725 :
  (normalize_signed_180 (inject_Z 725 + 360) == normalize_signed_180 (inject_Z 725))%Q.
Proof.
  apply (proj1 (proj2 (proj2 normalize_signed_180_spec)) 725%Z). lia.
Defined.

(** C2.  With a location, a time and a solution whose altitude is false in
    the Python sense (exactly 0.0, or [None]), [aim_degrees] falls off its
    end: its value is the bare [None], not a pair, and the unpacking in
    [update] raises [TypeError] instead of drawing anything. *)
Theorem aim_degrees_falls_through
    {Obj DateTime : Type} `{!CatalogObject Obj} `{!Astrometry DateTime}
    (self : UILocate Obj) (loc : Location) (dt : DateTime)
    (az alt : option Q) (tgt : Obj) (id_line : string) (rest : list string) :
  truthy alt = false ->
  target (ui_state self) = Some tgt ->
  object_text self = id_line :: rest ->
  let shared_state :=
    {| solution := Some {| Az := az; Alt := alt |};
       location := Some loc; datetime := Some dt |} in
  aim_degrees shared_state self = (Ok None, self)
  /\ update shared_state self = (Raise TypeError, self).
Proof.
  intros Halt Ht Hx shared_state.
  assert (E : aim_degrees shared_state self = (Ok None, self)).
  { unfold aim_degrees, shared_state. simpl. rewrite Halt. reflexivity. }
  split; [exact E|].
  unfold update, bind, get, lift. rewrite Ht, Hx, getitem_first, E.
  reflexivity.
Qed.

Lemma aim_degrees_falls_through_horizon :
  let self := Sample.screen [Sample.m31] [Sample.m31] [] (Some Sample.m31) in
  let shared_state := Sample.fix_ (Some (359 # 1)) (Some 0%Q) in
  aim_degrees shared_state self = (Ok None, self)
  /\ update shared_state self = (Raise TypeError, self).
Proof.
  exact (aim_degrees_falls_through
           (Sample.screen [Sample.m31] [Sample.m31] [] (Some Sample.m31))
           Sample.here 1668477600%Z (Some (359 # 1)) (Some 0%Q)
           Sample.m31 "No Object Found" [] eq_refl eq_refl eq_refl).
Defined.

(** C10.  The guard of [update] is the truth value of the azimuth delta:
    when [aim_degrees] returns a pair whose azimuth delta is zero, the
    frame carries the placeholder and not the pointing numbers, and it is
    the very frame drawn when there is no fix at all. *)
Theorem update_zero_azimuth_draws_placeholder
    {Obj DateTime : Type} `{!CatalogObject Obj} `{!Astrometry DateTime}
    (self : UILocate Obj) (shared_state : SharedState DateTime)
    (tgt : Obj) (id_line : string) (rest : list string)
    (az : Q) (alt : option Q) :
  target (ui_state self) = Some tgt ->
  object_text self = id_line :: rest ->
  eval (aim_degrees shared_state) self = Ok (Some (Some az, alt)) ->
  (az == 0)%Q ->
  (exists index_line,
     display (exec (update shared_state) self)
     = Some (TargetFrame (title tgt) index_line id_line NoFix))
  /\ eval (update shared_state) self = Ok (switch_to self)
  /\ forall no_fix : SharedState DateTime,
       location no_fix = None \/ datetime no_fix = None
         \/ solution no_fix = None ->
       display (exec (update shared_state) self)
       = display (exec (update no_fix) self).
Proof.
  intros Ht Hx Haim Hz.
  assert (E : aim_degrees shared_state self = (Ok (Some (Some az, alt)), self)).
  { pose proof (aim_degrees_pure shared_state self) as Hp.
    unfold eval in Haim. unfold exec in Hp.
    destruct (aim_degrees shared_state self) as [r s]. simpl in *. congruence. }
  assert (U : forall sh,
             aim_degrees sh self = (Ok (Some (Some az, alt)), self)
             \/ aim_degrees sh self = (Ok (Some (None, None)), self) ->
             update sh self
             = screen_update
                 (TargetFrame (title tgt)
                    match target_index self with
                    | Some i =>
                        Some ((i + 1)%Z, len (active_list (ui_state self)),
                              if decide (active_list (ui_state self)
                                         = history_list (ui_state self))
                              then "Hist" else "Obsv")
                    | None => None
                    end id_line NoFix) self).
  { intros sh Hsh. unfold update, bind, get, lift.
    rewrite Ht, Hx, getitem_first.
    destruct Hsh as [-> | ->]; cbn -[truthy].
    - rewrite (truthy_zero az Hz). reflexivity.
    - reflexivity. }
  repeat split.
  - eexists. unfold exec. rewrite (U _ (or_introl E)). reflexivity.
  - unfold eval. rewrite (U _ (or_introl E)). reflexivity.
  - intros no_fix Hmiss. unfold exec.
    rewrite (U _ (or_introl E)).
    rewrite (U _ (or_intror (aim_degrees_no_fix no_fix self Hmiss))).
    reflexivity.
Qed.

Lemma update_zero_azimuth_draws_placeholder_m31 :
  let self := Sample.screen [Sample.m31] [Sample.m31] [] (Some Sample.m31) in
  let shared_state := Sample.fix_ (Some (1 # 1)) (Some (10 # 1)) in
  (exists index_line,
     display (exec (update shared_state) self)
     = Some (TargetFrame (title Sample.m31) index_line "No Object Found" NoFix))
  /\ eval (update shared_state) self = Ok (switch_to self)
  /\ forall no_fix : SharedState Z,
       location no_fix = None \/ datetime no_fix = None
         \/ solution no_fix = None ->
       display (exec (update shared_state) self)
       = display (exec (update no_fix) self).
Proof.
  exact (update_zero_azimuth_draws_placeholder
           (Sample.screen [Sample.m31] [Sample.m31] [] (Some Sample.m31))
           (Sample.fix_ (Some (1 # 1)) (Some (10 # 1)))
           Sample.m31 "No Object Found" []
           (normalize_signed_180 (1 - 1)) (Some (normalize_signed_180 (15 - 10)))
           eq_refl eq_refl eq_refl eq_refl).
Defined.

(** ** The target lists ([UILocate]: switch, scroll, save, load, re-entry) *)
Section TargetLists.
Context {Obj DateTime : Type}.
Context `{!CatalogObject Obj} `{!Astrometry DateTime}.
Implicit Types (self : UILocate Obj) (shared_state : SharedState DateTime).

Lemma same_lists_refl self : same_lists self self.
Proof. repeat split. Qed.

Lemma same_lists_trans self1 self2 self3 :
  same_lists self1 self2 -> same_lists self2 self3 -> same_lists self1 self3.
Proof. unfold same_lists. intuition congruence. Qed.

Lemma exec_then_ret {A} (m : M (UILocate Obj) A) self :
  exec (_ <- m ;; ret tt) self = exec m self.
Proof. unfold exec, bind, ret. destruct (m self) as [[a | e |] s]; reflexivity. Qed.

Lemma update_object_text_eq self :
  update_object_text self =
    (Ok tt,
     set_object_text
       match target (ui_state self) with
       | Some t => [type_line t]
       | None => ["No Object Found"]
       end self).
Proof.
  unfold update_object_text, bind, get, modify.
  destruct (target (ui_state self)); reflexivity.
Qed.

Lemma update_same_lists shared_state self :
  same_lists self (exec (update shared_state) self).
Proof.
  unfold same_lists, exec, update, bind, get, lift.
  destruct (target (ui_state self)); [|simpl; tauto].
  destruct (getitem (object_text self) 0); simpl; try tauto.
  rewrite aim_degrees_eq.
  unfold screen_update, unpack2, number, bind, get, modify, ret, raise.
  repeat (case_match; simpl in *; simplify_eq); tauto.
Qed.

(** *** Scrolling *)

Lemma clamp_max_min (n i : Z) :
  (0 < n)%Z -> clamp n i = Z.max 0 (Z.min (n - 1) i).
Proof.
  intros Hn. unfold clamp.
  destruct (Z.leb_spec n i);
    [destruct (Z.ltb_spec (n - 1) 0) | destruct (Z.ltb_spec i 0)]; lia.
Qed.

Lemma scroll_unset shared_state direction self :
  target_index self = None ->
  scroll_target_history shared_state direction self = (Ok tt, self).
Proof. intros H. unfold scroll_target_history, bind, get. rewrite H. reflexivity. Qed.

Lemma scroll_exec shared_state direction self i t :
  target_index self = Some i ->
  let j := clamp (len (active_list (ui_state self))) (i + direction) in
  getitem (active_list (ui_state self)) j = Ok t ->
  exec (scroll_target_history shared_state direction) self =
    exec (update shared_state)
      (set_object_text [type_line t]
         (set_target (Some t)
            (set_self_target (Some t) (set_target_index (Some j) self)))).
Proof.
  intros Hi j Ht. unfold scroll_target_history.
  unfold exec at 1. unfold bind at 1. unfold get at 1. rewrite Hi.
  fold (clamp (len (active_list (ui_state self))) (i + direction)). fold j.
  unfold bind at 1. unfold modify at 1.
  unfold bind at 1. unfold lift at 1. rewrite Ht.
  unfold bind at 1. unfold modify at 1.
  unfold bind at 1. unfold modify at 1.
  unfold bind at 1. rewrite update_object_text_eq. simpl target.
  change (snd ?p) with (exec (fun s => p) self) at 1.
  unfold bind, ret, exec.
  match goal with |- context [update shared_state ?s] =>
    destruct (update shared_state s) as [[a | e |] s'] end; reflexivity.
Qed.

Lemma scroll_result shared_state direction self i :
  target_index self = Some i ->
  (0 < len (active_list (ui_state self)))%Z ->
  let self' := exec (scroll_target_history shared_state direction) self in
  let j := clamp (len (active_list (ui_state self))) (i + direction) in
  target_index self' = Some j
  /\ active_list (ui_state self') = active_list (ui_state self)
  /\ history_list (ui_state self') = history_list (ui_state self)
  /\ observing_list (ui_state self') = observing_list (ui_state self)
  /\ (0 <= j < len (active_list (ui_state self)))%Z
  /\ exists t, active_list (ui_state self) !! Z.to_nat j = Some t
               /\ target (ui_state self') = Some t.
Proof.
  intros Hi Hn self' j.
  assert (Hj : (0 <= j < len (active_list (ui_state self)))%Z).
  { subst j. rewrite clamp_max_min by assumption. lia. }
  destruct (getitem_in_range _ _ Hj) as (t & Hget & Hlook).
  subst self'. rewrite (scroll_exec _ _ _ i t Hi Hget). fold j.
  match goal with |- context [exec (update shared_state) ?s] =>
    destruct (update_same_lists shared_state s) as (Hu & Hx & _) end.
  rewrite Hu, Hx. simpl. repeat split; try lia. eauto.
Qed.

(** *** Switching lists *)

Lemma key_b_refused self :
  destination self = [] ->
  key_b self =
    (Ok tt, exec (message (no_such_list self)) (set_target_index None self)).
Proof.
  unfold destination, no_such_list, key_b, bind, modify, get. simpl.
  destruct (decide (active_list (ui_state self) = history_list (ui_state self)));
    intros ->; reflexivity.
Qed.

Lemma key_b_to_observing self x l :
  active_list (ui_state self) = history_list (ui_state self) ->
  observing_list (ui_state self) = x :: l ->
  key_b self =
    (Ok tt,
     set_object_text [type_line x]
       (set_target (Some x)
          (set_target_index (Some 0%Z)
             (set_active_list (x :: l) (set_target_index None self))))).
Proof.
  intros Ha Ho. unfold key_b, bind, modify, get. simpl.
  rewrite decide_True by assumption. rewrite Ho.
  change (0 <? len (x :: l))%Z with true. cbn iota. simpl.
  unfold lift. rewrite ?getitem_first. rewrite update_object_text_eq.
  reflexivity.
Qed.

Lemma key_b_to_history self :
  active_list (ui_state self) <> history_list (ui_state self) ->
  history_list (ui_state self) <> [] ->
  let n := len (history_list (ui_state self)) in
  exists t,
    history_list (ui_state self) !! Z.to_nat (n - 1) = Some t
    /\ key_b self =
         (Ok tt,
          set_object_text [type_line t]
            (set_target (Some t)
               (set_target_index (Some (n - 1)%Z)
                  (set_active_list (history_list (ui_state self))
                     (set_target_index None self))))).
Proof.
  intros Ha Hh n.
  assert (Hn : (0 < n)%Z).
  { subst n. unfold len. destruct (history_list (ui_state self)); [done|].
    cbn [length]. lia. }
  destruct (getitem_in_range (history_list (ui_state self)) (n - 1))
    as (t & Hget & Hlook); [lia|].
  exists t. split; [exact Hlook|].
  unfold key_b, bind, modify, get. simpl.
  rewrite decide_False by assumption. fold n.
  destruct (Z.ltb_spec 0 n); [|lia]. simpl.
  unfold lift. fold n. rewrite Hget. rewrite update_object_text_eq.
  reflexivity.
Qed.

(** *** Loading and saving *)

Lemma load_list_cancel read_list self :
  load_list read_list "CANCEL" self = (Ok false, set_load_value EmptyString self).
Proof. reflexivity. Qed.

Lemma load_list_error read_list option self :
  option <> "CANCEL" ->
  result (read_list option) = "error" ->
  load_list read_list option self =
    (Ok false,
     exec (message ("Err! " +:+ message_ (read_list option)))
       (set_load_value EmptyString self)).
Proof.
  intros Hc He. unfold load_list, bind, modify.
  rewrite decide_False by assumption. rewrite decide_True by assumption.
  reflexivity.
Qed.

Lemma load_list_no_matches read_list option self :
  option <> "CANCEL" ->
  result (read_list option) <> "error" ->
  catalog (read_list option) = [] ->
  load_list read_list option self =
    (Ok false, exec (message "No matches") (set_load_value EmptyString self)).
Proof.
  intros Hc He Hn. unfold load_list, bind, modify.
  rewrite decide_False by assumption. rewrite decide_False by assumption.
  rewrite Hn. reflexivity.
Qed.

Lemma load_list_loaded read_list option self x l :
  option <> "CANCEL" ->
  result (read_list option) <> "error" ->
  catalog (read_list option) = x :: l ->
  load_list read_list option self =
    (Ok true,
     exec (message ("Loaded " +:+ str (len (x :: l)) +:+ " of "
                    +:+ str (objects_parsed (read_list option))))
       (set_object_text [type_line x]
          (set_target (Some x)
             (set_target_index (Some 0%Z)
                (set_active_list (x :: l)
                   (set_observing_list (x :: l)
                      (set_load_value EmptyString self))))))).
Proof.
  intros Hc He Hn. unfold load_list, bind, modify.
  rewrite decide_False by assumption. rewrite decide_False by assumption.
  rewrite Hn. change (len (x :: l) =? 0)%Z with false. cbn iota.
  unfold get, lift. simpl. reflexivity.
Qed.

Lemma save_list_cancel self :
  save_list "CANCEL" self = (Ok false, set_load_value EmptyString self).
Proof. reflexivity. Qed.

Lemma save_list_no_objects option self :
  option <> "CANCEL" ->
  active_list (ui_state self) = [] ->
  save_list option self =
    (Ok false, exec (message "No objects") (set_load_value EmptyString self)).
Proof.
  intros Hc Ha. unfold save_list, bind, modify, get.
  rewrite decide_False by assumption. simpl. rewrite Ha. reflexivity.
Qed.

Lemma save_list_saved option self :
  option <> "CANCEL" ->
  active_list (ui_state self) <> [] ->
  let filename :=
    uuid self +:+ "_" +:+ option +:+ "_" +:+ fmt_02d (ss_count self) in
  let chosen :=
    if decide (option = "History") then history_list (ui_state self)
    else observing_list (ui_state self) in
  save_list option self =
    (Ok true,
     exec (message ("Saved list - " +:+ fmt_02d (ss_count self)))
       (set_obs_list_write_index (obs_list_write_index self + 1)
          (exec (write_list chosen filename) (set_load_value EmptyString self)))).
Proof.
  intros Hc Ha filename chosen. unfold save_list, bind, modify, get.
  rewrite decide_False by assumption. simpl.
  destruct (active_list (ui_state self)) as [|x l] eqn:E; [done|].
  change (len (x :: l) =? 0)%Z with false. cbn iota.
  subst chosen filename.
  destruct (decide (option = "History")); reflexivity.
Qed.

(** *** Re-entering the screen *)

Lemma active_exec shared_state self :
  exec (active shared_state) self =
    exec (update shared_state)
      (set_object_text
         match target (ui_state self) with
         | Some t => [type_line t]
         | None => ["No Object Found"]
         end
         (set_target_index
            match target (ui_state self) with
            | Some t => index (active_list (ui_state self)) t
            | None => None
            end self)).
Proof.
  unfold active. unfold exec at 1. unfold bind at 1. unfold get at 1.
  unfold bind at 1. unfold modify at 1.
  unfold bind at 1. rewrite update_object_text_eq. simpl target.
  unfold bind, ret, exec.
  match goal with |- context [update shared_state ?s] =>
    destruct (update shared_state s) as [[a | e |] s'] end; reflexivity.
Qed.


End TargetLists.

(** ** The cursor invariant *)
Section Invariant.
Context {Obj DateTime : Type}.
Context `{!CatalogObject Obj} `{!Astrometry DateTime}.
Implicit Types (self init : UILocate Obj) (shared_state : SharedState DateTime).

Lemma cursor_invariant_same self self' :
  ui_state self' = ui_state self ->
  target_index self' = target_index self ->
  cursor_invariant self -> cursor_invariant self'.
Proof. unfold cursor_invariant. intros -> ->. auto. Qed.

Lemma cursor_invariant_unset self :
  target_index self = None -> cursor_invariant self.
Proof. unfold cursor_invariant. intros -> i [=]. Qed.

Lemma key_b_invariant self : cursor_invariant (exec key_b self).
Proof.
  destruct (decide (active_list (ui_state self) = history_list (ui_state self)))
    as [Ha | Ha].
  - destruct (observing_list (ui_state self)) as [|x l] eqn:Ho.
    + unfold exec. rewrite key_b_refused.
      * apply cursor_invariant_unset. reflexivity.
      * unfold destination. rewrite decide_True by assumption. exact Ho.
    + unfold exec. rewrite (key_b_to_observing self x l Ha Ho).
      intros i [= <-]. simpl. split; [lia|]. eauto.
  - destruct (decide (history_list (ui_state self) = [])) as [Hh | Hh].
    + unfold exec. rewrite key_b_refused.
      * apply cursor_invariant_unset. reflexivity.
      * unfold destination. rewrite decide_False by assumption. exact Hh.
    + unfold exec.
      destruct (key_b_to_history self Ha Hh) as (t & Hlook & ->).
      intros i [= <-]. simpl. split.
      * unfold len. destruct (history_list (ui_state self)); [done|].
        cbn [length]. lia.
      * eauto.
Qed.

Lemma scroll_invariant shared_state direction self :
  cursor_invariant self ->
  cursor_invariant (exec (scroll_target_history shared_state direction) self).
Proof.
  intros Hinv. destruct (target_index self) as [i|] eqn:Hi.
  - destruct (Hinv i Hi) as (Hpos & t & Hlook & _).
    assert (Hn : (0 < len (active_list (ui_state self)))%Z).
    { apply lookup_lt_Some in Hlook. unfold len. lia. }
    destruct (scroll_result shared_state direction self i Hi Hn)
      as (Hidx & Hact & _ & _ & Hj & t' & Hlook' & Htgt).
    intros k Hk. rewrite Hidx in Hk. injection Hk as <-.
    split; [lia|]. exists t'. rewrite Hact. auto.
  - unfold exec. rewrite scroll_unset by assumption.
    apply cursor_invariant_unset. assumption.
Qed.

Lemma active_invariant shared_state self :
  cursor_invariant (exec (active shared_state) self).
Proof.
  rewrite active_exec.
  match goal with |- context [exec (update shared_state) ?s] =>
    destruct (update_same_lists shared_state s) as (Hu & Hx & _);
    apply (cursor_invariant_same s); [exact Hu | exact Hx |] end.
  intros i. simpl. destruct (target (ui_state self)) as [t|]; [|discriminate].
  intros Hi. apply index_Some in Hi as [Hpos Hlook]. eauto.
Qed.

Lemma load_list_invariant read_list option self :
  cursor_invariant self ->
  cursor_invariant (exec (load_list read_list option) self).
Proof.
  intros Hinv. unfold exec.
  destruct (decide (option = "CANCEL")) as [-> | Hc].
  { rewrite load_list_cancel. exact Hinv. }
  destruct (decide (result (read_list option) = "error")) as [He | He].
  { rewrite load_list_error by assumption. exact Hinv. }
  destruct (catalog (read_list option)) as [|x l] eqn:Hn.
  { rewrite load_list_no_matches by assumption. exact Hinv. }
  rewrite (load_list_loaded read_list option self x l) by assumption.
  intros i [= <-]. simpl. split; [lia|]. eauto.
Qed.

Lemma save_list_invariant option self :
  cursor_invariant self -> cursor_invariant (exec (save_list option) self).
Proof.
  intros Hinv. unfold exec.
  destruct (decide (option = "CANCEL")) as [-> | Hc].
  { rewrite save_list_cancel. exact Hinv. }
  destruct (active_list (ui_state self)) as [|x l] eqn:Ha.
  { rewrite save_list_no_objects by assumption. exact Hinv. }
  rewrite save_list_saved by (assumption || (rewrite Ha; discriminate)).
  exact Hinv.
Qed.

Lemma run_invariant (op : Op Obj DateTime) self :
  cursor_invariant self -> cursor_invariant (exec (run op) self).
Proof.
  intros Hinv. destruct op; unfold run.
  - apply key_b_invariant.
  - apply scroll_invariant, Hinv.
  - apply scroll_invariant, Hinv.
  - exact Hinv.
  - apply active_invariant.
  - rewrite exec_then_ret. apply load_list_invariant, Hinv.
  - rewrite exec_then_ret. apply save_list_invariant, Hinv.
Qed.

(** Re-entry with a shared state that lacks a fix returns normally. *)
Lemma active_returns shared_state self :
  location shared_state = None \/ datetime shared_state = None
    \/ solution shared_state = None ->
  eval (active shared_state) self = Ok tt.
Proof.
  intros Hmiss. unfold eval, active.
  unfold bind at 1. unfold get at 1.
  unfold bind at 1. unfold modify at 1.
  unfold bind at 1. rewrite update_object_text_eq. simpl target.
  unfold bind.
  match goal with |- context [update shared_state ?s] => set (st := s) end.
  assert (E : eval (update shared_state) st = Ok (switch_to st)).
  { destruct (target (ui_state self)) as [t|] eqn:Ht.
    - destruct (update_no_fix shared_state st t (type_line t) [] Hmiss)
        as (_ & _ & E); [exact Ht | reflexivity | exact E].
    - unfold eval, update, bind, get. subst st. simpl. rewrite Ht.
      reflexivity. }
  unfold eval in E. destruct (update shared_state st) as [r s'].
  simpl in E. subst r. reflexivity.
Qed.

End Invariant.



(** X26.  From a screen whose cursor is unset (as [__init__] leaves it),
    after any sequence of calls on the screen, also when other screens
    rebind the shared target or the lists in between and the host
    re-enters through [active], a cursor that is set points at the shared
    target: [target == active_list[target_index]].  And whatever state
    [active] is called in, if the scan of the active list does not find
    the shared target the cursor is unset afterwards, and the call
    returns normally when the shared state has no fix to draw. *)
Theorem cursor_tracks_target
    {Obj DateTime : Type} `{!CatalogObject Obj} `{!Astrometry DateTime}
    (init self : UILocate Obj) :
  target_index init = None ->
  reachable init self ->
  cursor_invariant self
  /\ forall (stale : UILocate Obj) (shared_state : SharedState DateTime),
       (forall t, target (ui_state stale) = Some t ->
                  t ∉ active_list (ui_state stale)) ->
       target_index (exec (active shared_state) stale) = None
       /\ (location shared_state = None \/ datetime shared_state = None
             \/ solution shared_state = None ->
           eval (active shared_state) stale = Ok tt).
Proof.
  intros Hinit Hreach. split.
  - induction Hreach as [|s op _ IH|s elsewhere shared_state _ _].
    + apply cursor_invariant_unset, Hinit.
    + apply run_invariant, IH.
    + apply active_invariant.
  - intros stale shared_state Habsent. split; [|apply active_returns].
    rewrite active_exec.
    match goal with |- context [exec (update shared_state) ?s] =>
      destruct (update_same_lists shared_state s) as (_ & -> & _) end.
    simpl. destruct (target (ui_state stale)) as [t|]; [|reflexivity].
    apply index_None, Habsent. reflexivity.
Qed.

Lemma cursor_tracks_target_after_reentry :
  let init := Sample.screen [Sample.m31] [Sample.m31] [Sample.m33; Sample.m42]
                (Some Sample.m31) in
  let self :=
    exec (active Sample.no_fix)
      (set_target (Some Sample.m42) (exec (run OpKeyB) init)) in
  cursor_invariant self
  /\ forall (stale : UILocate Sample.Object) (shared_state : SharedState Z),
       (forall t, target (ui_state stale) = Some t ->
                  t ∉ active_list (ui_state stale)) ->
       target_index (exec (active shared_state) stale) = None
       /\ (location shared_state = None \/ datetime shared_state = None
             \/ solution shared_state = None ->
           eval (active shared_state) stale = Ok tt).
Proof.
  exact (cursor_tracks_target
           (Sample.screen [Sample.m31] [Sample.m31] [Sample.m33; Sample.m42]
              (Some Sample.m31))
           _ eq_refl
           (reachable_reenter _ _
              (fun u =>
                 {| active_list := active_list u;
                    history_list := history_list u;
                    observing_list := observing_list u;
                    target := Some Sample.m42 |})
              Sample.no_fix
              (reachable_step _ _ OpKeyB (reachable_init _)))).
Defined.

(** C3 (as stated).  A refused switch does not leave the cursor as it was:
    with the history active, the cursor on its only entry and an empty
    observing list, [key_b] unsets the cursor. *)
Lemma key_b_refused_unsets_cursor :
  let self :=
    set_target_index (Some 0%Z)
      (Sample.screen [Sample.m31] [Sample.m31] [] (Some Sample.m31)) in
  destination self = []
  /\ target_index self = Some 0%Z
  /\ target_index (exec key_b self) = None
  /\ target_index (exec key_b self) <> target_index self.
Proof. repeat split; discriminate. Qed.

(** C3 (amended).  For every starting state, a list switch whose
    destination list is empty is refused: the call returns normally, the
    active list (with the other lists and the shared target) is what it was
    before the call, the cursor index is unset, and the "No Obs List" /
    "No History" message is reported to the user. *)
Theorem key_b_empty_destination_refused
    {Obj : Type} `{!CatalogObject Obj} (self : UILocate Obj) :
  destination self = [] ->
  eval key_b self = Ok tt
  /\ active_list (ui_state (exec key_b self)) = active_list (ui_state self)
  /\ ui_state (exec key_b self) = ui_state self
  /\ target_index (exec key_b self) = None
  /\ messages (exec key_b self) = messages self ++ [no_such_list self].
Proof.
  intros Hd. unfold eval, exec. rewrite (key_b_refused self Hd).
  repeat split.
Qed.

Lemma key_b_empty_destination_refused_history :
  let self :=
    set_target_index (Some 0%Z)
      (Sample.screen [Sample.m31] [Sample.m31] [] (Some Sample.m31)) in
  eval key_b self = Ok tt
  /\ active_list (ui_state (exec key_b self)) = active_list (ui_state self)
  /\ ui_state (exec key_b self) = ui_state self
  /\ target_index (exec key_b self) = None
  /\ messages (exec key_b self) = messages self ++ [no_such_list self].
Proof.
  exact (key_b_empty_destination_refused
           (set_target_index (Some 0%Z)
              (Sample.screen [Sample.m31] [Sample.m31] [] (Some Sample.m31)))
           eq_refl).
Defined.

(** C7.  When [load_list] meets a retrieval error or a read that parsed to
    no object, it returns [False], reports "Err! ..." or "No matches", and
    leaves the observing list, the active list, the shared target and the
    cursor index as they were; a cancelled load changes none of them either;
    only a load that is neither changes them, to the loaded list with the
    cursor on its first entry. *)
Theorem load_list_failure_preserves_state
    {Obj : Type} `{!CatalogObject Obj}
    (read_list : string -> ReadResult Obj) (option : string)
    (self : UILocate Obj) :
  let loaded := read_list option in
  let self' := exec (load_list read_list option) self in
  (option <> "CANCEL" ->
   result loaded = "error" \/ catalog loaded = [] ->
   eval (load_list read_list option) self = Ok false
   /\ ui_state self' = ui_state self
   /\ target_index self' = target_index self
   /\ messages self' =
        messages self ++
          [if decide (result loaded = "error")
           then "Err! " +:+ message_ loaded else "No matches"])
  /\ (option = "CANCEL" ->
      eval (load_list read_list option) self = Ok false
      /\ ui_state self' = ui_state self
      /\ target_index self' = target_index self
      /\ messages self' = messages self)
  /\ (option <> "CANCEL" -> result loaded <> "error" -> catalog loaded <> [] ->
      eval (load_list read_list option) self = Ok true
      /\ observing_list (ui_state self') = catalog loaded
      /\ active_list (ui_state self') = catalog loaded
      /\ history_list (ui_state self') = history_list (ui_state self)
      /\ target_index self' = Some 0%Z
      /\ target (ui_state self') = head (catalog loaded)).
Proof.
  intros loaded self'. subst loaded self'. unfold eval, exec.
  split; [|split].
  - intros Hc Hfail.
    destruct (decide (result (read_list option) = "error")) as [He | He].
    + rewrite load_list_error by assumption. repeat split.
    + destruct Hfail as [He' | Hn]; [contradiction|].
      rewrite load_list_no_matches by assumption. repeat split.
  - intros ->. rewrite load_list_cancel. repeat split.
  - intros Hc He Hn.
    destruct (catalog (read_list option)) as [|x l] eqn:E; [done|].
    rewrite (load_list_loaded read_list option self x l) by assumption.
    repeat split.
Qed.

Lemma load_list_failure_preserves_state_unreadable :
  let read_list := fun _ : string =>
    {| result := "error"; message_ := "no file"; catalog := [];
       objects_parsed := 0 |} in
  let self :=
    set_target_index (Some 0%Z)
      (Sample.screen [Sample.m31] [Sample.m31] [] (Some Sample.m31)) in
  let self' := exec (load_list read_list "tonight") self in
  eval (load_list read_list "tonight") self = Ok false
  /\ ui_state self' = ui_state self
  /\ target_index self' = target_index self
  /\ messages self' = messages self ++ ["Err! no file"].
Proof.
  exact (proj1 (load_list_failure_preserves_state
                  (fun _ : string =>
                     {| result := "error"; message_ := "no file";
                        catalog := []; objects_parsed := 0 |})
                  "tonight"
                  (set_target_index (Some 0%Z)
                     (Sample.screen [Sample.m31] [Sample.m31] []
                        (Some Sample.m31))))
               ltac:(discriminate) (or_introl eq_refl)).
Defined.

(** C8 (as stated).  An empty list can be written: with a non-empty active
    list and an empty history, saving the history issues a write of the
    empty list and reports success. *)
Lemma save_list_writes_empty_history :
  let self :=
    Sample.screen [Sample.m31] [] [Sample.m31] (Some Sample.m31) in
  history_list (ui_state self) = []
  /\ eval (save_list "History") self = Ok true
  /\ written (exec (save_list "History") self) = [([], "LOC_History_03")]
  /\ messages (exec (save_list "History") self) = ["Saved list - 03"].
Proof. repeat split. Qed.

(** C8 (amended).  For every scope in {History, Observ}, [save_list] fails
    with the "No objects" message, and issues no write, when the active
    list is empty (whichever scope was chosen); otherwise it writes exactly
    the list selected by the scope (the history for History, the observing
    list otherwise) and reports success. *)
Theorem save_list_guarded_by_active_list
    {Obj : Type} (option : string) (self : UILocate Obj) :
  option = "History" \/ option = "Observ" ->
  let self' := exec (save_list option) self in
  (active_list (ui_state self) = [] ->
   eval (save_list option) self = Ok false
   /\ written self' = written self
   /\ messages self' = messages self ++ ["No objects"]
   /\ ui_state self' = ui_state self
   /\ target_index self' = target_index self)
  /\ (active_list (ui_state self) <> [] ->
      eval (save_list option) self = Ok true
      /\ written self' =
           written self ++
             [(if decide (option = "History")
               then history_list (ui_state self)
               else observing_list (ui_state self),
               uuid self +:+ "_" +:+ option +:+ "_"
                 +:+ fmt_02d (ss_count self))]
      /\ messages self' =
           messages self ++ ["Saved list - " +:+ fmt_02d (ss_count self)]
      /\ ui_state self' = ui_state self
      /\ target_index self' = target_index self).
Proof.
  intros Hscope self'. subst self'. unfold eval, exec.
  assert (Hc : option <> "CANCEL") by (destruct Hscope as [-> | ->]; discriminate).
  split; intros Ha.
  - rewrite save_list_no_objects by assumption. repeat split.
  - rewrite save_list_saved by assumption. repeat split.
Qed.

Lemma save_list_guarded_by_active_list_observing :
  let self :=
    Sample.screen [Sample.m31] [Sample.m33] [Sample.m31] (Some Sample.m31) in
  let self' := exec (save_list "Observ") self in
  eval (save_list "Observ") self = Ok true
  /\ written self' = [([Sample.m31], "LOC_Observ_03")]
  /\ messages self' = ["Saved list - 03"]
  /\ ui_state self' = ui_state self
  /\ target_index self' = target_index self.
Proof.
  exact (proj2 (save_list_guarded_by_active_list "Observ"
                  (Sample.screen [Sample.m31] [Sample.m33] [Sample.m31]
                     (Some Sample.m31))
                  (or_intror eq_refl))
               ltac:(discriminate)).
Defined.

(** ** Scrolling at and between the ends *)
Section Scrolling.
Context {Obj DateTime : Type}.
Context `{!CatalogObject Obj} `{!Astrometry DateTime}.
Implicit Types (self : UILocate Obj) (shared_state : SharedState DateTime).

(** Scrolling any number of times in one direction from an end. *)
Lemma scroll_at_end_repeated direction i self
    (presses : list (SharedState DateTime)) :
  target_index self = Some i ->
  (0 < len (active_list (ui_state self)))%Z ->
  clamp (len (active_list (ui_state self))) (i + direction) = i ->
  let self' :=
    foldl (fun s sh => exec (scroll_target_history sh direction) s)
      self presses in
  target_index self' = Some i
  /\ active_list (ui_state self') = active_list (ui_state self).
Proof.
  revert self. induction presses as [|sh presses IH]; intros self Hi Hn Hc.
  - split; [exact Hi | reflexivity].
  - cbn [foldl].
    destruct (scroll_result sh direction self i Hi Hn)
      as (Hidx & Hact & _). rewrite Hc in Hidx.
    destruct (IH (exec (scroll_target_history sh direction) self))
      as [H1 H2]; rewrite ?Hact; auto.
    split; [exact H1 | congruence].
Qed.

End Scrolling.

(** C9.  When the cursor is set (on an index of the active list), a scroll
    by +1 or -1 moves it to the index clamped to [0, len(active_list) - 1]:
    by exactly one position from an interior index, and not at all by +1
    from the last index or by -1 from index 0, however often the key is
    pressed there; the cursor never wraps around. *)
Theorem scroll_target_history_clamped
    {Obj DateTime : Type} `{!CatalogObject Obj} `{!Astrometry DateTime}
    (self : UILocate Obj) (i : Z) :
  target_index self = Some i ->
  let n := len (active_list (ui_state self)) in
  (0 <= i < n)%Z ->
  (forall (shared_state : SharedState DateTime) (direction : Z),
     direction = 1%Z \/ direction = (-1)%Z ->
     let self' := exec (scroll_target_history shared_state direction) self in
     target_index self' = Some (Z.max 0 (Z.min (n - 1) (i + direction)))
     /\ active_list (ui_state self') = active_list (ui_state self)
     /\ ((0 < i < n - 1)%Z -> target_index self' = Some (i + direction)%Z))
  /\ (forall presses : list (SharedState DateTime),
        i = (n - 1)%Z ->
        target_index (foldl (fun s sh => exec (key_down sh) s) self presses)
        = Some i)
  /\ (forall presses : list (SharedState DateTime),
        i = 0%Z ->
        target_index (foldl (fun s sh => exec (key_up sh) s) self presses)
        = Some i).
Proof.
  intros Hi n Hrange.
  assert (Hn : (0 < len (active_list (ui_state self)))%Z) by (fold n; lia).
  split; [|split].
  - intros shared_state direction Hd self'.
    destruct (scroll_result shared_state direction self i Hi Hn)
      as (Hidx & Hact & _).
    fold self' in Hidx, Hact. fold n in Hidx.
    rewrite clamp_max_min in Hidx by lia.
    split; [exact Hidx|]. split; [exact Hact|].
    intros Hin. rewrite Hidx. f_equal. lia.
  - intros presses Hlast. unfold key_down.
    apply (scroll_at_end_repeated 1 i self presses Hi Hn).
    fold n. rewrite clamp_max_min by lia. lia.
  - intros presses Hfirst. unfold key_up.
    apply (scroll_at_end_repeated (-1) i self presses Hi Hn).
    fold n. rewrite clamp_max_min by lia. lia.
Qed.

Lemma scroll_target_history_clamped_three :
  let self :=
    set_target_index (Some 1%Z)
      (Sample.screen [Sample.m31; Sample.m33; Sample.m42]
         [Sample.m31; Sample.m33; Sample.m42] [] (Some Sample.m33)) in
  let n := len (active_list (ui_state self)) in
  (forall (shared_state : SharedState Z) (direction : Z),
     direction = 1%Z \/ direction = (-1)%Z ->
     let self' := exec (scroll_target_history shared_state direction) self in
     target_index self' = Some (Z.max 0 (Z.min (n - 1) (1 + direction)))
     /\ active_list (ui_state self') = active_list (ui_state self)
     /\ ((0 < 1 < n - 1)%Z -> target_index self' = Some (1 + direction)%Z))
  /\ (forall presses : list (SharedState Z),
        1%Z = (n - 1)%Z ->
        target_index (foldl (fun s sh => exec (key_down sh) s) self presses)
        = Some 1%Z)
  /\ (forall presses : list (SharedState Z),
        1%Z = 0%Z ->
        target_index (foldl (fun s sh => exec (key_up sh) s) self presses)
        = Some 1%Z).
Proof.
  exact (scroll_target_history_clamped
           (set_target_index (Some 1%Z)
              (Sample.screen [Sample.m31; Sample.m33; Sample.m42]
                 [Sample.m31; Sample.m33; Sample.m42] [] (Some Sample.m33)))
           1%Z eq_refl ltac:(vm_compute; split; [discriminate | reflexivity])).
Defined.

(** ** The designator ([UICatalog.key_number]) *)
Section Designator.
Import Catalog.
Variable OBJ_TYPES : string -> option string.
Implicit Types (self : UICatalog) (buffer pre rest : list string).

Lemma setitem_middle {A} (pre : list A) (x y : A) (rest : list A) :
  setitem (pre ++ x :: rest) (len pre) y = Ok (pre ++ y :: rest).
Proof.
  unfold setitem, len. rewrite length_app. cbn [length].
  destruct (Z.ltb_spec (Z.of_nat (length pre)) 0); [lia|].
  destruct (Z.leb_spec 0 (Z.of_nat (length pre))); [|lia].
  destruct (Z.ltb_spec (Z.of_nat (length pre))
              (Z.of_nat (length pre + S (length rest)))); [|lia].
  simpl. rewrite Nat2Z.id. rewrite insert_app_r_alt by lia.
  rewrite Nat.sub_diag. reflexivity.
Qed.

Lemma getitem_middle {A} (pre : list A) (x : A) (rest : list A) :
  getitem (pre ++ x :: rest) (len pre) = Ok x.
Proof.
  destruct (getitem_in_range (pre ++ x :: rest) (len pre)) as (y & -> & Hy).
  - unfold len. rewrite length_app. cbn [length]. lia.
  - unfold len in Hy. rewrite Nat2Z.id, list_lookup_middle in Hy by reflexivity.
    congruence.
Qed.

Lemma len_app_one {A} (pre : list A) (x : A) :
  (len pre + 1)%Z = len (pre ++ [x]).
Proof. unfold len. rewrite length_app. cbn [length]. lia. Qed.

(** The loop, entered at a slot, overwrites that slot and the run of
    zeros and dashes after it; the fuel [key_number] gives it suffices. *)
Lemma collapse_loop_run rest :
  forall fuel pre x self,
    designator self = pre ++ x :: rest ->
    (length rest < fuel)%nat ->
    collapse_loop fuel (len pre) self =
      (Ok tt, set_designator (pre ++ "-" :: collapse_leading rest) self).
Proof.
  induction rest as [|x' rest IH]; intros fuel pre x self Hd Hfuel;
    (destruct fuel as [|fuel]; [lia|]); cbn [collapse_loop];
    unfold bind at 1; unfold get at 1;
    unfold bind at 1; unfold lift at 1; rewrite Hd, setitem_middle;
    unfold bind at 1; unfold modify at 1;
    unfold bind at 1; unfold get at 1; cbn [designator set_designator].
  - rewrite (len_app_one pre "-").
    destruct (Z.leb_spec (len (pre ++ ["-"])) (len (pre ++ ["-"]))); [|lia].
    reflexivity.
  - destruct (Z.leb_spec (len (pre ++ "-" :: x' :: rest)) (len pre + 1)) as [Hle|_].
    { unfold len in Hle. rewrite length_app in Hle. cbn [length] in Hle. lia. }
    unfold bind at 1. unfold lift at 1.
    rewrite (len_app_one pre "-").
    replace (pre ++ "-" :: x' :: rest) with ((pre ++ ["-"]) ++ x' :: rest)
      by (rewrite <- app_assoc; reflexivity).
    rewrite getitem_middle. cbn [collapse_leading].
    destruct (zero_or_dash x'); cbn [negb].
    + rewrite (IH fuel (pre ++ ["-"]) x').
      * cbn [set_designator designator catalog_index cat_object object_text conn].
        rewrite <- app_assoc. reflexivity.
      * reflexivity.
      * cbn [length] in Hfuel. lia.
    + rewrite <- app_assoc. reflexivity.
Qed.

Lemma catalog_letter_eq self :
  catalog_letter self = (letter_of (catalog_index self), self).
Proof.
  unfold catalog_letter, letter_of, bind, get, lift.
  destruct (getitem __catalogs (catalog_index self)); reflexivity.
Qed.

Lemma letter_of_valid (i : Z) :
  (0 <= i < 3)%Z -> exists code, letter_of i = Ok code.
Proof.
  intros Hi.
  assert (i = 0 \/ i = 1 \/ i = 2)%Z as [-> | [-> | ->]] by lia;
    eexists; reflexivity.
Qed.

(** [key_number] as one step: the buffer is pushed, then the exact
    match is looked up under the catalog letter. *)
Lemma key_number_eq number self :
  key_number OBJ_TYPES number self =
    let pushed := set_designator (push_digit (designator self) number) self in
    match letter_of (catalog_index self) with
    | Ok code =>
        update_object_text OBJ_TYPES
          (set_cat_object
             (fetchone
                (select_exact (conn self) code
                   (current_key (push_digit (designator self) number))))
             pushed)
    | Raise e => (Raise e, pushed)
    | OutOfFuel => (OutOfFuel, pushed)
    end.
Proof.
  unfold key_number, push_digit, shift_append.
  unfold bind at 1. unfold modify at 1.
  unfold bind at 1. unfold modify at 1.
  unfold bind at 1. unfold get at 1.
  cbn [designator set_designator].
  destruct (drop 1 (designator self) ++ [str number]) as [|x rest] eqn:E.
  { apply app_eq_nil in E as [_ [=]]. }
  unfold bind at 1. unfold lift at 1. rewrite getitem_first.
  cbn [collapse_leading].
  destruct (zero_or_dash x).
  - unfold bind at 1. change 0%Z with (len (@nil string)).
    rewrite (collapse_loop_run rest (length (x :: rest)) [] x);
      [| reflexivity | cbn [length]; lia].
    unfold bind at 1. unfold get at 1.
    unfold bind at 1. rewrite catalog_letter_eq.
    cbn [set_designator designator catalog_index cat_object object_text conn app].
    destruct (letter_of (catalog_index self)); try reflexivity.
  - unfold bind at 1. unfold ret at 1.
    unfold bind at 1. unfold get at 1.
    unfold bind at 1. rewrite catalog_letter_eq.
    cbn [set_designator designator catalog_index cat_object object_text conn app].
    destruct (letter_of (catalog_index self)); try reflexivity.
Qed.

Lemma update_object_text_catalog self :
  exists text,
    update_object_text OBJ_TYPES self = (Ok tt, set_object_text text self).
Proof.
  unfold update_object_text, bind, get, modify.
  destruct (cat_object self); eexists; reflexivity.
Qed.

Lemma key_number_designator number self :
  designator (exec (key_number OBJ_TYPES number) self)
  = push_digit (designator self) number.
Proof.
  unfold exec. rewrite key_number_eq. cbv zeta.
  destruct (letter_of (catalog_index self)); try reflexivity.
  match goal with |- context [update_object_text OBJ_TYPES ?s] =>
    destruct (update_object_text_catalog s) as [text ->] end.
  reflexivity.
Qed.

Lemma key_number_returns number self :
  (0 <= catalog_index self < 3)%Z ->
  eval (key_number OBJ_TYPES number) self = Ok tt.
Proof.
  intros Hi. unfold eval. rewrite key_number_eq. cbv zeta.
  destruct (letter_of_valid _ Hi) as [code ->].
  match goal with |- context [update_object_text OBJ_TYPES ?s] =>
    destruct (update_object_text_catalog s) as [text ->] end.
  reflexivity.
Qed.

(** [collapse_leading] replaces exactly the maximal leading run of slots
    that hold a zero or a dash. *)
Lemma collapse_leading_maximal_run buffer :
  exists run rest,
    buffer = run ++ rest
    /\ Forall (fun x => zero_or_dash x = true) run
    /\ (forall x, head rest = Some x -> zero_or_dash x = false)
    /\ collapse_leading buffer = replicate (length run) "-" ++ rest.
Proof.
  induction buffer as [|x buffer (run & rest & -> & Hrun & Hrest & IH)].
  - exists [], []. repeat split; [constructor | discriminate].
  - cbn [collapse_leading]. destruct (zero_or_dash x) eqn:Hx.
    + exists (x :: run), rest. rewrite IH. repeat split; auto.
    + exists [], (x :: run ++ rest). repeat split; [constructor|].
      intros y [= <-]. exact Hx.
Qed.

End Designator.

(** C4.  For every push of a number (in particular a digit 0-9) into a
    designator buffer, the buffer after [key_number] is the old buffer
    shifted left by one slot with the digit appended at the right, with its
    maximal leading run of slots holding "0" or "-" replaced by "-" up to
    the first slot that holds anything else; the call returns normally
    whenever the catalog index is one of the three catalogs; and pushing
    0, 0, 7 into a fresh width-4 buffer yields the key "7". *)
Theorem key_number_pushes_digit
    (OBJ_TYPES : string -> option string) (number : Z)
    (self : Catalog.UICatalog) :
  Catalog.designator (exec (Catalog.key_number OBJ_TYPES number) self)
  = Catalog.push_digit (Catalog.designator self) number
  /\ ((0 <= Catalog.catalog_index self < 3)%Z ->
      eval (Catalog.key_number OBJ_TYPES number) self = Ok tt)
  /\ (Catalog.designator self = replicate 4 "-" ->
      Catalog.current_key
        (Catalog.designator
           (exec (Catalog.key_number OBJ_TYPES 7)
              (exec (Catalog.key_number OBJ_TYPES 0)
                 (exec (Catalog.key_number OBJ_TYPES 0) self))))
      = "7").
Proof.
  split; [apply key_number_designator|].
  split; [apply key_number_returns|].
  intros Hfresh. rewrite !key_number_designator, Hfresh. reflexivity.
Qed.

Lemma key_number_pushes_digit_fresh :
  let self := Sample.search (replicate 4 "-") [] in
  Catalog.designator (exec (Catalog.key_number Sample.no_types 7) self)
  = ["-"; "-"; "-"; "7"]
  /\ eval (Catalog.key_number Sample.no_types 7) self = Ok tt
  /\ Catalog.current_key
       (Catalog.designator
          (exec (Catalog.key_number Sample.no_types 7)
             (exec (Catalog.key_number Sample.no_types 0)
                (exec (Catalog.key_number Sample.no_types 0) self))))
     = "7".
Proof.
  pose proof (key_number_pushes_digit Sample.no_types 7
                (Sample.search (replicate 4 "-") [])) as (H1 & H2 & H3).
  exact (conj H1 (conj (H2 ltac:(vm_compute; split; [discriminate | reflexivity]))
                       (H3 eq_refl))).
Defined.

(** ** The neighbour query ([UICatalog.scroll_obj]) *)
Section Neighbour.
Import Catalog.
Variable OBJ_TYPES : string -> option string.
Implicit Types (self : UICatalog) (r x y : Row) (l objects : list Row).

Lemma elem_of_insert_by (le : Row -> Row -> bool) x y l :
  y ∈ insert_by le x l <-> y = x \/ y ∈ l.
Proof.
  induction l as [|z l IH]; cbn [insert_by].
  - rewrite list_elem_of_singleton, elem_of_nil. tauto.
  - destruct (le x z).
    + rewrite elem_of_cons. tauto.
    + rewrite !elem_of_cons, IH. tauto.
Qed.

Lemma elem_of_sort_by (le : Row -> Row -> bool) y l :
  y ∈ sort_by le l <-> y ∈ l.
Proof.
  induction l as [|x l IH]; [reflexivity|].
  cbn [sort_by foldr]. fold (sort_by le l).
  rewrite elem_of_insert_by, elem_of_cons, IH. tauto.
Qed.

(** The first row of a sorted result is below every row of the input. *)
Lemma head_sort_by_least (le : Row -> Row -> bool) :
  (forall x y, le x y = true \/ le y x = true) ->
  (forall x y z, le x y = true -> le y z = true -> le x z = true) ->
  forall l h, head (sort_by le l) = Some h ->
    h ∈ l /\ forall y, y ∈ l -> le h y = true.
Proof.
  intros Htotal Htrans l h Hh. split.
  { apply (elem_of_sort_by le). destruct (sort_by le l); [discriminate|].
    injection Hh as ->. apply elem_of_cons. auto. }
  revert h Hh. induction l as [|x l IH]; intros h Hh y Hy.
  { apply elem_of_nil in Hy as []. }
  cbn [sort_by foldr] in Hh. fold (sort_by le l) in Hh.
  assert (Hrefl : forall z, le z z = true) by (intros z; destruct (Htotal z z); auto).
  destruct (sort_by le l) as [|h' s] eqn:Es.
  - injection Hh as <-. apply elem_of_cons in Hy as [-> | Hy]; [auto|].
    apply (elem_of_sort_by le) in Hy. rewrite Es in Hy.
    apply elem_of_nil in Hy as [].
  - cbn [insert_by] in Hh. destruct (le x h') eqn:Hle.
    + injection Hh as <-. apply elem_of_cons in Hy as [-> | Hy]; [auto|].
      eapply Htrans; [exact Hle|]. apply IH; [reflexivity | exact Hy].
    + injection Hh as <-. apply elem_of_cons in Hy as [-> | Hy].
      * destruct (Htotal x h') as [H | H]; [congruence | exact H].
      * apply IH; [reflexivity | exact Hy].
Qed.

Lemma sort_by_nil (le : Row -> Row -> bool) l : sort_by le l = [] -> l = [].
Proof.
  destruct l as [|x l]; [reflexivity|]. intros E.
  assert (H : x ∈ sort_by le (x :: l)) by (apply elem_of_sort_by, elem_of_cons; auto).
  rewrite E in H. apply elem_of_nil in H as [].
Qed.

Lemma head_ascending l h :
  head (order_by_designation EmptyString l) = Some h ->
  h ∈ l /\ forall y, y ∈ l -> (designation h <= designation y)%Z.
Proof.
  unfold order_by_designation. rewrite decide_False by discriminate.
  intros Hh. apply head_sort_by_least in Hh as [Hin Hle].
  - split; [exact Hin|]. intros y Hy. apply Z.leb_le, Hle, Hy.
  - intros x y. rewrite !Z.leb_le. lia.
  - intros x y z. rewrite !Z.leb_le. lia.
Qed.

Lemma head_descending l h :
  head (order_by_designation "desc" l) = Some h ->
  h ∈ l /\ forall y, y ∈ l -> (designation y <= designation h)%Z.
Proof.
  unfold order_by_designation. rewrite decide_True by reflexivity.
  intros Hh. apply head_sort_by_least in Hh as [Hin Hle].
  - split; [exact Hin|]. intros y Hy. apply Z.leb_le, Hle, Hy.
  - intros x y. rewrite !Z.leb_le. lia.
  - intros x y z. rewrite !Z.leb_le. lia.
Qed.

Lemma head_order_None sort_order l :
  head (order_by_designation sort_order l) = None -> l = [].
Proof.
  unfold order_by_designation.
  destruct (decide (sort_order = "desc")); intros H;
    eapply sort_by_nil; destruct (sort_by _ l) eqn:E; try discriminate;
    exact E.
Qed.

Lemma scroll_obj_eq direction sort_order cmp code self :
  sort_order = (if decide (direction = "<") then "desc" else EmptyString) ->
  sql_operator direction = Ok cmp ->
  letter_of (catalog_index self) = Ok code ->
  let rows :=
    order_by_designation sort_order
      (filter (fun r => catalog r = code
                        /\ cmp (designation r)
                               (current_key (designator self)) = true)
              (conn self)) in
  scroll_obj OBJ_TYPES direction self =
    match fetchone rows with
    | Some r => update_object_text OBJ_TYPES (adopted r self)
    | None => (Ok tt, self)
    end.
Proof.
  intros -> Hop Hcode rows. subst rows. unfold scroll_obj.
  unfold bind at 1. unfold get at 1.
  unfold bind at 1. rewrite catalog_letter_eq, Hcode.
  unfold bind at 1. unfold lift at 1. unfold select_neighbor.
  rewrite Hop. fold (current_key (designator self)).
  destruct (fetchone _) as [r|]; reflexivity.
Qed.

Lemma sql_gt_numeric (d k : Z) key :
  sql_numeric key = Some k -> sql_gt d key = true <-> (k < d)%Z.
Proof. intros E. unfold sql_gt. rewrite E, Z.gtb_ltb, Z.ltb_lt. reflexivity. Qed.

Lemma sql_lt_numeric (d k : Z) key :
  sql_numeric key = Some k -> sql_lt d key = true <-> (d < k)%Z.
Proof. intros E. unfold sql_lt. rewrite E, Z.ltb_lt. reflexivity. Qed.

Lemma adopted_cat_object r self :
  eval (update_object_text OBJ_TYPES) (adopted r self) = Ok tt
  /\ cat_object (exec (update_object_text OBJ_TYPES) (adopted r self)) = Some r.
Proof.
  unfold eval, exec.
  destruct (update_object_text_catalog OBJ_TYPES (adopted r self)) as [text ->].
  split; reflexivity.
Qed.

Lemma key_down_neighbour self code k :
  letter_of (catalog_index self) = Ok code ->
  sql_numeric (current_key (designator self)) = Some k ->
  (exists r,
     smallest_above (conn self) code k r
     /\ key_down OBJ_TYPES self = update_object_text OBJ_TYPES (adopted r self))
  \/ ((forall r, r ∈ conn self -> catalog r = code -> ~ (k < designation r)%Z)
      /\ key_down OBJ_TYPES self = (Ok tt, self)).
Proof.
  intros Hcode Hkey. unfold key_down.
  rewrite (scroll_obj_eq ">" EmptyString sql_gt code self eq_refl eq_refl Hcode).
  cbv zeta. unfold fetchone.
  destruct (head _) as [r|] eqn:Hh.
  - left. exists r. split; [|reflexivity].
    apply head_ascending in Hh as [Hin Hle].
    apply list_elem_of_filter in Hin as [[Hc Hgt] Hin].
    apply (sql_gt_numeric _ k) in Hgt; [|exact Hkey].
    repeat split; auto.
    intros r' Hin' Hc' Hgt'. apply Hle, list_elem_of_filter.
    split; [split; [exact Hc' | apply (sql_gt_numeric _ k); assumption]
           | exact Hin'].
  - right. split; [|reflexivity].
    apply head_order_None in Hh. intros r Hin Hc Hgt.
    assert (H : r ∈ @nil Row); [|apply elem_of_nil in H as []].
    rewrite <- Hh. apply list_elem_of_filter.
    split; [split; [exact Hc | apply (sql_gt_numeric _ k); assumption]
           | exact Hin].
Qed.

Lemma key_up_neighbour self code k :
  letter_of (catalog_index self) = Ok code ->
  sql_numeric (current_key (designator self)) = Some k ->
  (exists r,
     largest_below (conn self) code k r
     /\ key_up OBJ_TYPES self = update_object_text OBJ_TYPES (adopted r self))
  \/ ((forall r, r ∈ conn self -> catalog r = code -> ~ (designation r < k)%Z)
      /\ key_up OBJ_TYPES self = (Ok tt, self)).
Proof.
  intros Hcode Hkey. unfold key_up.
  rewrite (scroll_obj_eq "<" "desc" sql_lt code self eq_refl eq_refl Hcode).
  cbv zeta. unfold fetchone.
  destruct (head _) as [r|] eqn:Hh.
  - left. exists r. split; [|reflexivity].
    apply head_descending in Hh as [Hin Hle].
    apply list_elem_of_filter in Hin as [[Hc Hlt] Hin].
    apply (sql_lt_numeric _ k) in Hlt; [|exact Hkey].
    repeat split; auto.
    intros r' Hin' Hc' Hlt'. apply Hle, list_elem_of_filter.
    split; [split; [exact Hc' | apply (sql_lt_numeric _ k); assumption]
           | exact Hin'].
  - right. split; [|reflexivity].
    apply head_order_None in Hh. intros r Hin Hc Hlt.
    assert (H : r ∈ @nil Row); [|apply elem_of_nil in H as []].
    rewrite <- Hh. apply list_elem_of_filter.
    split; [split; [exact Hc | apply (sql_lt_numeric _ k); assumption]
           | exact Hin].
Qed.

End Neighbour.

(** C6.  Over a catalog ordered numerically by designation, with a current
    key that reads as the number [k]: scrolling forward ([key_down]) adopts
    a row of the active catalog whose designation is the smallest one
    strictly greater than [k], scrolling backward ([key_up]) one whose
    designation is the largest one strictly less than [k]; when there is no
    such row nothing changes.  In a catalog with designations 1, 5 and 9
    under code N, forward from key "5" yields designation 9 and backward
    yields designation 1. *)
Theorem scroll_obj_neighbour
    (OBJ_TYPES : string -> option string) (self : Catalog.UICatalog)
    (code : string) (k : Z) :
  Catalog.letter_of (Catalog.catalog_index self) = Ok code ->
  Catalog.sql_numeric (Catalog.current_key (Catalog.designator self)) = Some k ->
  ((exists r,
      Catalog.smallest_above (Catalog.conn self) code k r
      /\ eval (Catalog.key_down OBJ_TYPES) self = Ok tt
      /\ Catalog.cat_object (exec (Catalog.key_down OBJ_TYPES) self) = Some r)
   \/ ((forall r, r ∈ Catalog.conn self -> Catalog.catalog r = code ->
                  ~ (k < Catalog.designation r)%Z)
       /\ Catalog.key_down OBJ_TYPES self = (Ok tt, self)))
  /\ ((exists r,
         Catalog.largest_below (Catalog.conn self) code k r
         /\ eval (Catalog.key_up OBJ_TYPES) self = Ok tt
         /\ Catalog.cat_object (exec (Catalog.key_up OBJ_TYPES) self) = Some r)
      \/ ((forall r, r ∈ Catalog.conn self -> Catalog.catalog r = code ->
                     ~ (Catalog.designation r < k)%Z)
          /\ Catalog.key_up OBJ_TYPES self = (Ok tt, self)))
  /\ (let typed :=
        exec (Catalog.key_number OBJ_TYPES 5)
          (Sample.search (replicate 4 "-")
             [Sample.ngc 9; Sample.ngc 1; Sample.ngc 5]) in
      Catalog.current_key (Catalog.designator typed) = "5"
      /\ Catalog.designation
           <$> Catalog.cat_object (exec (Catalog.key_down OBJ_TYPES) typed)
         = Some 9%Z
      /\ Catalog.designation
           <$> Catalog.cat_object (exec (Catalog.key_up OBJ_TYPES) typed)
         = Some 1%Z).
Proof.
  intros Hcode Hkey. split; [|split].
  - destruct (key_down_neighbour OBJ_TYPES self code k Hcode Hkey)
      as [(r & Hr & E) | [Hnone E]]; [left | right; auto].
    exists r. split; [exact Hr|]. unfold eval, exec. rewrite E.
    apply adopted_cat_object.
  - destruct (key_up_neighbour OBJ_TYPES self code k Hcode Hkey)
      as [(r & Hr & E) | [Hnone E]]; [left | right; auto].
    exists r. split; [exact Hr|]. unfold eval, exec. rewrite E.
    apply adopted_cat_object.
  - repeat split.
Qed.

Lemma scroll_obj_neighbour_ngc5 :
  let self :=
    exec (Catalog.key_number Sample.no_types 5)
      (Sample.search (replicate 4 "-")
         [Sample.ngc 9; Sample.ngc 1; Sample.ngc 5]) in
  ((exists r,
      Catalog.smallest_above (Catalog.conn self) "N" 5 r
      /\ eval (Catalog.key_down Sample.no_types) self = Ok tt
      /\ Catalog.cat_object (exec (Catalog.key_down Sample.no_types) self)
         = Some r)
   \/ ((forall r, r ∈ Catalog.conn self -> Catalog.catalog r = "N" ->
                  ~ (5 < Catalog.designation r)%Z)
       /\ Catalog.key_down Sample.no_types self = (Ok tt, self)))
  /\ ((exists r,
         Catalog.largest_below (Catalog.conn self) "N" 5 r
         /\ eval (Catalog.key_up Sample.no_types) self = Ok tt
         /\ Catalog.cat_object (exec (Catalog.key_up Sample.no_types) self)
            = Some r)
      \/ ((forall r, r ∈ Catalog.conn self -> Catalog.catalog r = "N" ->
                     ~ (Catalog.designation r < 5)%Z)
          /\ Catalog.key_up Sample.no_types self = (Ok tt, self))).
Proof.
  pose proof (scroll_obj_neighbour Sample.no_types
                (exec (Catalog.key_number Sample.no_types 5)
                   (Sample.search (replicate 4 "-")
                      [Sample.ngc 9; Sample.ngc 1; Sample.ngc 5]))
                "N" 5%Z eq_refl eq_refl) as (Hdown & Hup & _).
  exact (conj Hdown Hup).
Defined.

(** * Further properties of the Locate screen *)

Section LocateMore.
Context {Obj DateTime : Type}.
Context `{!CatalogObject Obj} `{!Astrometry DateTime}.
Implicit Types (self : UILocate Obj) (shared_state : SharedState DateTime).

Lemma last_at_len (l : list Obj) : l !! Z.to_nat (len l - 1) = last l.
Proof.
  rewrite last_lookup. unfold len. f_equal.
  destruct l; cbn [length]; lia.
Qed.

(** [seq.index(x)] is the position of the first occurrence. *)
Lemma index_least (l : list Obj) (x : Obj) (i : Z) :
  index l x = Some i ->
  forall j, (j < Z.to_nat i)%nat -> l !! j <> Some x.
Proof.
  revert i. induction l as [|y l IH]; intros i; simpl; [discriminate|].
  destruct (decide (y = x)) as [->|Hne].
  - intros [= <-] j Hj. simpl in Hj. lia.
  - destruct (index l x) as [k|] eqn:Ek; simpl; [|discriminate].
    intros [= <-] j Hj. destruct (index_Some l x k Ek) as [Hk _].
    rewrite Z2Nat.inj_succ in Hj by lia.
    destruct j as [|j]; simpl; [congruence|]. apply (IH k eq_refl). lia.
Qed.

Lemma index_found (l : list Obj) (x : Obj) :
  x ∈ l -> exists i, index l x = Some i.
Proof.
  intros Hx. destruct (index l x) as [i|] eqn:E; [eauto|].
  apply index_None in E. contradiction.
Qed.

End LocateMore.

(** X1.  A switch whose destination list is not empty succeeds without a
    message: the destination becomes the active list, no list changes, and
    the cursor and the shared target go to the first entry when switching
    to the observing list and to the last entry when switching to the
    history. *)
Theorem key_b_switches
    {Obj : Type} `{!CatalogObject Obj} (self : UILocate Obj) :
  destination self <> [] ->
  let self' := exec key_b self in
  eval key_b self = Ok tt
  /\ active_list (ui_state self') = destination self
  /\ history_list (ui_state self') = history_list (ui_state self)
  /\ observing_list (ui_state self') = observing_list (ui_state self)
  /\ messages self' = messages self
  /\ (active_list (ui_state self) = history_list (ui_state self) ->
      target_index self' = Some 0%Z
      /\ target (ui_state self') = head (observing_list (ui_state self)))
  /\ (active_list (ui_state self) <> history_list (ui_state self) ->
      target_index self' = Some (len (history_list (ui_state self)) - 1)%Z
      /\ target (ui_state self') = last (history_list (ui_state self))).
Proof.
  intros Hd self'. subst self'. unfold destination in *. unfold eval, exec.
  destruct (decide (active_list (ui_state self) = history_list (ui_state self)))
    as [Ha | Ha].
  - destruct (observing_list (ui_state self)) as [|x l] eqn:Ho; [done|].
    rewrite (key_b_to_observing self x l Ha Ho). simpl.
    repeat split; auto; contradiction.
  - destruct (key_b_to_history self Ha Hd) as (t & Hlook & ->). simpl.
    rewrite last_at_len in Hlook.
    repeat split; auto; contradiction.
Qed.

Lemma key_b_switches_to_observing :
  let self :=
    Sample.screen [Sample.m31] [Sample.m31] [Sample.m33; Sample.m42]
      (Some Sample.m31) in
  let self' := exec key_b self in
  eval key_b self = Ok tt
  /\ active_list (ui_state self') = [Sample.m33; Sample.m42]
  /\ target_index self' = Some 0%Z
  /\ target (ui_state self') = Some Sample.m33.
Proof.
  pose proof (@key_b_switches _ Sample.Object_catalog_object
                (Sample.screen [Sample.m31] [Sample.m31]
                   [Sample.m33; Sample.m42] (Some Sample.m31))
                ltac:(vm_compute; discriminate)) as (H1 & H2 & _ & _ & _ & H3 & _).
  exact (conj H1 (conj H2 (H3 eq_refl))).
Defined.

(** X2.  When the history and the observing list are both non-empty and
    differ, pressing B twice comes back to the list that was active (one of
    the two), with the cursor on the last entry of the history or on the
    first entry of the observing list. *)
Theorem key_b_twice_returns
    {Obj : Type} `{!CatalogObject Obj} (self : UILocate Obj) :
  history_list (ui_state self) <> observing_list (ui_state self) ->
  history_list (ui_state self) <> [] ->
  observing_list (ui_state self) <> [] ->
  active_list (ui_state self) = history_list (ui_state self)
    \/ active_list (ui_state self) = observing_list (ui_state self) ->
  let self'' := exec key_b (exec key_b self) in
  active_list (ui_state self'') = active_list (ui_state self)
  /\ target_index self'' =
       Some (if decide (active_list (ui_state self)
                        = history_list (ui_state self))
             then (len (history_list (ui_state self)) - 1)%Z else 0%Z).
Proof.
  intros Hne Hh Ho Hact self''. subst self''. unfold exec.
  destruct (decide (active_list (ui_state self) = history_list (ui_state self)))
    as [Ha | Ha].
  - destruct (observing_list (ui_state self)) as [|x l] eqn:Eo; [done|].
    rewrite (key_b_to_observing self x l Ha Eo). cbn [snd].
    match goal with |- context [key_b ?s] =>
      destruct (key_b_to_history s) as (t & _ & ->) end; simpl; auto.
  - destruct Hact as [Hact | Hact]; [contradiction|].
    destruct (key_b_to_history self Ha Hh) as (t & _ & ->). cbn [snd].
    destruct (observing_list (ui_state self)) as [|x l] eqn:Eo; [done|].
    match goal with |- context [key_b ?s] =>
      rewrite (key_b_to_observing s x l) end; simpl; auto.
Qed.

Lemma key_b_twice_returns_history :
  let self :=
    Sample.screen [Sample.m31; Sample.m33] [Sample.m31; Sample.m33]
      [Sample.m42] (Some Sample.m31) in
  let self'' := exec key_b (exec key_b self) in
  active_list (ui_state self'') = [Sample.m31; Sample.m33]
  /\ target_index self'' = Some 1%Z.
Proof.
  exact (@key_b_twice_returns _ Sample.Object_catalog_object
           (Sample.screen [Sample.m31; Sample.m33] [Sample.m31; Sample.m33]
              [Sample.m42] (Some Sample.m31))
           ltac:(vm_compute; discriminate) ltac:(vm_compute; discriminate) ltac:(vm_compute; discriminate)
           (or_introl eq_refl)).
Defined.

(** X3.  The active list is recognised by comparing contents, so when the
    observing list has the same entries as a non-empty history, B always
    takes the branch that leaves the history: from the second press on the
    cursor is on the first entry, never on the last one. *)
Theorem key_b_equal_lists
    {Obj : Type} `{!CatalogObject Obj} (self : UILocate Obj) :
  history_list (ui_state self) = observing_list (ui_state self) ->
  history_list (ui_state self) <> [] ->
  let self'' := exec key_b (exec key_b self) in
  target_index self'' = Some 0%Z
  /\ active_list (ui_state self'') = observing_list (ui_state self)
  /\ target (ui_state self'') = head (observing_list (ui_state self)).
Proof.
  intros Heq Hh self''. subst self''. unfold exec.
  destruct (observing_list (ui_state self)) as [|x l] eqn:Eo; [done|].
  destruct (decide (active_list (ui_state self) = history_list (ui_state self)))
    as [Ha | Ha].
  - rewrite (key_b_to_observing self x l Ha Eo). cbn [snd].
    match goal with |- context [key_b ?s] =>
      rewrite (key_b_to_observing s x l) end; simpl; auto.
  - destruct (key_b_to_history self Ha Hh) as (t & _ & ->). cbn [snd].
    match goal with |- context [key_b ?s] =>
      rewrite (key_b_to_observing s x l) end; simpl; auto.
Qed.

Lemma key_b_equal_lists_sample :
  let self :=
    Sample.screen [Sample.m31; Sample.m33] [Sample.m31; Sample.m33]
      [Sample.m31; Sample.m33] (Some Sample.m33) in
  let self'' := exec key_b (exec key_b self) in
  target_index self'' = Some 0%Z
  /\ active_list (ui_state self'') = [Sample.m31; Sample.m33]
  /\ target (ui_state self'') = Some Sample.m31.
Proof.
  exact (@key_b_equal_lists _ Sample.Object_catalog_object
           (Sample.screen [Sample.m31; Sample.m33] [Sample.m31; Sample.m33]
              [Sample.m31; Sample.m33] (Some Sample.m33))
           eq_refl ltac:(vm_compute; discriminate)).
Defined.

(** X4.  After a refused switch the cursor is unset, so the up and down
    keys do nothing at all (no move, no redraw, no error) until the screen
    is entered again; the shared target stays what it was. *)
Theorem scroll_dead_after_refused_switch
    {Obj DateTime : Type} `{!CatalogObject Obj} `{!Astrometry DateTime}
    (self : UILocate Obj) (shared_state : SharedState DateTime) :
  destination self = [] ->
  key_up shared_state (exec key_b self) = (Ok tt, exec key_b self)
  /\ key_down shared_state (exec key_b self) = (Ok tt, exec key_b self)
  /\ target (ui_state (exec key_b self)) = target (ui_state self).
Proof.
  intros Hd. unfold key_up, key_down, exec.
  rewrite (key_b_refused self Hd). cbn [snd].
  repeat split; apply scroll_unset; reflexivity.
Qed.

Lemma scroll_dead_after_refused_switch_sample :
  let self :=
    set_target_index (Some 0%Z)
      (Sample.screen [Sample.m31] [Sample.m31] [] (Some Sample.m31)) in
  key_up Sample.no_fix (exec key_b self) = (Ok tt, exec key_b self)
  /\ key_down Sample.no_fix (exec key_b self) = (Ok tt, exec key_b self)
  /\ target (ui_state (exec key_b self)) = target (ui_state self).
Proof.
  exact (scroll_dead_after_refused_switch
           (set_target_index (Some 0%Z)
              (Sample.screen [Sample.m31] [Sample.m31] [] (Some Sample.m31)))
           Sample.no_fix eq_refl).
Defined.

(** X5.  On entering the screen with a target that is in the active list,
    the cursor is put on the first entry equal to the target: no earlier
    entry equals it, even when the list holds the target more than once. *)
Theorem active_finds_first_occurrence
    {Obj DateTime : Type} `{!CatalogObject Obj} `{!Astrometry DateTime}
    (self : UILocate Obj) (shared_state : SharedState DateTime) (t : Obj) :
  target (ui_state self) = Some t ->
  t ∈ active_list (ui_state self) ->
  exists i,
    target_index (exec (active shared_state) self) = Some i
    /\ (0 <= i)%Z
    /\ active_list (ui_state self) !! Z.to_nat i = Some t
    /\ (forall j, (j < Z.to_nat i)%nat ->
                  active_list (ui_state self) !! j <> Some t)
    /\ ui_state (exec (active shared_state) self) = ui_state self.
Proof.
  intros Ht Hin. destruct (index_found _ _ Hin) as [i Hi].
  exists i. rewrite active_exec.
  match goal with |- context [exec (update shared_state) ?s] =>
    destruct (update_same_lists shared_state s) as (-> & -> & _) end.
  simpl. rewrite Ht. destruct (index_Some _ _ _ Hi) as [Hpos Hlook].
  repeat split; auto. apply index_least, Hi.
Qed.

Lemma active_finds_first_occurrence_duplicate :
  let self :=
    set_target_index (Some 2%Z)
      (Sample.screen [Sample.m31; Sample.m33; Sample.m31]
         [Sample.m31; Sample.m33; Sample.m31] [] (Some Sample.m31)) in
  exists i,
    target_index (exec (active Sample.no_fix) self) = Some i
    /\ (0 <= i)%Z
    /\ active_list (ui_state self) !! Z.to_nat i = Some Sample.m31
    /\ (forall j, (j < Z.to_nat i)%nat ->
                  active_list (ui_state self) !! j <> Some Sample.m31)
    /\ ui_state (exec (active Sample.no_fix) self) = ui_state self.
Proof.
  exact (active_finds_first_occurrence
           (set_target_index (Some 2%Z)
              (Sample.screen [Sample.m31; Sample.m33; Sample.m31]
                 [Sample.m31; Sample.m33; Sample.m31] [] (Some Sample.m31)))
           Sample.no_fix Sample.m31 eq_refl
           (list_elem_of_here Sample.m31 [Sample.m33; Sample.m31])).
Defined.

(** X6.  The name a list is saved under is built from the screen's id, the
    scope and [ss_count], none of which a save changes: saving the same
    scope twice issues two writes under one and the same name, while the
    write counter goes up by two and the lists stay as they were. *)
Theorem save_list_twice_same_name
    {Obj : Type} (option : string) (self : UILocate Obj) :
  option <> "CANCEL" ->
  active_list (ui_state self) <> [] ->
  let self'' := exec (save_list option) (exec (save_list option) self) in
  let chosen :=
    if decide (option = "History") then history_list (ui_state self)
    else observing_list (ui_state self) in
  let filename :=
    uuid self +:+ "_" +:+ option +:+ "_" +:+ fmt_02d (ss_count self) in
  written self'' = written self ++ [(chosen, filename); (chosen, filename)]
  /\ obs_list_write_index self'' = (obs_list_write_index self + 2)%Z
  /\ ui_state self'' = ui_state self
  /\ target_index self'' = target_index self.
Proof.
  intros Hc Ha self'' chosen filename. subst self'' chosen filename.
  unfold exec. rewrite (save_list_saved option self Hc Ha). cbn [snd].
  match goal with |- context [save_list option ?s] =>
    rewrite (save_list_saved option s Hc) by exact Ha end.
  cbn [snd]. unfold exec, message, write_list, modify. simpl.
  rewrite <- app_assoc. repeat split. lia.
Qed.

Lemma save_list_twice_same_name_history :
  let self :=
    Sample.screen [Sample.m31] [Sample.m31] [] (Some Sample.m31) in
  let self'' := exec (save_list "History") (exec (save_list "History") self) in
  written self'' =
    [([Sample.m31], "LOC_History_03"); ([Sample.m31], "LOC_History_03")]
  /\ obs_list_write_index self'' = 2%Z
  /\ ui_state self'' = ui_state self
  /\ target_index self'' = target_index self.
Proof.
  exact (save_list_twice_same_name "History"
           (Sample.screen [Sample.m31] [Sample.m31] [] (Some Sample.m31))
           ltac:(discriminate) ltac:(discriminate)).
Defined.






(** * Further properties of the catalog screen *)

Section CatalogMore.
Import Catalog.
Variable OBJ_TYPES : string -> option string.
Implicit Types (self : UICatalog) (r : Row) (buffer rest : list string).

Lemma append_cons (a : ascii) (s t : string) :
  String a s +:+ t = String a (s +:+ t).
Proof. reflexivity. Qed.

Lemma append_empty_r (s : string) : s +:+ EmptyString = s.
Proof.
  induction s as [|a s IH]; [reflexivity|].
  rewrite append_cons, IH. reflexivity.
Qed.

Lemma join_cons (x : string) (l : list string) : join (x :: l) = x +:+ join l.
Proof.
  unfold join. cbn [String.concat]. destruct l as [|y l].
  - cbn [String.concat]. symmetry. apply append_empty_r.
  - reflexivity.
Qed.

Lemma remove_char_app (c : ascii) (a b : string) :
  remove_char c (a +:+ b) = remove_char c a +:+ remove_char c b.
Proof.
  induction a as [|x a IH]; [reflexivity|].
  rewrite append_cons. cbn [remove_char].
  destruct (Ascii.eqb x c); rewrite IH; reflexivity.
Qed.

Lemma current_key_cons (x : string) buffer :
  current_key (x :: buffer) = remove_char "-" x +:+ current_key buffer.
Proof. unfold current_key. rewrite join_cons, remove_char_app. reflexivity. Qed.

Lemma current_key_placeholders (k : nat) buffer :
  current_key (replicate k "-" ++ buffer) = current_key buffer.
Proof.
  induction k as [|k IH]; [reflexivity|].
  cbn [replicate app]. rewrite current_key_cons, IH. reflexivity.
Qed.

Lemma current_key_chars (s : string) : current_key (chars s) = remove_char "-" s.
Proof.
  induction s as [|a s IH]; [reflexivity|].
  cbn [chars]. rewrite current_key_cons, IH. cbn [remove_char].
  destruct (Ascii.eqb a "-"); reflexivity.
Qed.

Lemma length_chars (s : string) : length (chars s) = String.length s.
Proof. induction s as [|a s IH]; [reflexivity|]. simpl. f_equal. exact IH. Qed.

Lemma string_of_uint_no_dash (d : Decimal.uint) :
  remove_char "-" (NilEmpty.string_of_uint d) = NilEmpty.string_of_uint d.
Proof. induction d; simpl; f_equal; assumption. Qed.

(** The decimal text of a number that is not negative has no minus sign
    and reads back as the number. *)
Lemma str_no_dash (n : Z) : (0 <= n)%Z -> remove_char "-" (str n) = str n.
Proof.
  intros Hn. unfold str. destruct n as [|p|p]; [reflexivity| |lia].
  cbn [Z.to_int NilZero.string_of_int]. unfold NilZero.string_of_uint.
  destruct (Pos.to_uint p); try reflexivity; apply string_of_uint_no_dash.
Qed.

Lemma sql_numeric_str (n : Z) : (0 <= n)%Z -> sql_numeric (str n) = Some n.
Proof.
  intros Hn. unfold str. destruct n as [|p|p]; [reflexivity| |lia].
  cbn [Z.to_int NilZero.string_of_int]. unfold NilZero.string_of_uint.
  pose proof (Unsigned.to_uint_nonnil p) as Hnil.
  pose proof (DecimalPos.Unsigned.of_to p) as Hp.
  unfold sql_numeric.
  destruct (Pos.to_uint p) as [|d|d|d|d|d|d|d|d|d|d] eqn:E; [done|..];
    (rewrite decide_False by discriminate);
    rewrite NilEmpty.usu; cbn [fmap option_fmap option_map];
    unfold Z.of_uint; rewrite Hp; reflexivity.
Qed.

Lemma sql_numeric_nonneg (text : string) (k : Z) :
  sql_numeric text = Some k -> (0 <= k)%Z.
Proof.
  unfold sql_numeric. destruct (decide (text = EmptyString)); [discriminate|].
  destruct (NilEmpty.uint_of_string text) as [d|]; [|discriminate].
  intros [= <-]. unfold Z.of_uint. lia.
Qed.

Lemma sql_eq_numeric (d : Z) (text : string) :
  sql_eq d text = true <-> sql_numeric text = Some d.
Proof.
  unfold sql_eq. destruct (sql_numeric text) as [k|].
  - rewrite Z.eqb_eq. split; [intros ->; reflexivity | intros [= ->]; reflexivity].
  - split; discriminate.
Qed.

(** The buffer [scroll_obj] leaves names the adopted row. *)
Lemma adopted_key r self :
  (0 <= designation r)%Z ->
  current_key (designator (adopted r self)) = str (designation r)
  /\ sql_numeric (current_key (designator (adopted r self)))
     = Some (designation r)
  /\ length (designator (adopted r self))
     = Nat.max (Buffer.width (catalog_index self))
               (String.length (str (designation r))).
Proof.
  intros Hr.
  assert (E : current_key (designator (adopted r self)) = str (designation r)).
  { unfold adopted. cbn [designator set_designator].
    destruct (catalog_index self =? 2)%Z;
      rewrite current_key_placeholders, current_key_chars;
      apply str_no_dash, Hr. }
  split; [exact E|]. split; [rewrite E; apply sql_numeric_str, Hr|].
  unfold adopted, Buffer.width. cbn [designator set_designator].
  destruct (catalog_index self =? 2)%Z;
    rewrite length_app, length_replicate; unfold len;
    rewrite length_chars; lia.
Qed.

Lemma update_object_text_fields self :
  let self' := exec (update_object_text OBJ_TYPES) self in
  eval (update_object_text OBJ_TYPES) self = Ok tt
  /\ designator self' = designator self
  /\ catalog_index self' = catalog_index self
  /\ cat_object self' = cat_object self
  /\ conn self' = conn self.
Proof.
  unfold eval, exec.
  destruct (update_object_text_catalog OBJ_TYPES self) as [text ->].
  repeat split.
Qed.

End CatalogMore.

Section DesignatorMore.
Import Catalog.
Variable OBJ_TYPES : string -> option string.
Implicit Types (self : UICatalog) (r : Row) (buffer rest : list string).

Lemma str_not_placeholder (n : Z) : str n <> "-".
Proof.
  destruct (Z.le_gt_cases 0 n) as [Hn | Hn].
  - intros E. pose proof (str_no_dash n Hn) as H. rewrite E in H. discriminate.
  - unfold str. destruct n as [|p|p]; try lia.
    cbn [Z.to_int NilZero.string_of_int]. unfold NilZero.string_of_uint.
    pose proof (Unsigned.to_uint_nonnil p).
    destruct (Pos.to_uint p); [done|..]; discriminate.
Qed.

Lemma zero_or_dash_placeholder : zero_or_dash "-" = true.
Proof. reflexivity. Qed.

Lemma zero_or_dash_false (x : string) : zero_or_dash x = false -> x <> "-".
Proof. intros H ->. discriminate. Qed.

Lemma length_collapse_leading buffer :
  length (collapse_leading buffer) = length buffer.
Proof.
  induction buffer as [|x buffer IH]; [reflexivity|].
  cbn [collapse_leading]. destruct (zero_or_dash x); cbn [length]; congruence.
Qed.

(** Collapsing keeps a buffer right-aligned when placeholders only lead. *)
Lemma collapse_leading_aligned (k : nat) rest :
  Forall (fun x => x <> "-") rest ->
  Buffer.right_aligned (collapse_leading (replicate k "-" ++ rest)).
Proof.
  intros Hrest. induction k as [|k (m & rest' & E & Hf & Hh)].
  - cbn [replicate app]. induction Hrest as [|x rest Hx Hrest IH].
    + exists 0%nat, []. repeat split; [constructor | discriminate].
    + cbn [collapse_leading]. destruct (zero_or_dash x) eqn:Ex.
      * destruct IH as (m & rest' & E & Hf & Hh).
        exists (S m), rest'. rewrite E. repeat split; assumption.
      * exists 0%nat, (x :: rest). repeat split.
        -- constructor; assumption.
        -- intros y [= <-]. exact Ex.
  - cbn [replicate app collapse_leading]. rewrite zero_or_dash_placeholder.
    exists (S m), rest'. rewrite E. repeat split; assumption.
Qed.

Lemma shift_append_split (k : nat) rest (d : Z) :
  Forall (fun x => x <> "-") rest ->
  exists k' rest',
    shift_append (replicate k "-" ++ rest) d = replicate k' "-" ++ rest'
    /\ Forall (fun x => x <> "-") rest'.
Proof.
  intros Hrest. unfold shift_append. destruct k as [|k].
  - exists 0%nat, (drop 1 rest ++ [str d]). split; [reflexivity|].
    apply Forall_app. split; [apply Forall_drop, Hrest|].
    constructor; [apply str_not_placeholder | constructor].
  - exists k, (rest ++ [str d]). split.
    + cbn [replicate app drop]. unfold drop. rewrite <- app_assoc. reflexivity.
    + apply Forall_app. split; [exact Hrest|].
      constructor; [apply str_not_placeholder | constructor].
Qed.

End DesignatorMore.

(** X10.  The catalog key steps through the three catalogs in a cycle and
    starts each one with an empty search: the index stays one of 0, 1, 2
    and is back where it was after three presses; the designator is all
    placeholders, three slots wide for the third catalog and four
    otherwise, so the key is empty; the tentative match is dropped. *)
Theorem key_d_cycles
    (OBJ_TYPES : string -> option string) (self : Catalog.UICatalog) :
  (0 <= Catalog.catalog_index self < 3)%Z ->
  let self' := exec (Catalog.key_d OBJ_TYPES) self in
  eval (Catalog.key_d OBJ_TYPES) self = Ok tt
  /\ Catalog.catalog_index self' = ((Catalog.catalog_index self + 1) mod 3)%Z
  /\ Catalog.designator self'
     = replicate (Buffer.width (Catalog.catalog_index self')) "-"
  /\ Catalog.current_key (Catalog.designator self') = EmptyString
  /\ Catalog.cat_object self' = None
  /\ Catalog.object_text self' = ["No Object Found"]
  /\ Catalog.conn self' = Catalog.conn self
  /\ Catalog.catalog_index
       (exec (Catalog.key_d OBJ_TYPES)
          (exec (Catalog.key_d OBJ_TYPES) self'))
     = Catalog.catalog_index self.
Proof.
  intros Hi self'. subst self'. destruct self as [i d c t db].
  cbn [Catalog.catalog_index] in Hi.
  assert (i = 0 \/ i = 1 \/ i = 2)%Z as [-> | [-> | ->]] by lia;
    repeat split.
Qed.

Lemma key_d_cycles_to_messier :
  let self :=
    Catalog.set_catalog_index 1 (Sample.search ["-"; "-"; "4"; "2"] []) in
  let self' := exec (Catalog.key_d Sample.no_types) self in
  eval (Catalog.key_d Sample.no_types) self = Ok tt
  /\ Catalog.catalog_index self' = 2%Z
  /\ Catalog.designator self' = ["-"; "-"; "-"]
  /\ Catalog.current_key (Catalog.designator self') = EmptyString
  /\ Catalog.cat_object self' = None
  /\ Catalog.object_text self' = ["No Object Found"]
  /\ Catalog.conn self' = []
  /\ Catalog.catalog_index
       (exec (Catalog.key_d Sample.no_types)
          (exec (Catalog.key_d Sample.no_types) self'))
     = 1%Z.
Proof.
  exact (key_d_cycles Sample.no_types
           (Catalog.set_catalog_index 1
              (Sample.search ["-"; "-"; "4"; "2"] []))
           ltac:(vm_compute; split; [discriminate | reflexivity])).
Defined.

(** X11.  After a digit is pushed, the tentative match is exactly what the
    table holds under the typed number: a row that is found belongs to the
    table, to the active catalog, and carries the number the key reads as;
    nothing is found only when no row of that catalog carries it (so an
    empty key never matches). *)
Theorem key_number_exact_match
    (OBJ_TYPES : string -> option string) (number : Z)
    (self : Catalog.UICatalog) (code : string) :
  Catalog.letter_of (Catalog.catalog_index self) = Ok code ->
  let key :=
    Catalog.current_key (Catalog.push_digit (Catalog.designator self) number) in
  match Catalog.cat_object (exec (Catalog.key_number OBJ_TYPES number) self) with
  | Some r =>
      r ∈ Catalog.conn self /\ Catalog.catalog r = code
      /\ Catalog.sql_numeric key = Some (Catalog.designation r)
  | None =>
      forall r, r ∈ Catalog.conn self -> Catalog.catalog r = code ->
                Catalog.sql_numeric key <> Some (Catalog.designation r)
  end.
Proof.
  intros Hcode key. unfold exec. rewrite key_number_eq, Hcode. cbv zeta.
  match goal with |- context [Catalog.update_object_text OBJ_TYPES ?s] =>
    destruct (update_object_text_fields OBJ_TYPES s) as (_ & _ & _ & Hc & _) end.
  unfold exec in Hc. rewrite Hc. cbn [Catalog.cat_object Catalog.set_cat_object].
  fold key. unfold Catalog.fetchone, Catalog.select_exact.
  destruct (head _) as [r|] eqn:Hh.
  - assert (Hin : r ∈ filter
                    (fun r => Catalog.catalog r = code
                              /\ Catalog.sql_eq (Catalog.designation r) key = true)
                    (Catalog.conn self)).
    { destruct (filter _ (Catalog.conn self)); [discriminate|].
      injection Hh as ->. apply elem_of_cons. auto. }
    apply list_elem_of_filter in Hin as [[Hc' He] Hin].
    apply sql_eq_numeric in He. auto.
  - intros r Hin Hc' He.
    assert (H : r ∈ filter
                  (fun r => Catalog.catalog r = code
                            /\ Catalog.sql_eq (Catalog.designation r) key = true)
                  (Catalog.conn self)).
    { apply list_elem_of_filter. split; [split; [exact Hc'|]|exact Hin].
      apply sql_eq_numeric, He. }
    destruct (filter _ (Catalog.conn self)); [|discriminate].
    apply elem_of_nil in H as [].
Qed.

Lemma key_number_exact_match_ngc5 :
  let self :=
    Sample.search (replicate 4 "-") [Sample.ngc 9; Sample.ngc 1; Sample.ngc 5] in
  match Catalog.cat_object (exec (Catalog.key_number Sample.no_types 5) self) with
  | Some r =>
      r ∈ Catalog.conn self /\ Catalog.catalog r = "N"
      /\ Catalog.sql_numeric "5" = Some (Catalog.designation r)
  | None =>
      forall r, r ∈ Catalog.conn self -> Catalog.catalog r = "N" ->
                Catalog.sql_numeric "5" <> Some (Catalog.designation r)
  end.
Proof.
  exact (key_number_exact_match Sample.no_types 5
           (Sample.search (replicate 4 "-")
              [Sample.ngc 9; Sample.ngc 1; Sample.ngc 5])
           "N" eq_refl).
Defined.

(** X12.  Pushing a number keeps the designator a right-aligned number:
    if placeholders only lead before the push, they only lead after it,
    and the first slot after them holds neither a zero nor a placeholder;
    a buffer that is not empty keeps its width. *)
Theorem key_number_keeps_alignment
    (OBJ_TYPES : string -> option string) (number : Z)
    (self : Catalog.UICatalog) :
  Buffer.right_aligned (Catalog.designator self) ->
  let self' := exec (Catalog.key_number OBJ_TYPES number) self in
  Buffer.right_aligned (Catalog.designator self')
  /\ (Catalog.designator self <> [] ->
      length (Catalog.designator self') = length (Catalog.designator self)).
Proof.
  intros (k & rest & E & Hrest & _) self'. subst self'.
  rewrite key_number_designator. unfold Catalog.push_digit. split.
  - rewrite E. destruct (shift_append_split k rest number Hrest)
      as (k' & rest' & -> & Hrest').
    apply collapse_leading_aligned, Hrest'.
  - intros Hne. rewrite length_collapse_leading. unfold Catalog.shift_append.
    rewrite length_app, length_drop. cbn [length].
    destruct (Catalog.designator self); [done|]. cbn [length]. lia.
Qed.

Lemma key_number_keeps_alignment_fresh :
  let self := Sample.search (replicate 4 "-") [] in
  let self' := exec (Catalog.key_number Sample.no_types 7) self in
  Buffer.right_aligned (Catalog.designator self')
  /\ (Catalog.designator self <> [] ->
      length (Catalog.designator self') = length (Catalog.designator self)).
Proof.
  exact (key_number_keeps_alignment Sample.no_types 7
           (Sample.search (replicate 4 "-") [])
           (ex_intro _ 4%nat
              (ex_intro _ []
                 (conj eq_refl
                    (conj (Forall_nil_2 _)
                       (fun x (H : head [] = Some x) =>
                          ltac:(discriminate H))))))).
Defined.

Section ScrollMore.
Import Catalog.
Variable OBJ_TYPES : string -> option string.
Implicit Types (self : UICatalog) (r : Row).

(** The screen after a row was adopted and its text refreshed. *)
Lemma adopted_state r self :
  (0 <= designation r)%Z ->
  let self' := exec (update_object_text OBJ_TYPES) (adopted r self) in
  eval (update_object_text OBJ_TYPES) (adopted r self) = Ok tt
  /\ cat_object self' = Some r
  /\ conn self' = conn self
  /\ catalog_index self' = catalog_index self
  /\ sql_numeric (current_key (designator self')) = Some (designation r)
  /\ length (designator self')
     = Nat.max (Buffer.width (catalog_index self))
               (String.length (str (designation r))).
Proof.
  intros Hr self'. subst self'.
  destruct (update_object_text_fields OBJ_TYPES (adopted r self))
    as (He & Hd & Hi & Hc & Hn).
  destruct (adopted_key r self Hr) as (_ & Hk & Hl).
  rewrite Hd, Hi, Hc, Hn. repeat split; assumption.
Qed.

End ScrollMore.



(** X14.  Scrolling forward and then backward comes back: when the key
    names a row of the active catalog and some row lies above it, a press
    of down followed by a press of up ends on a row of that catalog with
    the designation the key named, and the key reads as before. *)
Theorem key_down_then_key_up_returns
    (OBJ_TYPES : string -> option string) (self : Catalog.UICatalog)
    (code : string) (k : Z) (named above : Catalog.Row) :
  Catalog.letter_of (Catalog.catalog_index self) = Ok code ->
  Catalog.sql_numeric (Catalog.current_key (Catalog.designator self)) = Some k ->
  named ∈ Catalog.conn self -> Catalog.catalog named = code ->
  Catalog.designation named = k ->
  above ∈ Catalog.conn self -> Catalog.catalog above = code ->
  (k < Catalog.designation above)%Z ->
  let self'' :=
    exec (Catalog.key_up OBJ_TYPES) (exec (Catalog.key_down OBJ_TYPES) self) in
  exists r,
    Catalog.cat_object self'' = Some r
    /\ r ∈ Catalog.conn self /\ Catalog.catalog r = code
    /\ Catalog.designation r = k
    /\ Catalog.sql_numeric (Catalog.current_key (Catalog.designator self''))
       = Some k.
Proof.
  intros Hcode Hkey Hn Hnc Hnk Ha Hac Hak self''. subst self''.
  pose proof (sql_numeric_nonneg _ _ Hkey) as Hk0.
  destruct (key_down_neighbour OBJ_TYPES self code k Hcode Hkey)
    as [(r1 & (Hin1 & Hc1 & Hgt1 & Hmin1) & E1) | [Hnone _]];
    [| exfalso; exact (Hnone above Ha Hac Hak)].
  unfold exec. rewrite E1.
  destruct (adopted_state OBJ_TYPES r1 self ltac:(lia))
    as (_ & _ & Hconn & Hidx & Hkey1 & _).
  unfold exec in Hconn, Hidx, Hkey1.
  set (s1 := (Catalog.update_object_text OBJ_TYPES
                (Catalog.adopted r1 self)).2) in *.
  assert (Hcode1 : Catalog.letter_of (Catalog.catalog_index s1) = Ok code)
    by (rewrite Hidx; exact Hcode).
  destruct (key_up_neighbour OBJ_TYPES s1 code (Catalog.designation r1)
              Hcode1 Hkey1)
    as [(r & (Hin & Hc & Hlt & Hmax) & E) | [Hnone _]].
  - rewrite Hconn in Hin, Hmax.
    assert (Hk : Catalog.designation r = k).
    { pose proof (Hmax named Hn Hnc ltac:(lia)) as Hge.
      destruct (Z.eq_dec (Catalog.designation r) k) as [? | Hne]; [assumption|].
      pose proof (Hmin1 r Hin Hc ltac:(lia)). lia. }
    exists r. rewrite E.
    destruct (adopted_state OBJ_TYPES r s1 ltac:(lia))
      as (_ & Hobj & _ & _ & Hkey2 & _).
    unfold exec in Hobj, Hkey2. rewrite Hobj, Hkey2, Hk. auto.
  - exfalso. apply (Hnone named); [rewrite Hconn; exact Hn | exact Hnc | lia].
Qed.

Lemma key_down_then_key_up_returns_ngc5 :
  let self :=
    exec (Catalog.key_number Sample.no_types 5)
      (Sample.search (replicate 4 "-")
         [Sample.ngc 9; Sample.ngc 1; Sample.ngc 5]) in
  let self'' :=
    exec (Catalog.key_up Sample.no_types)
      (exec (Catalog.key_down Sample.no_types) self) in
  exists r,
    Catalog.cat_object self'' = Some r
    /\ r ∈ Catalog.conn self /\ Catalog.catalog r = "N"
    /\ Catalog.designation r = 5%Z
    /\ Catalog.sql_numeric (Catalog.current_key (Catalog.designator self''))
       = Some 5%Z.
Proof.
  exact (key_down_then_key_up_returns Sample.no_types
           (exec (Catalog.key_number Sample.no_types 5)
              (Sample.search (replicate 4 "-")
                 [Sample.ngc 9; Sample.ngc 1; Sample.ngc 5]))
           "N" 5%Z (Sample.ngc 5) (Sample.ngc 9)
           eq_refl eq_refl
           (list_elem_of_further _ _ _
              (list_elem_of_further _ _ _ (list_elem_of_here _ _)))
           eq_refl eq_refl
           (list_elem_of_here _ _) eq_refl eq_refl).
Defined.

(** * Properties of the console screen *)

Section ConsoleFacts.
Import Console.
Implicit Types (self : UIConsole) (op : Op).

Lemma slice_to_ten {A} (l : list A) : slice_to l 10 = take 10 l.
Proof.
  unfold slice_to, len. cbn [Z.ltb Z.compare].
  destruct (Z.min_spec 10 (Z.of_nat (length l))) as [[H ->] | [H ->]].
  - reflexivity.
  - rewrite Nat2Z.id. rewrite !take_ge by lia. reflexivity.
Qed.

Lemma slice_from_tail {A} (l : list A) (offset : Z) :
  (0 <= offset)%Z ->
  slice_from l (-10 - offset) = drop (Z.to_nat (len l - 10 - offset)) l.
Proof.
  intros Ho. unfold slice_from.
  destruct (Z.ltb_spec (-10 - offset) 0); [|lia].
  f_equal. lia.
Qed.

(** With an offset that is not negative, the rows are the ten lines that
    end [scroll_offset] lines above the bottom (fewer when the lines run
    out). *)
Lemma visible_rows_eq self :
  (0 <= scroll_offset self)%Z ->
  visible_rows self =
    take 10 (drop (Z.to_nat (len (lines self) - 10 - scroll_offset self))
               (lines self)).
Proof.
  intros Ho. unfold visible_rows.
  rewrite slice_to_ten, slice_from_tail by assumption. reflexivity.
Qed.

Lemma update_dirty self :
  dirty self = true ->
  update self =
    (Ok (switch_to self),
     exec (screen_update (visible_rows self)) (set_dirty false self)).
Proof. intros Hd. unfold update, bind, get. rewrite Hd. reflexivity. Qed.

Lemma update_clean self : dirty self = false -> update self = (Ok None, self).
Proof. intros Hd. unfold update, bind, get. rewrite Hd. reflexivity. Qed.

(** Every call keeps the offset non-negative and only ever appends to the
    lines. *)
Lemma run_keeps_offset op self :
  (0 <= scroll_offset self)%Z ->
  (0 <= scroll_offset (exec (run op) self))%Z
  /\ lines self `prefix_of` lines (exec (run op) self).
Proof.
  intros Ho. destruct op as [number | | | | line | |];
    unfold run, exec, key_number, key_enter, key_up, key_down, write, active,
      update, screen_update, camera_put, console_put, set_datetime, print,
      bind, get, modify, ret.
  - destruct (number =? 0)%Z; [destruct (debug_mode self)|]; simpl;
      (split; [lia | reflexivity]).
  - simpl. split; [lia | reflexivity].
  - simpl. split; [lia | reflexivity].
  - simpl. destruct (Z.ltb_spec (scroll_offset self - 1) 0); simpl;
      (split; [lia | reflexivity]).
  - simpl. split; [lia | apply prefix_app_r; reflexivity].
  - simpl. split; [lia | reflexivity].
  - destruct (dirty self); simpl; (split; [lia | reflexivity]).
Qed.

End ConsoleFacts.

(** X15.  Whatever calls the host makes on the console, the scroll offset
    never becomes negative and no line of the log is ever dropped or
    changed: the lines at any later time start with the lines of now. *)
Theorem console_offset_never_negative
    (ops : list Console.Op) (self : Console.UIConsole) :
  (0 <= Console.scroll_offset self)%Z ->
  (0 <= Console.scroll_offset (Console.run_all ops self))%Z
  /\ Console.lines self `prefix_of` Console.lines (Console.run_all ops self).
Proof.
  revert self. induction ops as [|op ops IH]; intros self Ho.
  - split; [exact Ho | reflexivity].
  - unfold Console.run_all. cbn [foldl]. fold (Console.run_all ops).
    destruct (run_keeps_offset op self Ho) as [Ho' Hp].
    destruct (IH _ Ho') as [H1 H2].
    split; [exact H1 | etransitivity; eassumption].
Qed.

Lemma console_offset_never_negative_init :
  let ops :=
    [Console.OpKeyDown; Console.OpWrite "solved"; Console.OpKeyUp;
     Console.OpKeyDown; Console.OpKeyDown; Console.OpUpdate] in
  (0 <= Console.scroll_offset (Console.run_all ops Console.init))%Z
  /\ Console.lines Console.init
       `prefix_of` Console.lines (Console.run_all ops Console.init).
Proof.
  exact (console_offset_never_negative
           [Console.OpKeyDown; Console.OpWrite "solved"; Console.OpKeyUp;
            Console.OpKeyDown; Console.OpKeyDown; Console.OpUpdate]
           Console.init ltac:(vm_compute; discriminate)).
Defined.

(** X16.  A dirty console with a non-negative offset draws a window of the
    log: ten consecutive lines, or all of them when there are fewer; the
    number of lines hidden below the window is the offset, capped by what
    lies beyond the first ten; with offset 0 the window is the end of the
    log.  The update clears the dirty flag. *)
Theorem console_update_draws_window (self : Console.UIConsole) :
  Console.dirty self = true ->
  (0 <= Console.scroll_offset self)%Z ->
  let rows := Console.visible_rows self in
  let top :=
    Z.to_nat (len (Console.lines self) - 10 - Console.scroll_offset self) in
  Console.update self
  = (Ok (Console.switch_to self),
     exec (Console.screen_update rows) (Console.set_dirty false self))
  /\ Console.display (exec Console.update self)
     = Some (Console.title self, rows)
  /\ Console.dirty (exec Console.update self) = false
  /\ length rows = Nat.min 10 (length (Console.lines self))
  /\ Console.lines self
     = take top (Console.lines self) ++ rows
         ++ drop (top + 10) (Console.lines self)
  /\ length (drop (top + 10) (Console.lines self))
     = Nat.min (Z.to_nat (Console.scroll_offset self))
         (length (Console.lines self) - 10)
  /\ (Console.scroll_offset self = 0%Z ->
      rows `suffix_of` Console.lines self).
Proof.
  intros Hd Ho rows top.
  assert (Hrows : rows = take 10 (drop top (Console.lines self)))
    by (apply visible_rows_eq, Ho).
  pose proof (update_dirty self Hd) as E. fold rows in E.
  assert (Hex : exec Console.update self
                = exec (Console.screen_update rows)
                    (Console.set_dirty false self))
    by (unfold exec at 1; rewrite E; reflexivity).
  rewrite Hex.
  split; [exact E|]. split; [reflexivity|]. split; [reflexivity|].
  assert (Htop : (top <= length (Console.lines self) - 10)%nat)
    by (subst top; unfold len; lia).
  split; [|split; [|split]].
  - rewrite Hrows, length_take, length_drop. lia.
  - rewrite Hrows. rewrite <- (take_drop top (Console.lines self)) at 1.
    f_equal. rewrite <- (take_drop 10 (drop top (Console.lines self))) at 1.
    f_equal. rewrite drop_drop. reflexivity.
  - rewrite length_drop. subst top. unfold len. lia.
  - intros Hz. rewrite Hrows.
    assert (E10 : take 10 (drop top (Console.lines self))
                  = drop top (Console.lines self)).
    { apply take_ge. rewrite length_drop. subst top. unfold len. lia. }
    rewrite E10. apply suffix_drop.
Qed.

Lemma console_update_draws_window_init :
  let self := Console.init in
  let rows := Console.visible_rows self in
  Console.display (exec Console.update self)
  = Some (Console.title self, rows)
  /\ Console.dirty (exec Console.update self) = false
  /\ length rows = Nat.min 10 (length (Console.lines self)).
Proof.
  pose proof (console_update_draws_window Console.init eq_refl
                ltac:(vm_compute; discriminate)) as (_ & H1 & H2 & H3 & _).
  exact (conj H1 (conj H2 H3)).
Defined.

(** X17.  A line written to the console is on the screen at the next
    update, as the bottom row, wherever the console had been scrolled to:
    writing resets the offset, marks the screen dirty, and echoes the line
    to standard output. *)
Theorem console_write_shows_line (line : string) (self : Console.UIConsole) :
  let written := exec (Console.write line) self in
  let shown := exec Console.update written in
  Console.lines written = Console.lines self ++ [line]
  /\ Console.scroll_offset written = 0%Z
  /\ Console.stdout written = Console.stdout self ++ ["Write: " +:+ line]
  /\ exists rows,
       Console.display shown = Some (Console.title self, rows)
       /\ last rows = Some line
       /\ rows `suffix_of` (Console.lines self ++ [line]).
Proof.
  intros written shown.
  assert (Hd : Console.dirty written = true) by reflexivity.
  assert (Ho : (0 <= Console.scroll_offset written)%Z) by (simpl; lia).
  destruct (console_update_draws_window written Hd Ho)
    as (_ & Hdisp & _ & Hlen & _ & _ & Hsuf).
  repeat split. exists (Console.visible_rows written).
  split; [exact Hdisp|]. specialize (Hsuf eq_refl).
  split; [|exact Hsuf].
  destruct Hsuf as [before Hb]. change (Console.lines written)
    with (Console.lines self ++ [line]) in Hb, Hlen.
  destruct (Console.visible_rows written) as [|r rows _] using rev_ind.
  - rewrite length_app in Hlen. cbn [length] in Hlen. lia.
  - rewrite app_assoc in Hb. apply app_inj_tail in Hb as [_ ->].
    apply last_snoc.
Qed.

(** X18.  Scrolling up has no upper bound: once the window has reached the
    top of the log, every further press of up still raises the offset by
    one while the window keeps showing the first ten lines. *)
Theorem console_overscroll (presses : nat) (self : Console.UIConsole) :
  (0 <= Console.scroll_offset self)%Z ->
  (len (Console.lines self) <= 10 + Console.scroll_offset self)%Z ->
  let self' := Nat.iter (S presses) (exec Console.key_up) self in
  Console.scroll_offset self'
  = (Console.scroll_offset self + 1 + Z.of_nat presses)%Z
  /\ Console.display (exec Console.update self')
     = Some (Console.title self, take 10 (Console.lines self)).
Proof.
  intros Ho Htop self'.
  assert (H : Console.scroll_offset self'
              = (Console.scroll_offset self + 1 + Z.of_nat presses)%Z
              /\ Console.lines self' = Console.lines self
              /\ Console.title self' = Console.title self
              /\ Console.dirty self' = true).
  { subst self'. induction presses as [|n (H1 & H2 & H3 & _)].
    - simpl. repeat split; auto. lia.
    - remember (S n) as m. cbn [Nat.iter]. simpl. rewrite H1, H2, H3.
      repeat split; auto. lia. }
  destruct H as (H1 & H2 & H3 & Hd). split; [exact H1|].
  destruct (console_update_draws_window self' Hd ltac:(lia))
    as (_ & -> & _).
  rewrite visible_rows_eq, H1, H2, H3 by lia.
  replace (Z.to_nat _) with 0%nat by lia. reflexivity.
Qed.

Lemma console_overscroll_init :
  let self' := Nat.iter 3 (exec Console.key_up) Console.init in
  Console.scroll_offset self' = 3%Z
  /\ Console.display (exec Console.update self')
     = Some ("CONSOLE", ["---- TOP ---"]).
Proof.
  exact (console_overscroll 2 Console.init
           ltac:(vm_compute; discriminate) ltac:(vm_compute; discriminate)).
Defined.

(** X19.  Every number key overwrites the shared clock with the fixed time
    2022-11-15 02:00:00.  Key 0 also flips debug mode, asks the camera for
    "debug" and reports the new mode to the console queue, so two presses
    of 0 leave debug mode as it was; any other number leaves debug mode and
    both queues alone.  No number key touches the log or the scrolling. *)
Theorem console_key_number (number : Z) (self : Console.UIConsole) :
  let self' := exec (Console.key_number number) self in
  eval (Console.key_number number) self = Ok tt
  /\ Console.shared_datetime self'
     = Some {| Console.year := 2022; Console.month := 11; Console.day := 15;
               Console.hour := 2; Console.minute := 0; Console.second := 0 |}
  /\ Console.lines self' = Console.lines self
  /\ Console.scroll_offset self' = Console.scroll_offset self
  /\ Console.dirty self' = Console.dirty self
  /\ Console.debug_mode self'
     = (if (number =? 0)%Z then negb (Console.debug_mode self)
        else Console.debug_mode self)
  /\ Console.camera_queue self'
     = (if (number =? 0)%Z then Console.camera_queue self ++ ["debug"]
        else Console.camera_queue self)
  /\ Console.console_queue self'
     = (if (number =? 0)%Z
        then Console.console_queue self
               ++ ["Debug: "
                   +:+ Console.str_bool (negb (Console.debug_mode self))]
        else Console.console_queue self)
  /\ Console.debug_mode
       (exec (Console.key_number 0) (exec (Console.key_number 0) self))
     = Console.debug_mode self.
Proof.
  intros self'. subst self'.
  unfold eval, exec, Console.key_number, bind, get, modify, ret,
    Console.camera_put, Console.console_put, Console.set_datetime.
  destruct (number =? 0)%Z; destruct (Console.debug_mode self) eqn:E;
    simpl; rewrite ?E; simpl; repeat split.
Qed.

(** X20.  The console redraws only when something changed: right after an
    update a second update draws nothing and returns nothing, while
    entering the screen always redraws the current window. *)
Theorem console_update_idempotent (self : Console.UIConsole) :
  Console.update (exec Console.update self)
  = (Ok None, exec Console.update self)
  /\ eval Console.active self = Ok tt
  /\ Console.display (exec Console.active self)
     = Some (Console.title self, Console.visible_rows self)
  /\ Console.dirty (exec Console.active self) = false.
Proof.
  split.
  - apply update_clean.
    unfold exec, Console.update, bind, get, modify, Console.screen_update, ret.
    destruct (Console.dirty self) eqn:E; simpl; [reflexivity | exact E].
  - unfold eval, exec, Console.active, Console.update, bind, get, modify,
      Console.screen_update, ret. simpl. repeat split.
Qed.

(** * Properties of the older locate screen and of the hand-over to it *)

Section LegacyFacts.
Context {DateTime : Type} `{!Astrometry DateTime}.
Variable OBJ_TYPES : string -> option string.

Lemma legacy_aim_degrees_no_fix (shared_state : SharedState DateTime)
    (old : Legacy.UILocate) :
  location shared_state = None \/ datetime shared_state = None
    \/ solution shared_state = None ->
  Legacy.aim_degrees shared_state old = (Ok (Some (None, None)), old).
Proof.
  unfold Legacy.aim_degrees, ret.
  intros [H | [H | H]]; rewrite H; repeat case_match; reflexivity.
Qed.

Lemma legacy_update_object_text_eq (old : Legacy.UILocate) :
  exists text,
    Legacy.update_object_text OBJ_TYPES old
    = (Ok tt, Legacy.set_object_text [text] old).
Proof.
  unfold Legacy.update_object_text, bind, get, modify.
  destruct (Legacy.target old); eexists; reflexivity.
Qed.



End LegacyFacts.


(** X21.  The two versions of [aim_degrees] differ only in normalisation:
    for the same target and the same shared state, the newer one returns
    the normalised deltas exactly when the older one returns the raw
    differences, and in every other case (no fix, a false altitude, a
    missing operand) both return or raise the same thing. *)
Theorem aim_degrees_normalizes_legacy
    {DateTime : Type} `{!Astrometry DateTime}
    (shared_state : SharedState DateTime)
    (new : UILocate Catalog.Row) (old : Legacy.UILocate) :
  target (ui_state new) = Legacy.target old ->
  match eval (Legacy.aim_degrees shared_state) old with
  | Ok (Some (Some az, Some alt)) =>
      eval (aim_degrees shared_state) new
      = Ok (Some (Some (normalize_signed_180 az),
                  Some (normalize_signed_180 alt)))
  | other => eval (aim_degrees shared_state) new = other
  end.
Proof.
  intros Ht.
  unfold eval, aim_degrees, Legacy.aim_degrees.
  destruct (location shared_state) as [loc|]; [|reflexivity].
  destruct (datetime shared_state) as [dt|]; [|reflexivity].
  destruct (solution shared_state) as [[oaz oalt]|]; [|reflexivity].
  cbn [Az Alt]. destruct (truthy oalt) eqn:Halt; [|reflexivity].
  unfold bind, get, subscript, number, Legacy.number, ret, raise.
  rewrite Ht.
  destruct (Legacy.target old) as [tgt|]; [|reflexivity].
  cbn [ra dec Legacy.Row_catalog_object].
  destruct (radec_to_altaz loc (Catalog.ra tgt) (Catalog.dec tgt) dt)
    as [talt taz].
  destruct oaz as [obs_az|]; [|reflexivity].
  destruct oalt as [obs_alt|]; [|discriminate].
  reflexivity.
Qed.

Lemma aim_degrees_normalizes_legacy_wraparound :
  let shared_state := Sample.fix_ (Some (359 # 1)) (Some (10 # 1)) in
  match eval (Legacy.aim_degrees shared_state)
          (Legacy.older_screen (Some Legacy.andromeda)) with
  | Ok (Some (Some az, Some alt)) =>
      eval (aim_degrees shared_state)
        (Legacy.newer_screen (Some Legacy.andromeda))
      = Ok (Some (Some (normalize_signed_180 az),
                  Some (normalize_signed_180 alt)))
  | other =>
      eval (aim_degrees shared_state)
        (Legacy.newer_screen (Some Legacy.andromeda)) = other
  end.
Proof.
  exact (aim_degrees_normalizes_legacy
           (Sample.fix_ (Some (359 # 1)) (Some (10 # 1)))
           (Legacy.newer_screen (Some Legacy.andromeda))
           (Legacy.older_screen (Some Legacy.andromeda))
           eq_refl).
Defined.

(** X22.  Enter on the catalog screen commits only a tentative match.  With
    a match, the row becomes the shared target and the host is asked for
    the locate screen, the search itself staying as it is; the locate
    screen then adopts that row at its next update and titles it with the
    catalog's name and the designation (here without a fix, so over the
    placeholder).  Without a match, Enter does nothing. *)
Theorem key_enter_commits_match
    {DateTime : Type} `{!Astrometry DateTime}
    (OBJ_TYPES : string -> option string)
    (shared_state : SharedState DateTime)
    (catalog_screen : Legacy.CatalogScreen) (locate : Legacy.UILocate) :
  location shared_state = None \/ datetime shared_state = None
    \/ solution shared_state = None ->
  match Catalog.cat_object (Legacy.screen catalog_screen) with
  | Some row =>
      let committed := exec Legacy.key_enter catalog_screen in
      let shown :=
        exec (Legacy.locate_update OBJ_TYPES shared_state
                (Legacy.shared_target committed)) locate in
      eval Legacy.key_enter catalog_screen = Ok tt
      /\ Legacy.shared_target committed = Some row
      /\ Legacy.switch_to committed = Some "UILocate"
      /\ Legacy.screen committed = Legacy.screen catalog_screen
      /\ Legacy.target shown = Some row
      /\ exists id_line,
           Legacy.locate_display shown
           = Some (Legacy.TargetFrame
                     (Legacy.catalog_name (Catalog.catalog row) +:+ " "
                        +:+ str (Catalog.designation row))
                     id_line Legacy.NoFix)
  | None => Legacy.key_enter catalog_screen = (Ok tt, catalog_screen)
  end.
Proof.
  intros Hmiss.
  destruct (Catalog.cat_object (Legacy.screen catalog_screen)) as [row|] eqn:E.
  - assert (H : exists id_line,
               Legacy.locate_update OBJ_TYPES shared_state (Some row) locate
               = (Ok (Legacy.locate_switch_to locate),
                  {| Legacy.target := Some row;
                     Legacy.object_text := [id_line];
                     Legacy.locate_switch_to := None;
                     Legacy.locate_display :=
                       Some (Legacy.TargetFrame
                               (Legacy.catalog_name (Catalog.catalog row)
                                  +:+ " " +:+ str (Catalog.designation row))
                               id_line Legacy.NoFix) |})).
    { unfold Legacy.locate_update.
      unfold bind at 1. unfold modify at 1.
      unfold bind at 1. unfold get at 1. cbn [Legacy.target Legacy.set_target].
      unfold bind at 1.
      destruct (legacy_update_object_text_eq OBJ_TYPES
                  (Legacy.set_target (Some row) locate)) as [text ->].
      exists text.
      unfold bind at 1. unfold get at 1.
      unfold bind at 1. unfold lift at 1.
      cbn [Legacy.object_text Legacy.set_object_text]. rewrite getitem_first.
      unfold bind at 1. rewrite legacy_aim_degrees_no_fix by exact Hmiss.
      reflexivity. }
    destruct H as [id_line H].
    unfold eval, exec, Legacy.key_enter, bind, get, modify. rewrite E.
    cbn [fst snd Legacy.shared_target Legacy.switch_to Legacy.screen].
    rewrite H. cbn [snd Legacy.target Legacy.locate_display].
    repeat (split; [reflexivity|]). eauto.
  - unfold Legacy.key_enter, bind, get. rewrite E. reflexivity.
Qed.

Lemma key_enter_commits_match_andromeda :
  let catalog_screen :=
    {| Legacy.screen :=
         Catalog.set_cat_object (Some Legacy.andromeda)
           (Sample.search ["-"; "2"; "2"; "4"] [Legacy.andromeda]);
       Legacy.switch_to := None; Legacy.shared_target := None;
       Legacy.display := None |} in
  let committed := exec Legacy.key_enter catalog_screen in
  let shown :=
    exec (Legacy.locate_update Sample.no_types Sample.no_fix
            (Legacy.shared_target committed)) (Legacy.older_screen None) in
  eval Legacy.key_enter catalog_screen = Ok tt
  /\ Legacy.shared_target committed = Some Legacy.andromeda
  /\ Legacy.switch_to committed = Some "UILocate"
  /\ Legacy.screen committed = Legacy.screen catalog_screen
  /\ Legacy.target shown = Some Legacy.andromeda
  /\ exists id_line,
       Legacy.locate_display shown
       = Some (Legacy.TargetFrame "NGC 224" id_line Legacy.NoFix).
Proof.
  exact (key_enter_commits_match Sample.no_types Sample.no_fix
           {| Legacy.screen :=
                Catalog.set_cat_object (Some Legacy.andromeda)
                  (Sample.search ["-"; "2"; "2"; "4"] [Legacy.andromeda]);
              Legacy.switch_to := None; Legacy.shared_target := None;
              Legacy.display := None |}
           (Legacy.older_screen None) (or_introl eq_refl)).
Defined.

(** * Properties of the status rows *)

Lemma length_append (a b : string) :
  String.length (a +:+ b) = (String.length a + String.length b)%nat.
Proof.
  induction a as [|x a IH]; [reflexivity|].
  rewrite append_cons. cbn [String.length]. rewrite IH. reflexivity.
Qed.

Lemma append_assoc (a b c : string) : (a +:+ b) +:+ c = a +:+ (b +:+ c).
Proof.
  induction a as [|x a IH]; [reflexivity|].
  rewrite !append_cons, IH. reflexivity.
Qed.

Lemma length_spaces (n : Z) : String.length (Catalog.spaces n) = Z.to_nat n.
Proof.
  unfold Catalog.spaces. induction (Z.to_nat n) as [|m IH]; [reflexivity|].
  cbn [replicate]. change (String.concat EmptyString (" " :: replicate m " "))
    with (join (" " :: replicate m " ")).
  rewrite join_cons, length_append. unfold join. rewrite IH. reflexivity.
Qed.

(** X23.  A status row is never cut: the key is right-aligned in a field
    of seven characters and the value in a field of ten, after a colon,
    and a key or value that is longer than its field is written out in
    full and makes the row longer.  So a row is eighteen characters long
    exactly when both fit, and it is the key, a colon and the value up to
    blanks. *)
Theorem status_line_length (k v : string) :
  String.length (Status.status_line k v)
  = (Nat.max 7 (String.length k) + 1 + Nat.max 10 (String.length v))%nat
  /\ remove_char " " (Status.status_line k v)
     = remove_char " " k +:+ ":" +:+ remove_char " " v
  /\ Forall (fun row => String.length row = 18%nat)
       (Status.status_lines Status.status_dict_init).
Proof.
  split; [|split].
  - unfold Status.status_line. cbv zeta.
    rewrite !length_append, !length_spaces. cbn [String.length]. lia.
  - assert (Hsp : forall n, remove_char " " (Catalog.spaces n) = EmptyString).
    { intros n. unfold Catalog.spaces.
      induction (Z.to_nat n) as [|m IH]; [reflexivity|].
      cbn [replicate].
      change (String.concat EmptyString (" " :: replicate m " "))
        with (join (" " :: replicate m " ")).
      rewrite join_cons, remove_char_app. unfold join. rewrite IH.
      reflexivity. }
    unfold Status.status_line. cbv zeta.
    rewrite !remove_char_app, !Hsp, append_empty_r, append_assoc.
    reflexivity.
  - repeat constructor.
Qed.

(** * Typing, committing and saving *)

Section CommitFlow.
Variable OBJ_TYPES : string -> option string.

(** The screen after a number key, when the catalog index is valid. *)
Lemma key_number_state (number : Z) (self : Catalog.UICatalog) (code : string) :
  Catalog.letter_of (Catalog.catalog_index self) = Ok code ->
  exists text,
    Catalog.key_number OBJ_TYPES number self
    = (Ok tt,
       Catalog.set_object_text text
         (Catalog.set_cat_object
            (Catalog.fetchone
               (Catalog.select_exact (Catalog.conn self) code
                  (Catalog.current_key
                     (Catalog.push_digit (Catalog.designator self) number))))
            (Catalog.set_designator
               (Catalog.push_digit (Catalog.designator self) number) self))).
Proof.
  intros Hcode. rewrite key_number_eq, Hcode. cbv zeta.
  match goal with |- context [Catalog.update_object_text OBJ_TYPES ?s] =>
    destruct (update_object_text_catalog OBJ_TYPES s) as [text ->] end.
  cbn [Catalog.object_text]. exists text. reflexivity.
Qed.

Lemma update_object_text_nonempty (self : Catalog.UICatalog) :
  exists id_line rest,
    Catalog.object_text (exec (Catalog.update_object_text OBJ_TYPES) self)
    = id_line :: rest.
Proof.
  unfold exec, Catalog.update_object_text, bind, get, modify.
  destruct (Catalog.cat_object self); simpl; eauto.
Qed.

End CommitFlow.

(** X24.  Typing a digit and pressing Enter commits exactly the row the
    typed number names: if the table holds a row of the active catalog
    with that designation, it becomes the shared target and the next
    update of the catalog screen tells the host, once, to show the locate
    screen; otherwise Enter changes nothing, the shared target stays what
    it was and the update carries no new request. *)
Theorem catalog_commit_flow
    (OBJ_TYPES : string -> option string) (number : Z)
    (catalog_screen : Legacy.CatalogScreen) (code : string) :
  Catalog.letter_of
    (Catalog.catalog_index (Legacy.screen catalog_screen)) = Ok code ->
  let typed :=
    exec (Legacy.on_screen (Catalog.key_number OBJ_TYPES number))
      catalog_screen in
  let committed := exec Legacy.key_enter typed in
  let key := Catalog.current_key (Catalog.designator (Legacy.screen typed)) in
  key = Catalog.current_key
          (Catalog.push_digit
             (Catalog.designator (Legacy.screen catalog_screen)) number)
  /\ match Catalog.cat_object (Legacy.screen typed) with
     | Some r =>
         Legacy.shared_target committed = Some r
         /\ r ∈ Catalog.conn (Legacy.screen catalog_screen)
         /\ Catalog.catalog r = code
         /\ Catalog.sql_numeric key = Some (Catalog.designation r)
         /\ eval Legacy.update committed = Ok (Some "UILocate")
         /\ Legacy.switch_to (exec Legacy.update committed) = None
     | None =>
         committed = typed
         /\ Legacy.shared_target committed
            = Legacy.shared_target catalog_screen
         /\ eval Legacy.update committed
            = Ok (Legacy.switch_to catalog_screen)
     end.
Proof.
  intros Hcode typed committed key.
  destruct (key_number_state OBJ_TYPES number (Legacy.screen catalog_screen)
              code Hcode) as [text Hk].
  assert (Ht : typed
               = {| Legacy.screen :=
                      (Catalog.key_number OBJ_TYPES number
                         (Legacy.screen catalog_screen)).2;
                    Legacy.switch_to := Legacy.switch_to catalog_screen;
                    Legacy.shared_target := Legacy.shared_target catalog_screen;
                    Legacy.display := Legacy.display catalog_screen |}).
  { subst typed. unfold exec, Legacy.on_screen.
    destruct (Catalog.key_number OBJ_TYPES number (Legacy.screen catalog_screen)).
    reflexivity. }
  rewrite Hk in Ht. cbn [snd] in Ht.
  assert (Hname : exists name,
             getitem Catalog.__catalogs
               (Catalog.catalog_index (Legacy.screen catalog_screen)) = Ok name).
  { unfold Catalog.letter_of in Hcode.
    destruct (getitem Catalog.__catalogs _); [eauto | discriminate..]. }
  destruct Hname as [name Hname].
  assert (Htext : exists id_line rest, text = id_line :: rest).
  { pose proof (f_equal (fun p => Catalog.object_text p.2) Hk) as Hx.
    cbn [snd Catalog.object_text Catalog.set_object_text] in Hx.
    rewrite key_number_eq, Hcode in Hx. cbv zeta in Hx.
    match type of Hx with context [Catalog.update_object_text OBJ_TYPES ?s] =>
      destruct (update_object_text_nonempty OBJ_TYPES s) as (i & r & Hi) end.
    unfold exec in Hi. rewrite Hi in Hx. eauto. }
  destruct Htext as (id_line & rest & ->).
  subst key committed. rewrite Ht.
  cbn [Legacy.screen Catalog.designator Catalog.cat_object
       Catalog.set_object_text Catalog.set_cat_object Catalog.set_designator].
  split; [reflexivity|].
  unfold Catalog.fetchone, Catalog.select_exact.
  destruct (head _) as [r|] eqn:Hh.
  - assert (Hin : r ∈ filter
                    (fun r => Catalog.catalog r = code
                              /\ Catalog.sql_eq (Catalog.designation r)
                                   (Catalog.current_key
                                      (Catalog.push_digit
                                         (Catalog.designator
                                            (Legacy.screen catalog_screen))
                                         number)) = true)
                    (Catalog.conn (Legacy.screen catalog_screen))).
    { destruct (filter _ (Catalog.conn (Legacy.screen catalog_screen)));
        [discriminate|].
      injection Hh as ->. apply elem_of_cons. auto. }
    apply list_elem_of_filter in Hin as [[Hc He] Hin].
    apply sql_eq_numeric in He.
    unfold eval, exec, Legacy.key_enter, Legacy.update, bind, get, modify,
      lift, ret.
    simpl. rewrite Hname. simpl. rewrite ?getitem_first. simpl.
    repeat split; assumption.
  - unfold eval, exec, Legacy.key_enter, Legacy.update, bind, get, modify,
      lift, ret.
    simpl. rewrite Hname. simpl. rewrite ?getitem_first. simpl.
    repeat split.
Qed.

Lemma catalog_commit_flow_ngc5 :
  let catalog_screen :=
    {| Legacy.screen :=
         Sample.search (replicate 4 "-")
           [Sample.ngc 9; Sample.ngc 1; Sample.ngc 5];
       Legacy.switch_to := None; Legacy.shared_target := None;
       Legacy.display := None |} in
  let typed :=
    exec (Legacy.on_screen (Catalog.key_number Sample.no_types 5))
      catalog_screen in
  let committed := exec Legacy.key_enter typed in
  let key := Catalog.current_key (Catalog.designator (Legacy.screen typed)) in
  key = Catalog.current_key
          (Catalog.push_digit
             (Catalog.designator (Legacy.screen catalog_screen)) 5)
  /\ match Catalog.cat_object (Legacy.screen typed) with
     | Some r =>
         Legacy.shared_target committed = Some r
         /\ r ∈ Catalog.conn (Legacy.screen catalog_screen)
         /\ Catalog.catalog r = "N"
         /\ Catalog.sql_numeric key = Some (Catalog.designation r)
         /\ eval Legacy.update committed = Ok (Some "UILocate")
         /\ Legacy.switch_to (exec Legacy.update committed) = None
     | None =>
         committed = typed
         /\ Legacy.shared_target committed
            = Legacy.shared_target catalog_screen
         /\ eval Legacy.update committed
            = Ok (Legacy.switch_to catalog_screen)
     end.
Proof.
  exact (catalog_commit_flow Sample.no_types 5
           {| Legacy.screen :=
                Sample.search (replicate 4 "-")
                  [Sample.ngc 9; Sample.ngc 1; Sample.ngc 5];
              Legacy.switch_to := None; Legacy.shared_target := None;
              Legacy.display := None |}
           "N" eq_refl).
Defined.

(** X25.  A list that was just loaded is the list a following save of the
    observing scope writes: after a successful load, saving "Observ"
    issues one write of exactly the loaded entries, in their order, and
    the history is neither written nor changed. *)
Theorem load_then_save_writes_loaded
    {Obj : Type} `{!CatalogObject Obj}
    (read_list : string -> ReadResult Obj) (name : string)
    (self : UILocate Obj) :
  name <> "CANCEL" ->
  result (read_list name) <> "error" ->
  catalog (read_list name) <> [] ->
  let loaded := exec (load_list read_list name) self in
  let saved := exec (save_list "Observ") loaded in
  eval (load_list read_list name) self = Ok true
  /\ eval (save_list "Observ") loaded = Ok true
  /\ written saved =
       written self ++
         [(catalog (read_list name),
           uuid self +:+ "_" +:+ "Observ" +:+ "_" +:+ fmt_02d (ss_count self))]
  /\ history_list (ui_state saved) = history_list (ui_state self)
  /\ observing_list (ui_state saved) = catalog (read_list name)
  /\ target (ui_state saved) = head (catalog (read_list name)).
Proof.
  intros Hc He Hn loaded saved. subst saved loaded. unfold eval, exec.
  destruct (catalog (read_list name)) as [|x l] eqn:E; [done|].
  rewrite (load_list_loaded read_list name self x l Hc He E). cbn [fst snd].
  match goal with |- context [save_list "Observ" ?s] =>
    rewrite (save_list_saved "Observ" s) by (try discriminate) end.
  repeat split.
Qed.

Lemma load_then_save_writes_loaded_tonight :
  let read_list := fun _ : string =>
    {| result := "success"; message_ := EmptyString;
       catalog := [Sample.m33; Sample.m42]; objects_parsed := 3 |} in
  let self := Sample.screen [Sample.m31] [Sample.m31] [] (Some Sample.m31) in
  let loaded := exec (load_list read_list "tonight") self in
  let saved := exec (save_list "Observ") loaded in
  eval (load_list read_list "tonight") self = Ok true
  /\ eval (save_list "Observ") loaded = Ok true
  /\ written saved = [([Sample.m33; Sample.m42], "LOC_Observ_03")]
  /\ history_list (ui_state saved) = [Sample.m31]
  /\ observing_list (ui_state saved) = [Sample.m33; Sample.m42]
  /\ target (ui_state saved) = Some Sample.m33.
Proof.
  exact (@load_then_save_writes_loaded _ Sample.Object_catalog_object
           (fun _ : string =>
              {| result := "success"; message_ := EmptyString;
                 catalog := [Sample.m33; Sample.m42]; objects_parsed := 3 |})
           "tonight"
           (Sample.screen [Sample.m31] [Sample.m31] [] (Some Sample.m31))
           ltac:(discriminate) ltac:(discriminate) ltac:(discriminate)).
Defined.
